(** * CallSofia scraper: a shallow embedding of the harvesting pipeline

    The development follows the TypeScript sources of the scraper:

    - [JS]        the fragment of the JavaScript runtime the code relies on
                  (UTF-16 strings, [parseInt], [parseFloat], truthiness);
    - [Regex]     a backtracking matcher for the regular expressions of
                  [parser.ts];
    - [Cheerio]   the DOM tree and the selector fragment of cheerio used by
                  [parser.ts];
    - [Parser]    [SignalParser] ([src/parser.ts]);
    - [Database]  [SignalDatabase] ([src/database.ts]);
    - [Client]    [CallSofiaClient] ([src/client.ts]);
    - [Scraper]   the [Scraper] class of the command line entry point.

    Definitions come first; the statements about them follow. *)

From Stdlib Require Import ZArith NArith QArith Qabs Ascii String List Bool Sorted Lia.
From Stdlib Require DecimalFacts DecimalPos.
From stdpp Require Import base option list gmap sets.

Set Warnings "-register-all".

Local Open Scope Z_scope.

(** ** The JavaScript runtime fragment *)

Module JS.

(** A JavaScript string is a sequence of UTF-16 code units. *)
Abbreviation jsstring := (list N).

(** Source literals are written in UTF-8; [u] turns such a literal into the
    code units the JavaScript engine sees. *)
Fixpoint utf8_units (bs : list N) : jsstring :=
  match bs with
  | [] => []
  | b0 :: r0 =>
      if (b0 <? 128)%N then b0 :: utf8_units r0
      else if (b0 <? 224)%N then
        match r0 with
        | b1 :: r1 => ((b0 - 192) * 64 + (b1 - 128))%N :: utf8_units r1
        | [] => [65533%N]
        end
      else if (b0 <? 240)%N then
        match r0 with
        | b1 :: b2 :: r2 =>
            ((b0 - 224) * 4096 + (b1 - 128) * 64 + (b2 - 128))%N :: utf8_units r2
        | _ => [65533%N]
        end
      else
        match r0 with
        | b1 :: b2 :: b3 :: r3 =>
            let cp := ((b0 - 240) * 262144 + (b1 - 128) * 4096
                       + (b2 - 128) * 64 + (b3 - 128))%N in
            let v := (cp - 65536)%N in
            (55296 + v / 1024)%N :: (56320 + v mod 1024)%N :: utf8_units r3
        | _ => [65533%N]
        end
  end.

Definition u (s : string) : jsstring :=
  utf8_units (List.map N_of_ascii (list_ascii_of_string s)).

Definition unit_eqb (a b : N) : bool := (a =? b)%N.

Fixpoint str_eqb (a b : jsstring) : bool :=
  match a, b with
  | [], [] => true
  | x :: a', y :: b' => unit_eqb x y && str_eqb a' b'
  | _, _ => false
  end.

(** [String.prototype.startsWith] *)
Fixpoint startsWith (s p : jsstring) : bool :=
  match p, s with
  | [], _ => true
  | x :: p', y :: s' => unit_eqb x y && startsWith s' p'
  | _ :: _, [] => false
  end.

(** [String.prototype.includes] *)
Fixpoint includes (s p : jsstring) : bool :=
  startsWith s p ||
  match s with
  | [] => false
  | _ :: s' => includes s' p
  end.

(** [String.prototype.substring(0, n)] *)
Definition substring0 (s : jsstring) (n : nat) : jsstring := firstn n s.

(** White space and line terminators: the characters [String.prototype.trim]
    strips and the class [\s] matches. *)
Definition isWhiteSpace (c : N) : bool :=
  ((9 <=? c) && (c <=? 13) || (c =? 32) || (c =? 160) || (c =? 5760)
   || (8192 <=? c) && (c <=? 8202) || (c =? 8232) || (c =? 8233)
   || (c =? 8239) || (c =? 8287) || (c =? 12288) || (c =? 65279))%N.

Fixpoint trimStart (s : jsstring) : jsstring :=
  match s with
  | c :: s' => if isWhiteSpace c then trimStart s' else s
  | [] => []
  end.

Definition trimEnd (s : jsstring) : jsstring := rev (trimStart (rev s)).

Definition trim (s : jsstring) : jsstring := trimEnd (trimStart s).

(** [s.split(sep)] for a one-unit separator: never empty. *)
Fixpoint split (sep : N) (s : jsstring) : list jsstring :=
  match s with
  | [] => [[]]
  | c :: s' =>
      if unit_eqb c sep then [] :: split sep s'
      else match split sep s' with
           | p :: ps => (c :: p) :: ps
           | [] => [[c]]
           end
  end.

(** [s.replace(p, '')] for a string pattern: the first occurrence of [p]
    is removed. *)
Fixpoint removeFirst (s p : jsstring) : jsstring :=
  if startsWith s p then skipn (length p) s
  else match s with
       | [] => []
       | c :: s' => c :: removeFirst s' p
       end.

(** A string is truthy when it is not empty. *)
Definition truthy_str (s : jsstring) : bool :=
  match s with [] => false | _ => true end.

(** [a || b] on strings. *)
Definition or_str (a b : jsstring) : jsstring := if truthy_str a then a else b.

(** [s || null] *)
Definition or_null (s : jsstring) : option jsstring :=
  if truthy_str s then Some s else None.

(** [a || b] where [a : string | null]. *)
Definition or_opt (a b : option jsstring) : option jsstring :=
  match a with
  | Some s => if truthy_str s then a else b
  | None => b
  end.

Definition isDigit (c : N) : bool := ((48 <=? c) && (c <=? 57))%N.

Definition digitVal (c : N) : Z := Z.of_N c - 48.

(** Value of a run of decimal digits, most significant first. *)
Definition digitsVal (ds : jsstring) : Z :=
  fold_left (fun acc c => acc * 10 + digitVal c) ds 0.

Fixpoint takeWhile (p : N -> bool) (s : jsstring) : jsstring :=
  match s with
  | c :: s' => if p c then c :: takeWhile p s' else []
  | [] => []
  end.

Fixpoint dropWhile (p : N -> bool) (s : jsstring) : jsstring :=
  match s with
  | c :: s' => if p c then dropWhile p s' else s
  | [] => []
  end.

Definition hexVal (c : N) : option Z :=
  if isDigit c then Some (digitVal c)
  else if ((97 <=? c) && (c <=? 102))%N then Some (Z.of_N c - 87)
  else if ((65 <=? c) && (c <=? 70))%N then Some (Z.of_N c - 55)
  else None.

Definition isHex (c : N) : bool :=
  match hexVal c with Some _ => true | None => false end.

Definition hexDigitsVal (ds : jsstring) : Z :=
  fold_left (fun acc c => acc * 16 + default 0 (hexVal c)) ds 0.

(** [parseInt(s)] without a radix; [None] is [NaN].  The value is kept as
    an exact integer (the engine rounds it to a double beyond 2^53). *)
Definition parseInt (s : jsstring) : option Z :=
  let s1 := trimStart s in
  let '(sign, s2) :=
    match s1 with
    | 45%N :: r => (-1, r)
    | 43%N :: r => (1, r)
    | _ => (1, s1)
    end in
  match s2 with
  | 48%N :: x :: r =>
      if ((x =? 120) || (x =? 88))%N then
        match takeWhile isHex r with
        | [] => None
        | ds => Some (sign * hexDigitsVal ds)
        end
      else Some (sign * digitsVal (takeWhile isDigit s2))
  | _ =>
      match takeWhile isDigit s2 with
      | [] => None
      | ds => Some (sign * digitsVal ds)
      end
  end.

(** An integer-valued number or [NaN] is falsy when it is [NaN] or zero. *)
Definition truthy_int (n : option Z) : bool :=
  match n with
  | Some z => negb (z =? 0)
  | None => false
  end.

Definition or_int (a b : option Z) : option Z := if truthy_int a then a else b.

Definition uint_units : Decimal.uint -> jsstring :=
  fix go (d : Decimal.uint) : jsstring :=
    match d with
    | Decimal.Nil => []
    | Decimal.D0 r => 48%N :: go r
    | Decimal.D1 r => 49%N :: go r
    | Decimal.D2 r => 50%N :: go r
    | Decimal.D3 r => 51%N :: go r
    | Decimal.D4 r => 52%N :: go r
    | Decimal.D5 r => 53%N :: go r
    | Decimal.D6 r => 54%N :: go r
    | Decimal.D7 r => 55%N :: go r
    | Decimal.D8 r => 56%N :: go r
    | Decimal.D9 r => 57%N :: go r
    end.

(** [Number.prototype.toString()] of an integer below 10^21 in absolute
    value: the decimal digits, with a minus sign when negative. *)
Definition toString (n : Z) : jsstring :=
  match n with
  | Z0 => [48%N]
  | Zpos p => uint_units (Pos.to_uint p)
  | Zneg p => 45%N :: uint_units (Pos.to_uint p)
  end.

(** A floating point number is kept as the decimal literal it was read
    from ([Dec q] stands for the double nearest to [q]) or is [NaN]. *)
Inductive number :=
| NaN
| Dec (q : Q).

(** [parseFloat(s)]: the longest prefix of the trimmed string that is a
    decimal literal ([digits], [digits.digits], [.digits], with an
    optional sign and exponent); [NaN] when there is none.  The parser
    only applies it to runs of digits and dots, so the literal
    [Infinity] is left out. *)
Definition parseFloat (s : jsstring) : number :=
  let s1 := trimStart s in
  let '(neg, s2) :=
    match s1 with
    | 45%N :: r => (true, r)
    | 43%N :: r => (false, r)
    | _ => (false, s1)
    end in
  let ip := takeWhile isDigit s2 in
  let r1 := dropWhile isDigit s2 in
  let fp := match r1 with
            | 46%N :: r2 => takeWhile isDigit r2
            | _ => []
            end in
  let r3 := match r1 with
            | 46%N :: r2 => dropWhile isDigit r2
            | _ => r1
            end in
  match ip, fp with
  | [], [] => NaN
  | _, _ =>
      let m := digitsVal (ip ++ fp) in
      let q := Qmake m (Z.to_pos (10 ^ Z.of_nat (length fp))) in
      let ex :=
        match r3 with
        | e :: r4 =>
            if ((e =? 101) || (e =? 69))%N then
              let '(eneg, r5) :=
                match r4 with
                | 45%N :: r => (true, r)
                | 43%N :: r => (false, r)
                | _ => (false, r4)
                end in
              match takeWhile isDigit r5 with
              | [] => 0
              | ds => if eneg then - digitsVal ds else digitsVal ds
              end
            else 0
        | [] => 0
        end in
      let q' := Qmult q (Qpower (10 # 1) ex) in
      Dec (if neg then Qopp q' else q')
  end.

(** Truthiness of [number | null]: [null], [NaN] and zero are falsy.  A
    decimal rounds to the double zero when its magnitude is at most
    2^-1075, half of the smallest subnormal. *)
Definition truthy_num (n : option number) : bool :=
  match n with
  | None => false
  | Some NaN => false
  | Some (Dec q) => negb (Qle_bool (Qabs q) (1 # (2 ^ 1075)))
  end.

(** [parts.join(sep)] *)
Fixpoint join (sep : jsstring) (parts : list jsstring) : jsstring :=
  match parts with
  | [] => []
  | p :: ps =>
      match ps with
      | [] => p
      | _ :: _ => p ++ sep ++ join sep ps
      end
  end.

(** [array.slice(start, end)]: a negative index counts from the end, and
    both are clamped to the array. *)
Definition slice {A} (l : list A) (start end_ : Z) : list A :=
  let len := Z.of_nat (length l) in
  let k := if start <? 0 then Z.max (len + start) 0 else Z.min start len in
  let final := if end_ <? 0 then Z.max (len + end_) 0 else Z.min end_ len in
  firstn (Z.to_nat (final - k)) (skipn (Z.to_nat k) l).

(** [a < b] on strings: code unit by code unit, a proper prefix first. *)
Fixpoint lt_str (a b : jsstring) : bool :=
  match a, b with
  | _, [] => false
  | [], _ :: _ => true
  | x :: a', y :: b' => (x <? y)%N || ((x =? y)%N && lt_str a' b')
  end.

(** [s.replace(/\s+/g, ' ')]: every run of white space becomes one space;
    [inRun] tells that the unit before was white space. *)
Fixpoint collapseWhiteSpace_from (inRun : bool) (s : jsstring) : jsstring :=
  match s with
  | [] => []
  | c :: s' =>
      if isWhiteSpace c then
        if inRun then collapseWhiteSpace_from true s'
        else 32%N :: collapseWhiteSpace_from true s'
      else c :: collapseWhiteSpace_from false s'
  end.

Definition collapseWhiteSpace (s : jsstring) : jsstring :=
  collapseWhiteSpace_from false s.

End JS.

(** ** Regular expressions

    The patterns of [parser.ts] are matched the way the ECMAScript
    specification describes it: a backtracking matcher in continuation
    passing style, greedy and lazy quantifiers, numbered capture groups,
    look-ahead and the two line assertions. *)

Module Regex.
Import JS.

Inductive regex :=
| Eps
| Chr (p : N -> bool)
| Seq (a b : regex)
| Alt (a b : regex)
| Rep (greedy : bool) (lo : nat) (hi : option nat) (a : regex)
| Grp (i : nat) (a : regex)
| Ahead (a : regex)
| Bos
| Eos.

(** Matcher state: the index reached, the input left, the captures. *)
Record mstate := MState {
  pos : nat;
  rest : jsstring;
  caps : list (nat * jsstring)
}.

Definition or_else (a b : option mstate) : option mstate :=
  match a with
  | Some _ => a
  | None => b
  end.

Definition hi_zero (hi : option nat) : bool :=
  match hi with Some O => true | _ => false end.

Definition hi_pred (hi : option nat) : option nat :=
  match hi with Some n => Some (Nat.pred n) | None => None end.

(** [m r x k]: match [r] at [x] and continue with [k].  A quantified
    atom may not match the empty string once its minimum is reached, which
    bounds the number of iterations by [lo] plus the input left. *)
Fixpoint m (r : regex) (x : mstate) (k : mstate -> option mstate)
  : option mstate :=
  match r with
  | Eps => k x
  | Chr p =>
      match rest x with
      | c :: s => if p c then k (MState (S (pos x)) s (caps x)) else None
      | [] => None
      end
  | Seq a b => m a x (fun y => m b y k)
  | Alt a b => or_else (m a x k) (m b x k)
  | Rep greedy lo hi a =>
      (fix loop (fuel lo : nat) (hi : option nat) (x : mstate)
         {struct fuel} : option mstate :=
         match fuel with
         | O => None
         | S fuel' =>
             if hi_zero hi then k x
             else
               let iter :=
                 m a x (fun y =>
                   if (lo =? 0)%nat && (pos y =? pos x)%nat then None
                   else loop fuel' (Nat.pred lo) (hi_pred hi) y) in
               if (0 <? lo)%nat then iter
               else if greedy then or_else iter (k x)
               else or_else (k x) iter
         end) (S (lo + length (rest x))) lo hi x
  | Grp i a =>
      m a x (fun y =>
        k (MState (pos y) (rest y)
             ((i, firstn (pos y - pos x) (rest x)) :: caps y)))
  | Ahead a =>
      match m a x Some with
      | Some y => k (MState (pos x) (rest x) (caps y))
      | None => None
      end
  | Bos => if (pos x =? 0)%nat then k x else None
  | Eos => match rest x with [] => k x | _ => None end
  end.

(** The result of [str.match(re)] for a pattern without the [g] flag. *)
Record result := Result {
  index : nat;
  whole : jsstring;
  groups : list (nat * jsstring)
}.

(** Capture [i] of a match; [None] is [undefined]. *)
Definition group (i : nat) (r : result) : option jsstring :=
  snd <$> List.find (fun c => (fst c =? i)%nat) (groups r).

Fixpoint search (r : regex) (at_ : nat) (s : jsstring) : option result :=
  match m r (MState at_ s []) Some with
  | Some y => Some (Result at_ (firstn (pos y - at_) s) (caps y))
  | None =>
      match s with
      | [] => None
      | _ :: s' => search r (S at_) s'
      end
  end.

Definition match_ (s : jsstring) (r : regex) : option result := search r 0 s.

(** [s.replace(re, '')]: the first match is removed. *)
Definition remove_match (s : jsstring) (r : regex) : jsstring :=
  match match_ s r with
  | Some res => firstn (index res) s ++ skipn (index res + length (whole res)) s
  | None => s
  end.

(** Atoms. *)
Definition lit (c : N) : regex := Chr (N.eqb c).
Definition digit : regex := Chr isDigit.
Definition space : regex := Chr isWhiteSpace.
Definition any : regex := Chr (fun _ => true).
Definition oneof (cs : jsstring) : regex :=
  Chr (fun c => existsb (N.eqb c) cs).
Definition star (a : regex) : regex := Rep true 0 None a.
Definition plus (a : regex) : regex := Rep true 1 None a.
Definition opt (a : regex) : regex := Rep true 0 (Some 1%nat) a.
Definition times (n : nat) (a : regex) : regex := Rep true n (Some n) a.
Definition seq (rs : list regex) : regex := fold_right Seq Eps rs.
Definition str (s : jsstring) : regex := seq (lit <$> s).

(** Canonicalisation under the [i] flag (no [u] flag): the upper case of
    the code unit.  Written out for the Latin and Cyrillic letters, which
    is every code unit that can equal a letter of the patterns below. *)
Definition canonicalize (c : N) : N :=
  (if (97 <=? c) && (c <=? 122) then c - 32
   else if (1072 <=? c) && (c <=? 1103) then c - 32
   else if (1104 <=? c) && (c <=? 1119) then c - 80
   else if c =? 7296 then 1042
   else if c =? 7297 then 1044
   else if c =? 7298 then 1054
   else if c =? 7299 then 1057
   else if (c =? 7300) || (c =? 7301) then 1058
   else if c =? 7302 then 1066
   else c)%N.

Definition lit_i (c : N) : regex :=
  Chr (fun x => (canonicalize x =? canonicalize c)%N).
Definition str_i (s : jsstring) : regex := seq (lit_i <$> s).

End Regex.

(** ** The DOM and the selector fragment of cheerio *)

Module Cheerio.
Import JS.

(** A parsed document: text nodes and elements.  Comments and directives
    take no part in any query of the parser and are left out. *)
Inductive node :=
| Text (data : jsstring)
| Elem (name : jsstring) (attribs : list (jsstring * jsstring))
       (children : list node).

Abbreviation document := (list node).

(** [textContent] of domutils, behind [.text()]: script and style
    content is part of it. *)
Fixpoint textContent (n : node) : jsstring :=
  match n with
  | Text d => d
  | Elem _ _ cs =>
      (fix all (l : list node) : jsstring :=
         match l with
         | [] => []
         | c :: l' => textContent c ++ all l'
         end) cs
  end.

Definition br : jsstring := Eval vm_compute in u "br".

(** [getText] of domutils, behind [:contains]: as [textContent], with a
    line feed for every [br]. *)
Fixpoint getText (n : node) : jsstring :=
  match n with
  | Text d => d
  | Elem nm _ cs =>
      if str_eqb nm br then [10%N]
      else
        (fix all (l : list node) : jsstring :=
           match l with
           | [] => []
           | c :: l' => getText c ++ all l'
           end) cs
  end.

Definition isElem (n : node) : bool :=
  match n with Elem _ _ _ => true | Text _ => false end.

Definition name_of (n : node) : jsstring :=
  match n with Elem nm _ _ => nm | Text _ => [] end.

Definition children_of (n : node) : list node :=
  match n with Elem _ _ cs => cs | Text _ => [] end.

(** [elem.attribs[name]] *)
Definition attr_of (n : node) (a : jsstring) : option jsstring :=
  match n with
  | Elem _ as_ _ => snd <$> List.find (fun kv => str_eqb (fst kv) a) as_
  | Text _ => None
  end.

(** An element together with where it sits: its ancestors (nearest
    first), the siblings before it (nearest first) and after it. *)
Record place := Place {
  self : node;
  ancestors : list node;
  before : list node;
  after : list node
}.

(** The elements below and including [n], in document order. *)
Fixpoint walk (anc : list node) (bef : list node) (n : node)
  (aft : list node) : list place :=
  match n with
  | Text _ => []
  | Elem _ _ cs =>
      Place n anc bef aft ::
      (fix kids (b : list node) (l : list node) : list place :=
         match l with
         | [] => []
         | c :: l' => walk (n :: anc) b c l' ++ kids (c :: b) l'
         end) [] cs
  end.

Fixpoint walk_all (anc : list node) (bef : list node) (l : list node)
  : list place :=
  match l with
  | [] => []
  | c :: l' => walk anc bef c l' ++ walk_all anc (c :: bef) l'
  end.

Definition places (d : document) : list place := walk_all [] [] d.

(** Selectors. *)
Inductive simple :=
| Tag (nm : jsstring)
| Class (c : jsstring)
| Id (i : jsstring)
| AttrEq (a v : jsstring)
| AttrHas (a v : jsstring)
| Contains (s : jsstring).

Abbreviation compound := (list simple).

Inductive selector :=
| Sel (c : compound)
| Desc (a c : compound)
| Adj (a c : compound).

(** Words of a class attribute. *)
Fixpoint words_aux (cur : jsstring) (s : jsstring) : list jsstring :=
  match s with
  | [] => match cur with [] => [] | _ => [rev cur] end
  | c :: s' =>
      if isWhiteSpace c
      then match cur with
           | [] => words_aux [] s'
           | _ => rev cur :: words_aux [] s'
           end
      else words_aux (c :: cur) s'
  end.

Definition words (s : jsstring) : list jsstring := words_aux [] s.

Definition attr_kw_class : jsstring := Eval vm_compute in u "class".
Definition attr_kw_id : jsstring := Eval vm_compute in u "id".

Definition matches_simple (n : node) (s : simple) : bool :=
  match s with
  | Tag nm => str_eqb (name_of n) nm
  | Class c =>
      match attr_of n attr_kw_class with
      | Some v => existsb (str_eqb c) (words v)
      | None => false
      end
  | Id i =>
      match attr_of n attr_kw_id with
      | Some v => str_eqb v i
      | None => false
      end
  | AttrEq a v =>
      match attr_of n a with
      | Some w => str_eqb w v
      | None => false
      end
  | AttrHas a v =>
      match attr_of n a with
      | Some w => truthy_str v && includes w v
      | None => false
      end
  | Contains t => includes (getText n) t
  end.

Definition matches_compound (n : node) (c : compound) : bool :=
  isElem n && forallb (matches_simple n) c.

(** The element sibling just before a place. *)
Definition prev_elem (p : place) : option node :=
  List.find isElem (before p).

Definition matches (p : place) (s : selector) : bool :=
  match s with
  | Sel c => matches_compound (self p) c
  | Desc a c =>
      matches_compound (self p) c
      && existsb (fun n => matches_compound n a) (ancestors p)
  | Adj a c =>
      matches_compound (self p) c
      && match prev_elem p with
         | Some n => matches_compound n a
         | None => false
         end
  end.

(** [$(selectors)]: the matching elements in document order. *)
Definition select (d : document) (ss : list selector) : list place :=
  List.filter (fun p => existsb (matches p) ss) (places d).

(** [.text()] of a selection. *)
Definition text (sel : list place) : jsstring :=
  List.concat ((fun p => textContent (self p)) <$> sel).

(** [.first()], [.last()]: a selection of at most one element. *)
Definition first (sel : list place) : list place :=
  match sel with
  | [] => []
  | p :: _ => [p]
  end.

Definition last (sel : list place) : list place :=
  match List.last (Some <$> sel) None with
  | Some p => [p]
  | None => []
  end.

(** [.attr(name)] of a selection: read on its first element. *)
Definition attr (sel : list place) (a : jsstring) : option jsstring :=
  match sel with
  | [] => None
  | p :: _ => attr_of (self p) a
  end.

(** [.find(c)]: the descendants matching a compound selector. *)
Definition find (p : place) (c : compound) : list place :=
  List.filter (fun q => matches_compound (self q) c)
    (walk_all (self p :: ancestors p) [] (children_of (self p))).

(** [.siblings(c)]: the other element children of the parent that match
    [c], in document order. *)
Definition siblings (p : place) (c : compound) : list node :=
  List.filter (fun n => matches_compound n c) (rev (before p) ++ after p).

(** [.next()]: the element sibling just after. *)
Definition next (p : place) : option node := List.find isElem (after p).

End Cheerio.

(** ** [src/types.ts] *)

Module Types.
Import JS.

Record Signal := mkSignal {
  id : Z;
  registrationNumber : option jsstring;
  registrationDate : option jsstring;
  categoryId : option Z;
  categoryName : option jsstring;
  subcategoryId : option Z;
  subcategoryName : option jsstring;
  status : option jsstring;
  statusDate : option jsstring;
  district : option jsstring;
  neighborhood : option jsstring;
  address : option jsstring;
  latitude : option number;
  longitude : option number;
  description : option jsstring;
  problemLocation : option jsstring;
  hasDocuments : bool;
  createdAt : jsstring;
  updatedAt : jsstring;
  rawHtml : option jsstring
}.

Record StatusHistoryEntry := mkStatusHistoryEntry {
  sh_signalId : Z;
  sh_status : jsstring;
  sh_date : jsstring;
  sh_note : option jsstring
}.

Record ClerkAnswer := mkClerkAnswer {
  ca_signalId : Z;
  ca_registrationNumber : option jsstring;
  ca_date : jsstring;
  ca_content : option jsstring;
  ca_institution : option jsstring
}.

Record ScrapeProgress := mkScrapeProgress {
  lastScrapedId : Z;
  totalScraped : Z;
  totalErrors : Z;
  startedAt : jsstring;
  lastUpdatedAt : jsstring
}.

Record Category := mkCategory {
  cat_id : Z;
  cat_name : jsstring;
  cat_parentId : option Z
}.

(** [parentCategoryId] is a number; [None] is [NaN]. *)
Record Subcategory := mkSubcategory {
  sub_id : Z;
  sub_name : jsstring;
  sub_fullName : jsstring;
  sub_parentCategoryId : option Z
}.

(** [CategoryApiItem] and [SubcategoryApiItem]. *)
Record ApiItem := mkApiItem {
  ID : Z;
  Value : jsstring
}.

(** A row of a jqGrid response: [None] when the row is missing or its
    [cell] is not an array; a cell that is null or missing is [None]. *)
Definition JqGridRow : Type := option (list (option jsstring)).

(** The data of a jqGrid response: [None] when it has no array [rows]. *)
Definition JqGridData : Type := option (list JqGridRow).

Record ExportOptions := mkExportOptions {
  eo_categoryId : option Z;
  eo_subcategoryId : option Z;
  eo_startDate : option jsstring;
  eo_endDate : option jsstring;
  eo_status : option jsstring;
  eo_district : option jsstring;
  eo_includeStatusHistory : bool;
  eo_includeClerkAnswers : bool
}.

End Types.

(** ** [src/parser.ts]: [SignalParser] *)

Module Parser.
Import JS Regex Cheerio Types.

(** String literals of the source. *)
Definition s_not_registered : jsstring := Eval vm_compute in u "Няма регистриран сигнал".
Definition s_invalid_number : jsstring := Eval vm_compute in u "Невалиден номер".
Definition s_signal_no : jsstring := Eval vm_compute in u "Сигнал №".
Definition s_district : jsstring := Eval vm_compute in u "Район".
Definition s_zhk : jsstring := Eval vm_compute in u "ж.к.".
Definition s_kvartal : jsstring := Eval vm_compute in u "Квартал".
Definition s_NEIGHBOURHOOD : jsstring := Eval vm_compute in u "NEIGHBOURHOOD".
Definition s_approx_address : jsstring := Eval vm_compute in u "Приблизителен адрес".
Definition s_street : jsstring := Eval vm_compute in u "Улица".
Definition s_ADDRESS : jsstring := Eval vm_compute in u "ADDRESS".
Definition s_location : jsstring := Eval vm_compute in u "Местоположение".
Definition s_LOCATION : jsstring := Eval vm_compute in u "LOCATION".
Definition s_problem_is_at : jsstring := Eval vm_compute in u "Проблемът се намира".
Definition s_problem_location : jsstring := Eval vm_compute in u "Местоположение на проблема".
Definition s_description : jsstring := Eval vm_compute in u "Описание".
Definition s_status : jsstring := Eval vm_compute in u "Статус".
Definition s_category : jsstring := Eval vm_compute in u "Категория".

(** Selectors of the source. *)
Definition t (s : string) : simple := Tag (u s).
Definition c (s : string) : simple := Class (u s).

Definition sel_body := [Sel [t "body"]].
Definition sel_header := [Desc [c "content-wrapper"] [t "h3"]].
Definition sel_header_alt := [Sel [t "h3"; Contains s_signal_no]].
Definition sel_statusIndicator := [Sel [Id (u "statusIndicator")]].
Definition sel_statusName := [Sel [Id (u "statusName")]].
Definition sel_status_indicator := [Sel [c "status_indicator"]].
Definition sel_categoryH4 := [Desc [c "content-wrapper"] [t "h4"]].
Definition sel_script := [Sel [t "script"]].
Definition sel_og_description :=
  [Sel [t "meta"; AttrEq (u "property") (u "og:description")]].
Definition sel_document_list := [Sel [c "document-list"]].
Definition sel_a_document := [Sel [t "a"; AttrHas (u "href") (u "Document")]].
Definition sel_a_attachment := [Sel [t "a"; AttrHas (u "href") (u "Attachment")]].
Definition sel_row := [Sel [c "row"]].
Definition sel_label (label : jsstring) := [Sel [t "label"; Contains label]].


Definition col_md_10 : compound := [c "col-md-10"].

(** [/(\d{2}\.\d{2}\.\d{4}\s+\d{2}:\d{2}:\d{2})/] *)
Definition date_re : regex :=
  Grp 1 (seq [times 2 digit; lit 46; times 2 digit; lit 46; times 4 digit;
              plus space; times 2 digit; lit 58; times 2 digit; lit 58;
              times 2 digit]).

(** [/(СО[А]?\d{2}-КЦ\d{0,2}-?\d+(?:-\[\d+\])?)/] *)
Definition regnum_re : regex :=
  Grp 1 (seq [str (u "СО"); opt (oneof (u "А")); times 2 digit; lit 45;
              str (u "КЦ"); Rep true 0 (Some 2%nat) digit; opt (lit 45);
              plus digit;
              opt (seq [lit 45; lit 91; plus digit; lit 93])]).

(** [/\[\s*([\d.]+)\s*,\s*([\d.]+)\s*\]/] *)
Definition digit_or_dot : regex := Chr (fun x => isDigit x || (x =? 46)%N).

Definition coord_re : regex :=
  seq [lit 91; star space; Grp 1 (plus digit_or_dot); star space; lit 44;
       star space; Grp 2 (plus digit_or_dot); star space; lit 93].

(** [/\[\s*(4\d\.\d+)\s*,\s*(2\d\.\d+)\s*\]/] *)
Definition map_re : regex :=
  seq [lit 91; star space;
       Grp 1 (seq [lit 52; digit; lit 46; plus digit]); star space; lit 44;
       star space;
       Grp 2 (seq [lit 50; digit; lit 46; plus digit]); star space; lit 93].

(** The separator class of the two key patterns: apostrophe, double
    quote, colon or white space. *)
Definition key_sep : regex :=
  Chr (fun x => (x =? 39)%N || (x =? 34)%N || (x =? 58)%N || isWhiteSpace x).

(** The pattern for [subcategoryId], one or more separators, then
    [(\d+)]; flag [i]. *)
Definition subcat_id_re : regex :=
  seq [str_i (u "subcategoryId"); plus key_sep; Grp 1 (plus digit)].

(** The pattern for [categoryId], one or more separators, then
    [(\d+)]; flag [i]. *)
Definition cat_id_re : regex :=
  seq [str_i (u "categoryId"); plus key_sep; Grp 1 (plus digit)].

(** [/^\s*$/] *)
Definition blank_re : regex := seq [Bos; star space; Eos].

(** [/Описание[:\s]*([\s\S]*?)(?=Статус|Категория|Район|$)/i] *)
Definition description_re : regex :=
  seq [str_i s_description;
       star (Chr (fun x => (x =? 58)%N || isWhiteSpace x));
       Grp 1 (Rep false 0 None any);
       Ahead (Alt (str_i s_status)
                (Alt (str_i s_category) (Alt (str_i s_district) Eos)))].

(** The first label whose value column or next sibling carries text
    (the first loop of [extractRowValue]). *)
Fixpoint extractRowValue_labels (labels : list place) : option jsstring :=
  match labels with
  | [] => None
  | labelEl :: labels' =>
      let valueDiv := List.head (siblings labelEl col_md_10) in
      let fromValue :=
        match valueDiv with
        | Some v =>
            let text := trim (textContent v) in
            if truthy_str text && (0 <? length text)%nat then Some text
            else None
        | None => None
        end in
      match fromValue with
      | Some text => Some text
      | None =>
          let fromNext :=
            match next labelEl with
            | Some n =>
                let text := trim (textContent n) in
                if truthy_str text && (0 <? length text)%nat
                   && (length text <? 500)%nat
                then Some text else None
            | None => None
            end in
          match fromNext with
          | Some text => Some text
          | None => extractRowValue_labels labels'
          end
      end
  end.

(** The first [.row] whose text includes the label and whose first
    [.col-md-10] descendant carries text (the second loop). *)
Fixpoint extractRowValue_rows (label : jsstring) (rows : list place)
  : option jsstring :=
  match rows with
  | [] => None
  | row :: rows' =>
      let rowText := textContent (self row) in
      let found :=
        if includes rowText label then
          match Cheerio.first (find row col_md_10) with
          | v :: _ =>
              let text := trim (textContent (self v)) in
              if truthy_str text && (0 <? length text)%nat then Some text
              else None
          | [] => None
          end
        else None in
      match found with
      | Some text => Some text
      | None => extractRowValue_rows label rows'
      end
  end.

Definition extractRowValue (dom : document) (label : jsstring)
  : option jsstring :=
  let labels := select dom (sel_label label) in
  match extractRowValue_labels labels with
  | Some text => Some text
  | None =>
      let rows := select dom sel_row in
      extractRowValue_rows label rows
  end.

Definition descriptionSelectors : list (list selector) :=
  [ [Sel [c "signal-description"]];
    [Sel [c "description"]];
    [Sel [Id (u "description")]];
    [Sel [t "textarea"; AttrHas (u "name") (u "escription")]];
    [Desc [c "form-group"; Contains s_description] [c "form-control-static"]];
    [Adj [t "dt"; Contains s_description] [t "dd"]];
    [Desc [c "panel-body"] [t "p"]] ].

Definition sel_page_content :=
  [Sel [c "signal-content"]; Sel [c "content"]; Sel [c "panel-body"];
   Sel [t "main"]].

Fixpoint extractDescription_selectors (dom : document)
  (sels : list (list selector)) : option jsstring :=
  match sels with
  | [] => None
  | selector :: sels' =>
      let found :=
        match Cheerio.first (select dom selector) with
        | element :: _ =>
            let text := trim (textContent (self element)) in
            if truthy_str text && (10 <? length text)%nat then Some text
            else None
        | [] => None
        end in
      match found with
      | Some text => Some text
      | None => extractDescription_selectors dom sels'
      end
  end.

Definition extractDescription (dom : document) : option jsstring :=
  match extractDescription_selectors dom descriptionSelectors with
  | Some text => Some text
  | None =>
      let pageContent := text (select dom sel_page_content) in
      if includes pageContent s_description then
        match match_ pageContent description_re with
        | Some descMatch =>
            match group 1 descMatch with
            | Some g =>
                if truthy_str g then
                  let desc := trim g in
                  if (10 <? length desc)%nat && (length desc <? 5000)%nat
                  then Some desc else None
                else None
            | None => None
            end
        | None => None
        end
      else None
  end.

(** Lines 14-32 of [parse]: the header text and its two tokens. *)
Definition headerText (dom : document) : jsstring :=
  or_str (trim (text (select dom sel_header)))
         (trim (text (select dom sel_header_alt))).

Definition parse_registrationDate (header : jsstring) : option jsstring :=
  match match_ header date_re with
  | Some dateMatch => group 1 dateMatch
  | None => None
  end.

Definition parse_registrationNumber (header : jsstring) : option jsstring :=
  match match_ header regnum_re with
  | Some regNumMatch => group 1 regNumMatch
  | None => None
  end.

(** Lines 34-37: the status indicator and its two fallbacks. *)
Definition parse_status (dom : document) : jsstring :=
  or_str (trim (text (Cheerio.first (select dom sel_statusIndicator))))
    (or_str (trim (text (select dom sel_statusName)))
            (trim (text (Cheerio.first (select dom sel_status_indicator))))).

(** Lines 39-74: category and subcategory names from the [h4]. *)
Definition parse_category (dom : document)
  : option jsstring * option jsstring :=
  match Cheerio.first (select dom sel_categoryH4) with
  | [] => (None, None)
  | categoryH4 :: _ =>
      let h4Text := trim (textContent (self categoryH4)) in
      let subcatItalic :=
        trim (text (Cheerio.last (find categoryH4 [t "i"]))) in
      let subcategoryName :=
        if truthy_str subcatItalic then Some subcatItalic else None in
      let parts := trim <$> split 47 h4Text in
      let categoryName :=
        match parts with
        | p0 :: rest_ =>
            let first_ := or_null (trim (remove_match p0 blank_re)) in
            match first_, rest_ with
            | None, p1 :: _ =>
                or_null (trim (removeFirst p1 (default [] subcategoryName)))
            | _, _ => first_
            end
        | [] => None
        end in
      if includes h4Text [47%N] then
        match split 47 h4Text with
        | sp0 :: sp1 :: _ =>
            (or_null (trim sp0), or_null (or_str subcatItalic (trim sp1)))
        | _ => (categoryName, subcategoryName)
        end
      else (categoryName, subcategoryName)
  end.

(** Lines 87-110: the coordinate pair, from the location row first and
    from the scripts when either value is still falsy. *)
Definition parse_coordinates (locationText : option jsstring)
  (scriptContent : jsstring) : option number * option number :=
  let '(latitude, longitude) :=
    match locationText with
    | Some txt =>
        if truthy_str txt then
          match match_ txt coord_re with
          | Some coordMatch =>
              (Some (parseFloat (default [] (group 1 coordMatch))),
               Some (parseFloat (default [] (group 2 coordMatch))))
          | None => (None, None)
          end
        else (None, None)
    | None => (None, None)
    end in
  if negb (truthy_num latitude) || negb (truthy_num longitude) then
    match match_ scriptContent map_re with
    | Some mapDataMatch =>
        (Some (parseFloat (default [] (group 1 mapDataMatch))),
         Some (parseFloat (default [] (group 2 mapDataMatch))))
    | None => (latitude, longitude)
    end
  else (latitude, longitude).

(** Lines 129-139: a number after a key in the scripts. *)
Definition parse_script_id (allScripts : jsstring) (re : regex) : option Z :=
  match match_ allScripts re with
  | Some idMatch => parseInt (default [] (group 1 idMatch))
  | None => None
  end.

Definition locationText (dom : document) : option jsstring :=
  or_opt (extractRowValue dom s_location) (extractRowValue dom s_LOCATION).

(** [parse], after [cheerio.load(html)]: [None] is [null].  [now] and
    [now'] are the two readings of the clock, the first for [createdAt]
    and the second for [updatedAt]. *)
Definition parseDocument (now now' : jsstring) (dom : document) (signalId : Z)
  : option Signal :=
  let bodyText := text (select dom sel_body) in
  if includes bodyText s_not_registered || includes bodyText s_invalid_number
  then None
  else
    let header := headerText dom in
    let registrationDate := parse_registrationDate header in
    let registrationNumber := parse_registrationNumber header in
    let status := parse_status dom in
    let '(categoryName, subcategoryName) := parse_category dom in
    let district := extractRowValue dom s_district in
    let neighborhood :=
      or_opt (extractRowValue dom s_zhk)
        (or_opt (extractRowValue dom s_kvartal)
                (extractRowValue dom s_NEIGHBOURHOOD)) in
    let address :=
      or_opt (extractRowValue dom s_approx_address)
        (or_opt (extractRowValue dom s_street)
                (extractRowValue dom s_ADDRESS)) in
    let '(latitude, longitude) :=
      parse_coordinates (locationText dom) (text (select dom sel_script)) in
    let description :=
      match or_opt (attr (select dom sel_og_description) (u "content")) None with
      | Some d => Some d
      | None => extractDescription dom
      end in
    let problemLocation :=
      or_opt (extractRowValue dom s_problem_is_at)
             (extractRowValue dom s_problem_location) in
    let hasDocuments :=
      (0 <? length (select dom sel_document_list))%nat
      || (0 <? length (select dom sel_a_document))%nat
      || (0 <? length (select dom sel_a_attachment))%nat in
    let allScripts := text (select dom sel_script) in
    let subcategoryId := parse_script_id allScripts subcat_id_re in
    let categoryId := parse_script_id allScripts cat_id_re in
    Some {|
      id := signalId;
      registrationNumber := registrationNumber;
      registrationDate := registrationDate;
      categoryId := categoryId;
      categoryName := categoryName;
      subcategoryId := subcategoryId;
      subcategoryName := subcategoryName;
      status := Some status;
      statusDate := registrationDate;
      district := district;
      neighborhood := neighborhood;
      address := address;
      latitude := latitude;
      longitude := longitude;
      description := description;
      problemLocation := problemLocation;
      hasDocuments := hasDocuments;
      createdAt := now;
      updatedAt := now';
      rawHtml := None
    |}.

(** [parse(html, signalId)]; [load] is [cheerio.load], the HTML parser. *)
Definition parse (load : jsstring -> document) (now now' : jsstring)
  (html : jsstring) (signalId : Z) : option Signal :=
  parseDocument now now' (load html) signalId.

(** [parseSubcategoryFromFullName]: the category and the subcategory. *)
Definition parseSubcategoryFromFullName (fullName : jsstring)
  : jsstring * jsstring :=
  let parts := split 45 fullName in
  (match parts with
   | p0 :: _ => or_str (trim p0) []
   | [] => []
   end,
   trim (join [45%N] (List.tl parts))).

(** [$('script, style, noscript').remove()]: the document without these
    elements. *)
Definition removed_tag (nm : jsstring) : bool :=
  str_eqb nm (u "script") || str_eqb nm (u "style") || str_eqb nm (u "noscript").

Fixpoint remove_scripts (n : node) : list node :=
  match n with
  | Text d => [Text d]
  | Elem nm attribs cs =>
      if removed_tag nm then []
      else
        [Elem nm attribs
           ((fix all (l : list node) : list node :=
               match l with
               | [] => []
               | c :: l' => remove_scripts c ++ all l'
               end) cs)]
  end.

(** [extractRawContent]: the text of the page and the document it leaves
    behind. *)
Definition extractRawContent (dom : document) : jsstring * document :=
  let dom' := List.flat_map remove_scripts dom in
  (trim (collapseWhiteSpace (text (select dom' sel_body))), dom').

End Parser.

(** ** [src/database.ts]: [SignalDatabase] *)

Module Database.
Import JS Types.

(** A row of [signals], without its primary key [id], under which the
    table holds it; a [NULL] column is [None]. *)
Record SignalRow := mkSignalRow {
  registration_number : option jsstring;
  registration_date : option jsstring;
  category_id : option Z;
  category_name : option jsstring;
  subcategory_id : option Z;
  subcategory_name : option jsstring;
  r_status : option jsstring;
  status_date : option jsstring;
  r_district : option jsstring;
  r_neighborhood : option jsstring;
  r_address : option jsstring;
  r_latitude : option number;
  r_longitude : option number;
  r_description : option jsstring;
  problem_location : option jsstring;
  has_documents : Z;
  created_at : option jsstring;
  updated_at : option jsstring;
  raw_html : option jsstring
}.

Record CategoryRow := mkCategoryRow {
  c_id : Z;
  c_name : jsstring;
  c_parent_id : option Z
}.

Record SubcategoryRow := mkSubcategoryRow {
  s_id : Z;
  s_name : jsstring;
  s_full_name : jsstring;
  s_parent_category_id : Z
}.

Record ErrorRow := mkErrorRow {
  e_signal_id : Z;
  e_error_message : jsstring;
  e_error_type : jsstring;
  e_created_at : jsstring
}.

(** The database: the tables keyed by their primary key are finite maps,
    the tables that only grow are lists in insertion order, and
    [scrape_progress] is the single row [initSchema] creates. *)
Record DB := mkDB {
  signals : gmap Z SignalRow;
  status_history : list StatusHistoryEntry;
  clerk_answers : list ClerkAnswer;
  categories : gmap Z CategoryRow;
  subcategories : gmap Z SubcategoryRow;
  scrape_progress : ScrapeProgress;
  scrape_errors : list ErrorRow
}.

Definition set_signals (f : gmap Z SignalRow -> gmap Z SignalRow) (db : DB) : DB :=
  mkDB (f (signals db)) (status_history db) (clerk_answers db)
       (categories db) (subcategories db) (scrape_progress db)
       (scrape_errors db).

Definition set_progress (f : ScrapeProgress -> ScrapeProgress) (db : DB) : DB :=
  mkDB (signals db) (status_history db) (clerk_answers db)
       (categories db) (subcategories db) (f (scrape_progress db))
       (scrape_errors db).

(** SQLite stores a [NaN] bound to a [REAL] column as [NULL]. *)
Definition bind_real (x : option number) : option number :=
  match x with
  | Some NaN => None
  | _ => x
  end.

(** [COALESCE(a, b)] *)
Definition COALESCE {A} (a b : option A) : option A :=
  match a with
  | Some _ => a
  | None => b
  end.

(** The row of the [VALUES] clause of [upsertSignal]: [excluded] in the
    conflict clause.  [created_at] takes its default. *)
Definition excluded (now : jsstring) (signal : Signal) : SignalRow :=
  {| registration_number := registrationNumber signal;
     registration_date := registrationDate signal;
     category_id := categoryId signal;
     category_name := categoryName signal;
     subcategory_id := subcategoryId signal;
     subcategory_name := subcategoryName signal;
     r_status := status signal;
     status_date := statusDate signal;
     r_district := district signal;
     r_neighborhood := neighborhood signal;
     r_address := address signal;
     r_latitude := bind_real (latitude signal);
     r_longitude := bind_real (longitude signal);
     r_description := description signal;
     problem_location := problemLocation signal;
     has_documents := if hasDocuments signal then 1 else 0;
     created_at := Some now;
     updated_at := Some now;
     raw_html := rawHtml signal |}.

(** [ON CONFLICT(id) DO UPDATE SET ...] *)
Definition do_update (now : jsstring) (old new : SignalRow) : SignalRow :=
  {| registration_number := registration_number new;
     registration_date := registration_date new;
     category_id := category_id new;
     category_name := category_name new;
     subcategory_id := subcategory_id new;
     subcategory_name := subcategory_name new;
     r_status := r_status new;
     status_date := status_date new;
     r_district := r_district new;
     r_neighborhood := r_neighborhood new;
     r_address := r_address new;
     r_latitude := r_latitude new;
     r_longitude := r_longitude new;
     r_description := r_description new;
     problem_location := problem_location new;
     has_documents := has_documents new;
     created_at := created_at old;
     updated_at := Some now;
     raw_html := COALESCE (raw_html new) (raw_html old) |}.

(** [upsertSignal]; [now] is the reading of the database clock. *)
Definition upsertSignal (now : jsstring) (signal : Signal) (db : DB) : DB :=
  let new := excluded now signal in
  match signals db !! id signal with
  | None => set_signals (insert (id signal) new) db
  | Some old => set_signals (insert (id signal) (do_update now old new)) db
  end.

Definition rowToSignal (i : Z) (row : SignalRow) : Signal :=
  {| id := i;
     registrationNumber := registration_number row;
     registrationDate := registration_date row;
     categoryId := category_id row;
     categoryName := category_name row;
     subcategoryId := subcategory_id row;
     subcategoryName := subcategory_name row;
     status := r_status row;
     statusDate := status_date row;
     district := r_district row;
     neighborhood := r_neighborhood row;
     address := r_address row;
     latitude := r_latitude row;
     longitude := r_longitude row;
     description := r_description row;
     problemLocation := problem_location row;
     hasDocuments := negb (has_documents row =? 0);
     createdAt := default [] (created_at row);
     updatedAt := default [] (updated_at row);
     rawHtml := raw_html row |}.

Definition getSignal (i : Z) (db : DB) : option Signal :=
  rowToSignal i <$> signals db !! i.

Definition signalExists (i : Z) (db : DB) : bool :=
  match signals db !! i with
  | Some _ => true
  | None => false
  end.


(** [insertStatusHistory]: the rows of the first entry's signal are
    replaced by the entries. *)
Definition insertStatusHistory (entries : list StatusHistoryEntry) (db : DB) : DB :=
  match entries with
  | [] => db
  | e0 :: _ =>
      mkDB (signals db)
           (List.filter (fun e => negb (sh_signalId e =? sh_signalId e0))
              (status_history db) ++ entries)
           (clerk_answers db) (categories db) (subcategories db)
           (scrape_progress db) (scrape_errors db)
  end.

Definition insertClerkAnswers (answers : list ClerkAnswer) (db : DB) : DB :=
  match answers with
  | [] => db
  | a0 :: _ =>
      mkDB (signals db) (status_history db)
           (List.filter (fun a => negb (ca_signalId a =? ca_signalId a0))
              (clerk_answers db) ++ answers)
           (categories db) (subcategories db)
           (scrape_progress db) (scrape_errors db)
  end.

(** [INSERT OR REPLACE INTO categories] for each category. *)
Definition upsertCategories (cats : list CategoryRow) (db : DB) : DB :=
  mkDB (signals db) (status_history db) (clerk_answers db)
       (foldl (fun tbl cat => <[c_id cat := cat]> tbl) (categories db) cats)
       (subcategories db) (scrape_progress db) (scrape_errors db).

Definition upsertSubcategories (subs : list SubcategoryRow) (db : DB) : DB :=
  mkDB (signals db) (status_history db) (clerk_answers db) (categories db)
       (foldl (fun tbl sub => <[s_id sub := sub]> tbl) (subcategories db) subs)
       (scrape_progress db) (scrape_errors db).

(** The first row of a scan in key order. *)
Definition first_id (ids : list Z) : option Z :=
  match ids with
  | [] => None
  | i :: rest => Some (fold_right Z.min i rest)
  end.

(** [row?.id || null] *)
Definition id_or_null (row : option Z) : option Z :=
  match row with
  | Some i => if i =? 0 then None else Some i
  | None => None
  end.

Definition getCategoryIdByName (name : jsstring) (db : DB) : option Z :=
  id_or_null
    (first_id
       (fst <$> List.filter (fun kv => str_eqb (c_name (snd kv)) name)
                  (map_to_list (categories db)))).

Definition getSubcategoryIdByName (name : jsstring) (db : DB) : option Z :=
  id_or_null
    (first_id
       (fst <$> List.filter (fun kv => str_eqb (s_name (snd kv)) name)
                  (map_to_list (subcategories db)))).

Definition truthy_name (name : option jsstring) : option jsstring :=
  match name with
  | Some s => if truthy_str s then Some s else None
  | None => None
  end.

Definition lookupCategoryIds (categoryName subcategoryName : option jsstring)
  (db : DB) : option Z * option Z :=
  let categoryId :=
    match truthy_name categoryName with
    | Some name => getCategoryIdByName name db
    | None => None
    end in
  match truthy_name subcategoryName with
  | Some name =>
      let subcategoryId := getSubcategoryIdByName name db in
      match subcategoryId, categoryId with
      | Some sid, None =>
          (id_or_null (s_parent_category_id <$> subcategories db !! sid),
           subcategoryId)
      | _, _ => (categoryId, subcategoryId)
      end
  | None => (categoryId, None)
  end.

Definition getProgress (db : DB) : ScrapeProgress := scrape_progress db.

(** [updateProgress(lastId, incrementScraped, incrementErrors)] *)
Definition updateProgress (now : jsstring) (lastId : Z)
  (incrementScraped incrementErrors : Z) (db : DB) : DB :=
  set_progress (fun p =>
    {| lastScrapedId := Z.max (lastScrapedId p) lastId;
       totalScraped := totalScraped p + incrementScraped;
       totalErrors := totalErrors p + incrementErrors;
       startedAt := startedAt p;
       lastUpdatedAt := now |}) db.

Definition resetProgress (now : jsstring) (db : DB) : DB :=
  set_progress (fun _ =>
    {| lastScrapedId := 0; totalScraped := 0; totalErrors := 0;
       startedAt := now; lastUpdatedAt := now |}) db.

Definition logError (now : jsstring) (signalId : Z) (message type : jsstring)
  (db : DB) : DB :=
  mkDB (signals db) (status_history db) (clerk_answers db)
       (categories db) (subcategories db) (scrape_progress db)
       (scrape_errors db ++ [mkErrorRow signalId message type now]).

(** [getMissingIds]: the ids of the rows between the bounds, as a set. *)
Definition existingIds (start end_ : Z) (db : DB) : gset Z :=
  list_to_set
    (fst <$> List.filter (fun kv => (start <=? fst kv) && (fst kv <=? end_))
               (map_to_list (signals db))).

(** The loop [for (let i = start; i <= end; i++)], by its number of
    iterations. *)
Fixpoint missing_loop (n : nat) (i : Z) (existing : gset Z) : list Z :=
  match n with
  | O => []
  | S n' =>
      if bool_decide (i ∈ existing) then missing_loop n' (i + 1) existing
      else i :: missing_loop n' (i + 1) existing
  end.

Definition getMissingIds (start end_ : Z) (db : DB) : list Z :=
  missing_loop (Z.to_nat (end_ - start + 1)) start (existingIds start end_ db).

(** The database after [initSchema] on a fresh file. *)
Definition initSchema (now : jsstring) : DB :=
  {| signals := ∅; status_history := []; clerk_answers := [];
     categories := ∅; subcategories := ∅;
     scrape_progress :=
       {| lastScrapedId := 0; totalScraped := 0; totalErrors := 0;
          startedAt := now; lastUpdatedAt := now |};
     scrape_errors := [] |}.

End Database.

(** ** [src/client.ts]: [CallSofiaClient] *)

Module Client.
Import JS Types.

Record ScraperConfig := mkScraperConfig {
  concurrency : Z;
  delayMs : Z;
  retryAttempts : Z;
  retryDelayMs : Z;
  batchSize : Z
}.

Definition DEFAULT_CONFIG : ScraperConfig :=
  {| concurrency := 5; delayMs := 200; retryAttempts := 3;
     retryDelayMs := 1000; batchSize := 100 |}.

Definition knownParentIds : list Z :=
  [33; 32; 30; 28; 27; 38; 40; 22; 11; 9; 8; 7; 6; 5; 4; 3; 2; 1].

(** The loop over the known parent ids: the first whose digits start
    [idStr] is returned. *)
Fixpoint firstKnownParent (idStr : jsstring) (parents : list Z) : option Z :=
  match parents with
  | [] => None
  | parentId :: parents' =>
      if startsWith idStr (toString parentId) then Some parentId
      else firstKnownParent idStr parents'
  end.

(** [extractParentCategoryId]; [None] is [NaN]. *)
Definition extractParentCategoryId (subcategoryId : Z) : option Z :=
  let idStr := toString subcategoryId in
  match firstKnownParent idStr knownParentIds with
  | Some parentId => Some parentId
  | None =>
      or_int (parseInt (substring0 idStr 2)) (parseInt (substring0 idStr 1))
  end.

(** What the client does to the outside: the requests it has sent and
    the delays it has waited, oldest first. *)
Inductive Request :=
| Details (signalId : Z)
| StatusHistory (signalId : Z)
| ClerkAnswers (signalId : Z).

Record Net := mkNet {
  requests : list Request;
  slept : list Z
}.

Definition sleep (ms : Z) (net : Net) : Net :=
  mkNet (requests net) (slept net ++ [ms]).

Definition send (r : Request) (net : Net) : Net :=
  mkNet (requests net ++ [r]) (slept net).

(** An asynchronous action: it settles with a failure or a value and
    leaves its trace. *)
Definition action (E T : Type) : Type := Net -> (E + T) * Net.

Section Retry.
Context {E T : Type}.
Variable config : ScraperConfig.

(** The [for] loop of [withRetry] from iteration [i] on, [n] iterations
    being left; the thrown [lastError] is [None] when it is still
    [undefined]. *)
Fixpoint withRetry_loop (n : nat) (fn : action E T) (attempts i : Z)
  (lastError : option E) (net : Net) : (option E + T) * Net :=
  match n with
  | O => (inl lastError, net)
  | S n' =>
      match fn net with
      | (inr v, net') => (inr v, net')
      | (inl error, net') =>
          let net'' :=
            if i <? attempts - 1
            then sleep (retryDelayMs config * (i + 1)) net'
            else net' in
          withRetry_loop n' fn attempts (i + 1) (Some error) net''
      end
  end.

Definition withRetry (fn : action E T) (attempts : Z) : action (option E) T :=
  fun net => withRetry_loop (Z.to_nat attempts) fn attempts 0 None net.

(** An action whose outcome at each call is fixed by the number of
    requests sent before it; every call sends one request. *)
Definition scripted (script : nat -> E + T) (r : Request) : action E T :=
  fun net => (script (length (requests net)), send r net).
End Retry.

(** The delays [d * 1, ..., d * k] of a linear backoff. *)
Definition delays (d : Z) (k : nat) : list Z :=
  (fun j => d * Z.of_nat j) <$> seq 1 k.

Record Error := mkError { message : jsstring }.

(** The remote site, for the detail page of a signal: a failure, a 404
    ([inr None]) or the page, by the number of requests sent before. *)
Definition Server := Z -> nat -> Error + option jsstring.

(** [getSignalDetailsHtml] *)
Definition getSignalDetailsHtml (server : Server) (id : Z)
  : action Error (option jsstring) :=
  fun net => (server id (length (requests net)), send (Details id) net).

(** The answer of the site to a request: a failure or the data. *)
Definition Response (A : Type) : Type := Error + A.

(** [getCategories]; a failure is reported and gives no category. *)
Definition getCategories (response : Response (list ApiItem)) : list Category :=
  match response with
  | inr data => (fun item => mkCategory (ID item) (Value item) None) <$> data
  | inl _ => []
  end.

(** [getSubcategories] *)
Definition getSubcategories (response : Response (list ApiItem))
  : list Subcategory :=
  match response with
  | inr data =>
      (fun item =>
         let parts := split 45 (Value item) in
         let name := join [45%N] (List.tl parts) in
         let parentCategoryId := extractParentCategoryId (ID item) in
         mkSubcategory (ID item) (trim name) (Value item) parentCategoryId)
        <$> data
  | inl _ => []
  end.

(** [testConnection] *)
Definition testConnection (response : Response (list ApiItem)) : bool :=
  (0 <? length (getCategories response))%nat.

(** [row.cell[i] || ''] and [row.cell[i] || null] *)
Definition cell_or_empty (cell : list (option jsstring)) (i : nat) : jsstring :=
  match nth_error cell i with
  | Some (Some s) => s
  | _ => []
  end.

Definition cell_or_null (cell : list (option jsstring)) (i : nat)
  : option jsstring :=
  match nth_error cell i with
  | Some (Some s) => or_null s
  | _ => None
  end.

(** The rows that have a [cell] array. *)
Definition with_cell (rows : list JqGridRow) : list (list (option jsstring)) :=
  omap (fun row => row) rows.

(** [getStatusHistory]; failures and malformed answers give no entry. *)
Definition getStatusHistory (response : Response JqGridData) (signalId : Z)
  : list StatusHistoryEntry :=
  match response with
  | inr (Some rows) =>
      (fun cell =>
         mkStatusHistoryEntry signalId (cell_or_empty cell 0)
           (cell_or_empty cell 1) (cell_or_null cell 2))
        <$> with_cell rows
  | _ => []
  end.

(** [getClerkAnswers] *)
Definition getClerkAnswers (response : Response JqGridData) (signalId : Z)
  : list ClerkAnswer :=
  match response with
  | inr (Some rows) =>
      (fun cell =>
         mkClerkAnswer signalId (cell_or_null cell 0) (cell_or_empty cell 1)
           (cell_or_null cell 2) (cell_or_null cell 3))
        <$> with_cell rows
  | _ => []
  end.

End Client.

(** ** The command line entry point: [Scraper] *)

Module Scraper.
Import JS Types Cheerio Database Client.

Record ScrapeOptions := mkScrapeOptions {
  start : Z;
  end_ : Z;
  o_concurrency : Z;
  delay : Z;
  resume : bool;
  saveHtml : bool;
  skipExisting : bool;
  fetchExtras_ : bool;
  o_batchSize : Z
}.

Record Stats := mkStats {
  scraped : Z;
  skipped : Z;
  errors : Z;
  notFound : Z
}.

Record World := mkWorld {
  stats : Stats;
  db : DB;
  net : Net
}.

(** The sum [run] prints as the number of ids processed. *)
Definition totalProcessed (st : Stats) : Z :=
  scraped st + skipped st + errors st + notFound st.

(** How a promise ends: it is resolved, it is rejected, or it is never
    settled. *)
Inductive Completion := Resolved | Rejected | Pending.

Definition s_scrape : jsstring := Eval vm_compute in u "scrape".

Section Scraper.
Variable load : jsstring -> document.
Variable now : jsstring.
Variable server : Server.
(** What [getStatusHistory] and [getClerkAnswers] return for a signal,
    failures already turned into the empty list. *)
Variable statusHistoryOf : Z -> list StatusHistoryEntry.
Variable clerkAnswersOf : Z -> list ClerkAnswer.
Variable options : ScrapeOptions.
Variable config : ScraperConfig.

Definition fetchExtras (signalId : Z) (w : World) : World :=
  let statusHistory := statusHistoryOf signalId in
  let net1 := send (StatusHistory signalId) (net w) in
  let db1 :=
    if (0 <? length statusHistory)%nat
    then insertStatusHistory statusHistory (db w) else db w in
  let clerkAnswers := clerkAnswersOf signalId in
  let net2 := send (ClerkAnswers signalId) net1 in
  let db2 :=
    if (0 <? length clerkAnswers)%nat
    then insertClerkAnswers clerkAnswers db1 else db1 in
  mkWorld (stats w) db2 net2.

(** The three exits of [scrapeSignal] that count a missing signal. *)
Definition countNotFound (id : Z) (w : World) : World :=
  let st := stats w in
  mkWorld (mkStats (scraped st) (skipped st) (errors st) (notFound st + 1))
          (updateProgress now id 0 0 (db w)) (net w).

(** The [catch] block of [scrapeSignal]. *)
Definition catchError (id : Z) (error : option Error) (w : World)
  : Completion * World :=
  let st := stats w in
  let st' := mkStats (scraped st) (skipped st) (errors st + 1) (notFound st) in
  let db1 := updateProgress now id 0 1 (db w) in
  match error with
  | Some err =>
      (Resolved, mkWorld st' (logError now id (message err) s_scrape db1) (net w))
  | None => (Rejected, mkWorld st' db1 (net w))
  end.

(** [scrapeSignal].  The two time stamps [parse] puts into the record are
    not bound by [upsertSignal], which lets the database write its own, so
    one reading of the clock stands for both here. *)
Definition scrapeSignal (id : Z) (w : World) : Completion * World :=
  if negb (skipExisting options) && signalExists id (db w) then
    let st := stats w in
    (Resolved,
     mkWorld (mkStats (scraped st) (skipped st + 1) (errors st) (notFound st))
             (db w) (net w))
  else
    match withRetry config (getSignalDetailsHtml server id)
            (retryAttempts config) (net w) with
    | (inl error, net1) => catchError id error (mkWorld (stats w) (db w) net1)
    | (inr None, net1) =>
        (Resolved, countNotFound id (mkWorld (stats w) (db w) net1))
    | (inr (Some html), net1) =>
        let w1 := mkWorld (stats w) (db w) net1 in
        if includes html Parser.s_not_registered
           || includes html Parser.s_invalid_number
        then (Resolved, countNotFound id w1)
        else
          match Parser.parse load now now html id with
          | None => (Resolved, countNotFound id w1)
          | Some signal =>
              let '(categoryId, subcategoryId) :=
                lookupCategoryIds (categoryName signal)
                  (subcategoryName signal) (db w1) in
              let signal' :=
                {| id := Types.id signal;
                   registrationNumber := registrationNumber signal;
                   registrationDate := registrationDate signal;
                   categoryId := categoryId;
                   categoryName := categoryName signal;
                   subcategoryId := subcategoryId;
                   subcategoryName := subcategoryName signal;
                   status := status signal;
                   statusDate := statusDate signal;
                   district := district signal;
                   neighborhood := neighborhood signal;
                   address := address signal;
                   latitude := latitude signal;
                   longitude := longitude signal;
                   description := description signal;
                   problemLocation := problemLocation signal;
                   hasDocuments := hasDocuments signal;
                   createdAt := createdAt signal;
                   updatedAt := updatedAt signal;
                   rawHtml := if saveHtml options then Some html
                              else rawHtml signal |} in
              let w2 := mkWorld (stats w1) (upsertSignal now signal' (db w1)) (net w1) in
              let w3 := if fetchExtras_ options then fetchExtras id w2 else w2 in
              let st := stats w3 in
              (Resolved,
               mkWorld (mkStats (scraped st + 1) (skipped st) (errors st) (notFound st))
                       (updateProgress now id 1 0 (db w3)) (net w3))
          end
    end.

(** Lines 76-85 of [run]: the start of the range after [--resume]. *)
Definition effectiveStart (d : DB) : Z :=
  if resume options then
    let progress := getProgress d in
    if 0 <? lastScrapedId progress
    then Z.max (start options) (lastScrapedId progress + 1)
    else start options
  else start options.

(** Lines 87-95 of [run]: the ids to scrape. *)
Definition idsToScrape (d : DB) : list Z :=
  let start := effectiveStart d in
  if skipExisting options then getMissingIds start (end_ options) d
  else seqZ start (end_ options - start + 1).

(** The items of one batch, [Promise.all] over [scrapeSignal] and the
    delay after it, taken one after the other, which is the order in which
    a concurrency of 1 runs them.  With a higher concurrency the requests
    of the items of a batch are sent in another order; the writes to the
    database are synchronous, each of them touches the row of its own id,
    the counters and the highest id of the progress row, and the
    statements made about [processIds] do not depend on their order. *)
Fixpoint processIds (ids : list Z) (w : World) : Completion * World :=
  match ids with
  | [] => (Resolved, w)
  | id :: ids' =>
      match scrapeSignal id w with
      | (Resolved, w1) =>
          processIds ids'
            (mkWorld (stats w1) (db w1) (sleep (delay options) (net w1)))
      | (Rejected, w1) => (Rejected, w1)
      | (Pending, w1) => (Pending, w1)
      end
  end.

(** The [for] loop of [run] over the batches, from the index [i] on, with
    [n] iterations left.  The loop ends when the index has passed the last
    id.  [run] gives it one iteration more than there are ids: a loop that
    is still running after them has an index that does not advance, and
    never ends. *)
Fixpoint batches (n : nat) (ids : list Z) (i : Z) (w : World)
  : Completion * World :=
  match n with
  | O => (Pending, w)
  | S n' =>
      if i <? Z.of_nat (length ids) then
        let batch := slice ids i (i + o_batchSize options) in
        match processIds batch w with
        | (Resolved, w1) => batches n' ids (i + o_batchSize options) w1
        | (Rejected, w1) => (Rejected, w1)
        | (Pending, w1) => (Pending, w1)
        end
      else (Resolved, w)
  end.

(** [run], from the planning of the range on (the connection test and
    the category sync before it touch neither [signals] nor
    [scrape_progress]).  [pLimit] throws for a concurrency that is not at
    least 1. *)
Definition run (w : World) : Completion * World :=
  let ids := idsToScrape (db w) in
  if (length ids =? 0)%nat then (Resolved, w)
  else if o_concurrency options <? 1 then (Rejected, w)
  else batches (S (length ids)) ids 0 w.

End Scraper.
(** [syncCategories]: the rows handed to [upsertCategories] and
    [upsertSubcategories].  A subcategory whose parent id is [NaN] is bound
    as [NULL] to a [NOT NULL] column, which makes the statement throw and
    the transaction roll back. *)
Definition categoryRow (cat : Category) : CategoryRow :=
  mkCategoryRow (cat_id cat) (cat_name cat) (cat_parentId cat).

Definition subcategoryRow (sub : Subcategory) : option SubcategoryRow :=
  match sub_parentCategoryId sub with
  | Some parent =>
      Some (mkSubcategoryRow (sub_id sub) (sub_name sub) (sub_fullName sub) parent)
  | None => None
  end.

Definition syncCategories (categoriesResponse subcategoriesResponse :
                             Response (list ApiItem)) (d : DB)
  : Completion * DB :=
  let categories := getCategories categoriesResponse in
  let d1 :=
    if (0 <? length categories)%nat
    then upsertCategories (categoryRow <$> categories) d else d in
  let subcategories := getSubcategories subcategoriesResponse in
  if (0 <? length subcategories)%nat then
    match mapM subcategoryRow subcategories with
    | Some rows => (Resolved, upsertSubcategories rows d1)
    | None => (Rejected, d1)
    end
  else (Resolved, d1).


Section Main.
Variable load : jsstring -> document.
Variable now : jsstring.
Variable server : Server.
Variable statusHistoryOf : Z -> list StatusHistoryEntry.
Variable clerkAnswersOf : Z -> list ClerkAnswer.
Variable options : ScrapeOptions.
Variable config : ScraperConfig.

End Main.

End Scraper.

(** ** [src/export.ts]: [DataExporter] *)

Module DataExporter.
Import JS Types.

(** [escapeCsv]; [None] is [null] or [undefined]. *)
Definition doubleQuotes (s : jsstring) : jsstring :=
  List.flat_map (fun c => if (c =? 34)%N then [34%N; 34%N] else [c]) s.

Definition escapeCsv (value : option jsstring) : jsstring :=
  match value with
  | None => []
  | Some str =>
      if includes str [44%N] || includes str [34%N] || includes str [10%N]
      then [34%N] ++ doubleQuotes str ++ [34%N]
      else str
  end.

(** [options.x] as a condition: set and not empty. *)
Definition given (o : option jsstring) : option jsstring :=
  match o with
  | Some s => if truthy_str s then Some s else None
  | None => None
  end.

(** [s.x === options.x] *)
Definition same (a : option jsstring) (b : jsstring) : bool :=
  match a with
  | Some s => str_eqb s b
  | None => false
  end.

(** The key [YYYY-MM-DD] of a date [DD.MM.YYYY ...]; [None] when the date
    has fewer than three parts. *)
Definition signalDate (registrationDate : jsstring) : option jsstring :=
  match split 32 registrationDate with
  | day :: _ =>
      match split 46 day with
      | d :: m :: y :: _ => Some (y ++ [45%N] ++ m ++ [45%N] ++ d)
      | _ => None
      end
  | [] => None
  end.

(** The date filter of [getFilteredSignals]. *)
Definition inDateRange (options : ExportOptions) (s : Signal) : bool :=
  match given (registrationDate s) with
  | None => false
  | Some date =>
      match signalDate date with
      | None => false
      | Some key =>
          let tooEarly :=
            match given (eo_startDate options) with
            | Some startDate => lt_str key startDate
            | None => false
            end in
          let tooLate :=
            match given (eo_endDate options) with
            | Some endDate => lt_str endDate key
            | None => false
            end in
          if tooEarly then false else if tooLate then false else true
      end
  end.

(** Lines 90-116 of [getFilteredSignals]: the filters applied to the rows
    the query returned. *)
Definition getFilteredSignals_filters (options : ExportOptions)
  (signals : list Signal) : list Signal :=
  let signals1 :=
    match given (eo_district options) with
    | Some d => List.filter (fun s => same (district s) d) signals
    | None => signals
    end in
  let signals2 :=
    match given (eo_status options) with
    | Some st => List.filter (fun s => same (status s) st) signals1
    | None => signals1
    end in
  match given (eo_startDate options), given (eo_endDate options) with
  | None, None => signals2
  | _, _ => List.filter (inDateRange options) signals2
  end.

End DataExporter.

(** ** Sample data

    Concrete records, databases and documents on which the statements
    below are evaluated. *)

Module Samples.
Import JS Types Cheerio Database Client Scraper.

Definition t0 : jsstring := Eval vm_compute in u "2025-12-19 10:00:00".
Definition t1 : jsstring := Eval vm_compute in u "2025-12-19 10:05:00".
Definition t2 : jsstring := Eval vm_compute in u "2025-12-20 08:30:00".

Definition mladost : jsstring := Eval vm_compute in u "район Младост".

(** A record with nothing extracted. *)
Definition blank (i : Z) (now : jsstring) : Signal :=
  {| id := i; registrationNumber := None; registrationDate := None;
     categoryId := None; categoryName := None; subcategoryId := None;
     subcategoryName := None; status := Some []; statusDate := None;
     district := None; neighborhood := None; address := None;
     latitude := None; longitude := None; description := None;
     problemLocation := None; hasDocuments := false;
     createdAt := now; updatedAt := now; rawHtml := None |}.

(** A signal registered on 19 December 2025, and the export of
    December 2025. *)
Definition date_19_12 : jsstring :=
  Eval vm_compute in u "19.12.2025 10:11:12".
Definition date_2025_12_01 : jsstring := Eval vm_compute in u "2025-12-01".
Definition date_2025_12_31 : jsstring := Eval vm_compute in u "2025-12-31".

Definition registered_19_12 : Signal :=
  {| id := 9; registrationNumber := None;
     registrationDate := Some date_19_12;
     categoryId := None; categoryName := None; subcategoryId := None;
     subcategoryName := None; status := Some []; statusDate := None;
     district := None; neighborhood := None; address := None;
     latitude := None; longitude := None; description := None;
     problemLocation := None; hasDocuments := false;
     createdAt := t0; updatedAt := t0; rawHtml := None |}.

Definition december_2025 : ExportOptions :=
  mkExportOptions None None (Some date_2025_12_01) (Some date_2025_12_31)
    None None false false.

(** Two writes of signal 1: the first carries a district and the raw
    page, the second carries neither. *)
Definition first_write : Signal :=
  {| id := 1; registrationNumber := None; registrationDate := None;
     categoryId := None; categoryName := None; subcategoryId := None;
     subcategoryName := None; status := Some []; statusDate := None;
     district := Some mladost; neighborhood := None; address := None;
     latitude := None; longitude := None; description := None;
     problemLocation := None; hasDocuments := false;
     createdAt := t1; updatedAt := t1; rawHtml := Some (u "<html>1</html>") |}.

Definition second_write : Signal := blank 1 t2.

(** The command line defaults, over the ids 1 to 10. *)
Definition options_1_10 (resume skipExisting : bool) : ScrapeOptions :=
  mkScrapeOptions 1 10 5 200 resume false skipExisting false 100.

(** A resumed run requested from id 0 to id 3. *)
Definition options_0_3 : ScrapeOptions :=
  mkScrapeOptions 0 3 5 200 true false false false 100.

Definition no_stats : Stats := mkStats 0 0 0 0.
Definition offline : Net := mkNet [] [].

(** A database that holds signal 5 while its checkpoint is still at 0. *)
Definition db_with_5 : DB := upsertSignal t0 (blank 5 t0) (initSchema t0).
Definition world_with_5 : World := mkWorld no_stats db_with_5 offline.

(** A database whose checkpoint is at 4, holding the signals 6 and 8. *)
Definition db_resumed : DB :=
  updateProgress t1 4 1 0
    (upsertSignal t0 (blank 8 t0) (upsertSignal t0 (blank 6 t0) (initSchema t0))).

(** An HTML parser that finds nothing, and a site without any signal. *)
Definition load_nothing : jsstring -> document := fun _ => [].
Definition server_404 : Server := fun _ _ => inr None.
(** A site that refuses every request. *)
Definition server_down : Server := fun _ _ => inl (mkError (u "ECONNRESET")).
Definition no_history : Z -> list StatusHistoryEntry := fun _ => [].
Definition no_answers : Z -> list ClerkAnswer := fun _ => [].

(** Documents. *)
Definition el (tag cls : string) (cs : list node) : node :=
  Elem (u tag) (if String.eqb cls "" then [] else [(u "class", u cls)]) cs.

Definition page (body : list node) : document :=
  [el "html" "" [el "head" "" []; el "body" "" body]].

(** A page in the layout of the site: one [.row] per field, the label
    first and the value in the [.col-md-10] column after it. *)
Definition field_row (field : jsstring * jsstring) : node :=
  el "div" "row"
    [ el "label" "" [Text (fst field)];
      el "div" "col-md-10" [Text (snd field)] ].

Definition fields_page (fields : list (jsstring * jsstring)) : document :=
  page (field_row <$> fields).

(** The label text inside a script and in a label with its value. *)
Definition doc_district : document :=
  page [ el "script" "" [Text (u "var columns = ['Район', 'Статус'];")];
         el "div" "row"
           [ el "label" "" [Text (u "Район")];
             el "div" "col-md-10" [Text (u " район Младост ")] ] ].

(** No label at all: the label text only occurs in a script of a row
    that also holds a value column. *)
Definition doc_script_only : document :=
  page [ el "div" "row"
           [ el "script" "" [Text (u "var columns = ['Район', 'Статус'];")];
             el "div" "col-md-10" [Text (u "Начало Сигнали Карта Вход")] ] ].

(** A label whose value column holds 1200 characters. *)
Definition long_value : jsstring := replicate 1200 1072%N.

Definition doc_long_value : document :=
  page [ el "div" "row"
           [ el "label" "" [Text (u "Район")];
             el "div" "col-md-10" [Text long_value] ] ].

(** Location rows: a bracketed pair, and a single bracketed number. *)
Definition pair_text : jsstring :=
  Eval vm_compute in u "Местоположение [42.123456,23.654321]".
Definition single_text : jsstring :=
  Eval vm_compute in u "Местоположение [42.123456]".

Definition doc_location (value : jsstring) : document :=
  page [ el "div" "row"
           [ el "label" "" [Text (u "Местоположение")];
             el "div" "col-md-10" [Text value] ] ].

(** A location row whose first number is a lone dot. *)
Definition partial_text : jsstring :=
  Eval vm_compute in u "Местоположение [., 23.5]".

Definition doc_pair : document := doc_location pair_text.
Definition doc_partial : document := doc_location partial_text.
Definition doc_single : document := doc_location single_text.

(** A page laid out as the site lays out a signal. *)
Definition doc_signal : document :=
  [el "html" ""
     [el "head" ""
        [Elem (u "meta")
           [(u "property", u "og:description"); (u "content", u "Дупка на велоалеята")]
           []];
      el "body" ""
        [el "div" "content-wrapper"
           [el "h3" "" [Text (u "Сигнал №536/ СОА18-КЦ01-28730/ 19.12.2025 10:11:12")];
            el "h4" ""
              [Text (u " Пътна инфраструктура / "); el "i" "" [Text (u "Велоалеи")]];
            Elem (u "p") [(u "id", u "statusIndicator"); (u "class", u "status_indicator")]
              [Text (u " Приключен ")];
            el "div" "row"
              [el "label" "" [Text (u "Район")];
               el "div" "col-md-10" [Text (u "район Младост")]];
            el "div" "row"
              [el "label" "" [Text (u "Местоположение")];
               el "div" "col-md-10" [Text pair_text]];
            Elem (u "a") [(u "href", u "/bg/Document/Get/12")] [Text (u "Снимка")]];
         el "script" "" [Text (u "var signal = { subcategoryId: 30271 };")]]]].

(** The page served for an id that does not exist. *)
Definition doc_not_found : document :=
  page [ el "div" "content-wrapper"
           [ el "h3" "" [Text (u "Няма регистриран сигнал с този номер")] ] ].

(** The page of a signal whose script holds a marker phrase as one of its
    messages: nothing of it is shown. *)
Definition doc_marker_in_script : document :=
  page [ el "div" "content-wrapper"
           [ el "h3" "" [Text (u "Сигнал №7/ СО14-КЦ-199/ 19.12.2025 10:11:12")] ];
         el "script" "" [Text (u "var notFound = 'Няма регистриран сигнал';")] ].

(** The history and the answers of signal 7, as the site returns them. *)
Definition history_7 : list StatusHistoryEntry :=
  [ mkStatusHistoryEntry 7 (u "Регистриран") (u "19.12.2025") None;
    mkStatusHistoryEntry 7 (u "Приключен") (u "20.12.2025") (Some (u "Отстранено")) ].

Definition answers_7 : list ClerkAnswer :=
  [ mkClerkAnswer 7 (Some (u "СОА18-КЦ01-28730")) (u "20.12.2025")
      (Some (u "Отстранено")) (Some (u "Район Младост")) ].

(** The two lists of the site: one category and one of its subcategories. *)
Definition api_categories : list ApiItem :=
  [ mkApiItem 3 (u "Пътна инфраструктура") ].

Definition api_subcategories : list ApiItem :=
  [ mkApiItem 30271 (u "Пътна инфраструктура-Проблеми с велосипедната инфраструктура") ].

(** A full name with more than one dash, and its two parts around the
    first dash. *)
Definition full_name : jsstring :=
  Eval vm_compute in u "Пътна инфраструктура - Дупки - улица".
Definition full_name_category : jsstring :=
  Eval vm_compute in u "Пътна инфраструктура ".
Definition full_name_rest : jsstring :=
  Eval vm_compute in u " Дупки - улица".

(** The database after the category sync of these two lists. *)
Definition db_synced : DB :=
  snd (syncCategories (inr api_categories) (inr api_subcategories)
         (initSchema t0)).

End Samples.

(** * Statements *)

(** ** Strings *)

Section StringFacts.
Import JS.

Lemma startsWith_prefix (s p : jsstring) :
  startsWith s p = true <-> p `prefix_of` s.
Proof.
  revert s. induction p as [|x p IH]; intros s; simpl.
  - destruct s; split; intros _; try reflexivity; apply prefix_nil.
  - destruct s as [|y s].
    + split; [done | intros [k Hk]; discriminate Hk].
    + simpl. rewrite andb_true_iff, IH. unfold unit_eqb. rewrite N.eqb_eq. split.
      * intros [-> Hp]. by apply prefix_cons.
      * intros [k Hk]. injection Hk as -> ->. split; [done | by exists k].
Qed.

Lemma startsWith_not_prefix (s p : jsstring) :
  startsWith s p = false <-> ~ p `prefix_of` s.
Proof.
  rewrite <- startsWith_prefix. destruct (startsWith s p); split; done.
Qed.

Lemma includes_infix (s p : jsstring) :
  includes s p = true <-> exists a b, s = a ++ p ++ b.
Proof.
  induction s as [|c s IH].
  - cbn [includes]. rewrite orb_false_r, startsWith_prefix. split.
    + intros [k ->]. by exists [], k.
    + intros (a & b & H). destruct a; [by exists b | discriminate H].
  - cbn [includes]. rewrite orb_true_iff, startsWith_prefix, IH. split.
    + intros [[k ->] | (a & b & ->)]; [by exists [], k | by exists (c :: a), b].
    + intros (a & b & H). destruct a as [|c' a].
      * left. exists b. exact H.
      * right. injection H as -> ->. by exists a, b.
Qed.

End StringFacts.

(** ** The client: parent categories and the retry wrapper *)

Section ClientFacts.
Import JS Client.

Lemma firstKnownParent_Some (idStr : jsstring) (parents : list Z) (p : Z) :
  firstKnownParent idStr parents = Some p <->
  exists before after,
    parents = before ++ p :: after
    /\ toString p `prefix_of` idStr
    /\ Forall (fun q => ~ toString q `prefix_of` idStr) before.
Proof.
  induction parents as [|q parents IH]; simpl.
  - split; [done | intros ([|??] & ? & H & _); discriminate H].
  - destruct (startsWith idStr (toString q)) eqn:Hq.
    + apply startsWith_prefix in Hq. split.
      * intros [= ->]. by exists [], parents.
      * intros ([|q' before] & after & H & Hp & Hb).
        -- by injection H as ->.
        -- injection H as -> _. apply Forall_cons in Hb as [Hb _]. done.
    + apply startsWith_not_prefix in Hq. rewrite IH. split.
      * intros (before & after & -> & Hp & Hb).
        exists (q :: before), after. by repeat split; [|constructor].
      * intros ([|q' before] & after & H & Hp & Hb).
        -- injection H as -> _. done.
        -- injection H as -> ->. apply Forall_cons in Hb as [_ Hb].
           by exists before, after.
Qed.

Lemma firstKnownParent_None (idStr : jsstring) (parents : list Z) :
  firstKnownParent idStr parents = None <->
  Forall (fun q => ~ toString q `prefix_of` idStr) parents.
Proof.
  induction parents as [|q parents IH]; simpl.
  - split; [constructor | done].
  - destruct (startsWith idStr (toString q)) eqn:Hq.
    + apply startsWith_prefix in Hq. split; [done |].
      intros H. apply Forall_cons in H as [H _]. done.
    + apply startsWith_not_prefix in Hq. rewrite IH. split.
      * by constructor.
      * intros H. by apply Forall_cons in H as [_ H].
Qed.

(** The decimal digits of a positive number start with a digit from 1 to
    9. *)
Lemma toString_pos_head (p : positive) :
  exists c rest,
    toString (Zpos p) = c :: rest /\ (49 <= c <= 57)%N.
Proof.
  simpl. pose proof (DecimalPos.Unsigned.to_uint_nonzero p) as Hnz.
  assert (Hnorm : Decimal.unorm (Pos.to_uint p) = Pos.to_uint p).
  { rewrite <- DecimalPos.Unsigned.to_of, DecimalPos.Unsigned.of_to. reflexivity. }
  destruct (Pos.to_uint p) as [|r|r|r|r|r|r|r|r|r|r] eqn:Hd; simpl;
    try (eexists _, _; split; [reflexivity | lia]).
  - simpl in Hnorm. discriminate Hnorm.
  - exfalso. unfold Decimal.unorm in Hnorm. simpl in Hnorm.
    destruct (Decimal.nzhead r) eqn:Hr; try discriminate Hnorm.
    + injection Hnorm as <-. by apply Hnz.
    + by apply DecimalFacts.nzhead_nonzero in Hr.
Qed.

Lemma digit_is_known_parent (c : N) :
  (49 <= c <= 57)%N ->
  exists d : Z, d ∈ knownParentIds /\ toString d = [c].
Proof.
  intros Hc.
  assert (H : (c = 49 \/ c = 50 \/ c = 51 \/ c = 52 \/ c = 53 \/ c = 54
               \/ c = 55 \/ c = 56 \/ c = 57)%N) by lia.
  unfold knownParentIds.
  destruct H as [-> | [-> | [-> | [-> | [-> | [-> | [-> | [-> | ->]]]]]]]];
    [exists 1 | exists 2 | exists 3 | exists 4 | exists 5 | exists 6
     | exists 7 | exists 8 | exists 9];
    (split; [apply list_elem_of_In; simpl; lia | reflexivity]).
Qed.

(** After the loop: the id is 0 or negative, and the result is the number
    written by the first two characters of its digits. *)
Lemma extractParentCategoryId_fallback (subcategoryId : Z) :
  Forall (fun q => ~ toString q `prefix_of` toString subcategoryId)
    knownParentIds ->
  subcategoryId <= 0
  /\ exists n,
       extractParentCategoryId subcategoryId = Some n
       /\ toString n = firstn 2 (toString subcategoryId).
Proof.
  intros Hf. destruct subcategoryId as [|p|p].
  - split; [lia |]. by exists 0.
  - exfalso. destruct (toString_pos_head p) as (c & rest & Hs & Hc).
    destruct (digit_is_known_parent c Hc) as (d & Hd & Hds).
    rewrite Forall_forall in Hf. destruct (Hf d Hd).
    rewrite Hds, Hs. by exists rest.
  - split; [lia |].
    destruct (toString_pos_head p) as (c & rest & Hs & Hc).
    assert (Hstr : toString (Z.neg p) = 45%N :: c :: rest)
      by (simpl in *; by rewrite Hs).
    unfold extractParentCategoryId. rewrite Hstr.
    assert (Hc' : (c = 49 \/ c = 50 \/ c = 51 \/ c = 52 \/ c = 53 \/ c = 54
                   \/ c = 55 \/ c = 56 \/ c = 57)%N) by lia.
    destruct Hc' as [-> | [-> | [-> | [-> | [-> | [-> | [-> | [-> | ->]]]]]]]];
      eexists; (split; [vm_compute; reflexivity | reflexivity]).
Qed.

(** C10: the derived parent category is the first known parent id, in the
    order of the list, whose decimal digits are a prefix of the digits of
    the subcategory id.  When no known id is a prefix, the id is 0 or
    negative and the result is the number written by the first two
    characters of the id: [parseInt] of the first two characters, or of
    the first one when that is [NaN] or zero.  Subcategory 30271 derives
    30, which stands before 3 in the list although both are prefixes; 0
    derives 0 and -57 derives -5. *)
Theorem extractParentCategoryId_first_known_prefix (subcategoryId : Z) :
  Z.abs subcategoryId < 10 ^ 21 ->
  let idStr := toString subcategoryId in
  knownParentIds = [33; 32; 30; 28; 27; 38; 40; 22; 11; 9; 8; 7; 6; 5; 4; 3; 2; 1]
  /\ (forall parentId before after,
        knownParentIds = before ++ parentId :: after ->
        toString parentId `prefix_of` idStr ->
        Forall (fun q => ~ toString q `prefix_of` idStr) before ->
        extractParentCategoryId subcategoryId = Some parentId)
  /\ (Forall (fun q => ~ toString q `prefix_of` idStr) knownParentIds ->
      subcategoryId <= 0
      /\ (exists n,
            extractParentCategoryId subcategoryId = Some n
            /\ toString n = firstn 2 idStr)
      /\ extractParentCategoryId subcategoryId
         = or_int (parseInt (substring0 idStr 2))
                  (parseInt (substring0 idStr 1)))
  /\ (extractParentCategoryId 30271 = Some 30
      /\ toString 30 `prefix_of` toString 30271
      /\ toString 3 `prefix_of` toString 30271)
  /\ extractParentCategoryId 0 = Some 0
  /\ extractParentCategoryId (-57) = Some (-5).
Proof.
  intros _ idStr. split; [reflexivity |]. split; [| split; [| split]].
  - intros parentId before after Hl Hp Hb. unfold extractParentCategoryId.
    fold idStr.
    assert (H : firstKnownParent idStr knownParentIds = Some parentId)
      by (apply firstKnownParent_Some; eauto).
    by rewrite H.
  - intros H.
    destruct (extractParentCategoryId_fallback subcategoryId H) as [Hle Hn].
    split; [exact Hle |]. split; [exact Hn |].
    apply firstKnownParent_None in H.
    unfold extractParentCategoryId. fold idStr. by rewrite H.
  - split; [reflexivity |].
    split; apply startsWith_prefix; reflexivity.
  - split; reflexivity.
Qed.

Lemma extractParentCategoryId_witness :
  Z.abs 280068 < 10 ^ 21 /\ extractParentCategoryId 280068 = Some 28.
Proof.
  split; [lia |].
  apply (proj1 (proj2 (extractParentCategoryId_first_known_prefix 280068
                         ltac:(lia))) 28 [33; 32; 30]
           [27; 38; 40; 22; 11; 9; 8; 7; 6; 5; 4; 3; 2; 1]).
  - reflexivity.
  - apply startsWith_prefix. reflexivity.
  - repeat constructor; apply startsWith_not_prefix; reflexivity.
Defined.

Section RetryFacts.
Context {E T : Type}.
Variable config : ScraperConfig.
Variable script : nat -> E + T.
Variable r : Request.

Lemma withRetry_loop_S (n : nat) (fn : action E T) (attempts i : Z)
  (lastError : option E) (net : Net) :
  withRetry_loop config (S n) fn attempts i lastError net
  = match fn net with
    | (inr v, net') => (inr v, net')
    | (inl error, net') =>
        withRetry_loop config n fn attempts (i + 1) (Some error)
          (if i <? attempts - 1
           then sleep (retryDelayMs config * (i + 1)) net' else net')
    end.
Proof. reflexivity. Qed.

(** [k] failures followed by a success, with iterations to spare. *)
Lemma withRetry_loop_success (k : nat) :
  forall (n i : nat) (attempts : Z) (lastError : option E) (net : Net) (v : T),
    (k < n)%nat ->
    attempts = Z.of_nat (i + n) ->
    (forall j, (j < k)%nat ->
       exists e, script (length (requests net) + j) = inl e) ->
    script (length (requests net) + k) = inr v ->
    withRetry_loop config n (scripted script r) attempts (Z.of_nat i)
      lastError net
    = (inr v,
       mkNet (requests net ++ replicate (S k) r)
             (slept net ++
              ((fun j => retryDelayMs config * Z.of_nat j) <$> seq (S i) k))).
Proof.
  induction k as [|k IH]; intros n i attempts lastError net v Hk Ha Hf Hv.
  - destruct n as [|n]; [lia |]. simpl. unfold scripted at 1.
    rewrite Nat.add_0_r in Hv. rewrite Hv. unfold send. simpl.
    by rewrite app_nil_r.
  - destruct n as [|n]; [lia |]. simpl. unfold scripted at 1.
    destruct (Hf 0%nat ltac:(lia)) as [e He]. rewrite Nat.add_0_r in He.
    rewrite He.
    assert (Hlt : (Z.of_nat i <? attempts - 1) = true)
      by (apply Z.ltb_lt; lia).
    rewrite Hlt.
    replace (Z.of_nat i + 1) with (Z.of_nat (S i)) by lia.
    rewrite (IH n (S i) attempts (Some e) _ v); simpl.
    + by rewrite <- !app_assoc.
    + lia.
    + lia.
    + intros j Hj. rewrite length_app. simpl.
      replace (length (requests net) + 1 + j)%nat
        with (length (requests net) + S j)%nat by lia.
      apply Hf. lia.
    + rewrite length_app. simpl.
      replace (length (requests net) + 1 + k)%nat
        with (length (requests net) + S k)%nat by lia.
      exact Hv.
Qed.

(** Every iteration left fails: the last failure is thrown, and no
    delay follows it. *)
Lemma withRetry_loop_exhausted (n : nat) :
  forall (i : nat) (attempts : Z) (lastError : option E) (net : Net) (e : E),
    attempts = Z.of_nat (i + S n) ->
    (forall j, (j <= n)%nat ->
       exists e', script (length (requests net) + j) = inl e') ->
    script (length (requests net) + n) = inl e ->
    withRetry_loop config (S n) (scripted script r) attempts (Z.of_nat i)
      lastError net
    = (inl (Some e),
       mkNet (requests net ++ replicate (S n) r)
             (slept net ++
              ((fun j => retryDelayMs config * Z.of_nat j) <$> seq (S i) n))).
Proof.
  induction n as [|n IH]; intros i attempts lastError net e Ha Hf He.
  - cbn [withRetry_loop]. unfold scripted. rewrite Nat.add_0_r in He.
    rewrite He.
    assert (Hlt : (Z.of_nat i <? attempts - 1) = false)
      by (apply Z.ltb_ge; lia).
    rewrite Hlt. unfold send. simpl. by rewrite app_nil_r.
  - rewrite withRetry_loop_S. unfold scripted at 1.
    destruct (Hf 0%nat ltac:(lia)) as [e0 He0]. rewrite Nat.add_0_r in He0.
    rewrite He0.
    assert (Hlt : (Z.of_nat i <? attempts - 1) = true)
      by (apply Z.ltb_lt; lia).
    rewrite Hlt.
    replace (Z.of_nat i + 1) with (Z.of_nat (S i)) by lia.
    rewrite (IH (S i) attempts (Some e0) _ e); simpl.
    + by rewrite <- !app_assoc.
    + lia.
    + intros j Hj. rewrite length_app. simpl.
      replace (length (requests net) + 1 + j)%nat
        with (length (requests net) + S j)%nat by lia.
      apply Hf. lia.
    + rewrite length_app. simpl.
      replace (length (requests net) + 1 + n)%nat
        with (length (requests net) + S n)%nat by lia.
      exact He.
Qed.
End RetryFacts.

(** C4: with at least one attempt allowed, the wrapper returns the value
    of the first attempt that succeeds, having waited [d * 1, ..., d * k]
    after the [k] failures before it; when all [n] attempts fail it throws
    the failure of the last one, having waited [d * 1, ..., d * (n - 1)]
    and nothing after the last failure.  Two failures and a success with
    three attempts give the value and exactly the waits [d * 1; d * 2]. *)
Theorem withRetry_linear_backoff {E T : Type} (config : ScraperConfig)
  (script : nat -> E + T) (r : Request) (n : nat) :
  (1 <= n)%nat ->
  let d := retryDelayMs config in
  let outcome :=
    withRetry config (scripted script r) (Z.of_nat n) (mkNet [] []) in
  (forall (k : nat) (v : T),
      (k < n)%nat ->
      (forall j, (j < k)%nat -> exists e, script j = inl e) ->
      script k = inr v ->
      outcome = (inr v, mkNet (replicate (S k) r) (delays d k)))
  /\ (forall e : E,
         (forall j, (j < n)%nat -> exists e', script j = inl e') ->
         script (n - 1)%nat = inl e ->
         outcome = (inl (Some e), mkNet (replicate n r) (delays d (n - 1))))
  /\ (forall (e1 e2 : E) (v : T),
         script 0%nat = inl e1 -> script 1%nat = inl e2 ->
         script 2%nat = inr v ->
         withRetry config (scripted script r) 3 (mkNet [] [])
         = (inr v, mkNet [r; r; r] [d * 1; d * 2])).
Proof.
  intros Hn d outcome. split; [| split].
  - intros k v Hk Hf Hv. unfold outcome, withRetry. rewrite Nat2Z.id.
    apply (withRetry_loop_success config script r k n 0 (Z.of_nat n) None
             (mkNet [] []) v); simpl; auto.
  - intros e Hf He. unfold outcome, withRetry. rewrite Nat2Z.id.
    destruct n as [|n]; [lia |].
    replace (S n - 1)%nat with n in * by lia.
    apply (withRetry_loop_exhausted config script r n 0 (Z.of_nat (S n)) None
             (mkNet [] []) e); simpl; auto.
    intros j Hj. apply Hf. lia.
  - intros e1 e2 v H0 H1 H2. unfold withRetry.
    change (Z.to_nat 3) with 3%nat.
    apply (withRetry_loop_success config script r 2 3 0 3 None
             (mkNet [] []) v); simpl; auto.
    intros [|[|j]] Hj; [eauto | eauto | lia].
Qed.

(** An action that fails twice and then succeeds. *)
Lemma withRetry_linear_backoff_witness :
  (1 <= 3)%nat
  /\ withRetry DEFAULT_CONFIG
       (scripted (fun k => if (k <? 2)%nat then inl k else inr true) (Details 7))
       3 (mkNet [] [])
     = (inr true, mkNet [Details 7; Details 7; Details 7] [1000; 2000]).
Proof.
  split; [lia |].
  apply (proj1 (withRetry_linear_backoff DEFAULT_CONFIG
                  (fun k => if (k <? 2)%nat then inl k else inr true)
                  (Details 7) 3 ltac:(lia)) 2%nat true).
  - lia.
  - intros [|[|j]] Hj; [by exists 0%nat | by exists 1%nat | lia].
  - reflexivity.
Defined.
End ClientFacts.


(** ** The database: missing ids, upsert and progress *)

Section DatabaseFacts.
Import JS Types Database.

Lemma elem_of_existingIds (start end_ i : Z) (db : DB) :
  i ∈ existingIds start end_ db <->
  (start <= i <= end_) /\ is_Some (signals db !! i).
Proof.
  unfold existingIds. rewrite elem_of_list_to_set, list_elem_of_fmap. split.
  - intros ([k row] & -> & Hin). apply list_elem_of_In, filter_In in Hin.
    destruct Hin as [Hin Hb]. apply list_elem_of_In, elem_of_map_to_list in Hin.
    simpl in *. apply andb_true_iff in Hb as [H1 H2].
    split; [lia | by exists row].
  - intros [Hr [row Hrow]]. exists (i, row). split; [done |].
    apply list_elem_of_In, filter_In. split.
    + by apply list_elem_of_In, elem_of_map_to_list.
    + simpl. apply andb_true_iff. split; lia.
Qed.

Lemma missing_loop_filter (n : nat) (i : Z) (existing : gset Z) :
  missing_loop n i existing
  = List.filter (fun j => negb (bool_decide (j ∈ existing)))
      (seqZ i (Z.of_nat n)).
Proof.
  revert i. induction n as [|n IH]; intros i; [done |].
  rewrite seqZ_cons by lia.
  replace (Z.pred (Z.of_nat (S n))) with (Z.of_nat n) by lia.
  cbn [missing_loop List.filter]. rewrite IH.
  replace (Z.succ i) with (i + 1) by lia.
  by destruct (bool_decide (i ∈ existing)).
Qed.


Lemma getMissingIds_filter (start end_ : Z) (db : DB) :
  getMissingIds start end_ db
  = List.filter (fun i => negb (signalExists i db))
      (seqZ start (end_ - start + 1)).
Proof.
  unfold getMissingIds. rewrite missing_loop_filter.
  assert (Hs : seqZ start (Z.of_nat (Z.to_nat (end_ - start + 1)))
               = seqZ start (end_ - start + 1))
    by (unfold seqZ; by rewrite Nat2Z.id).
  rewrite Hs. apply filter_ext_in. intros i Hi.
  apply list_elem_of_In, elem_of_seqZ in Hi. f_equal.
  unfold signalExists. destruct (signals db !! i) as [row|] eqn:Hrow.
  - apply bool_decide_eq_true. apply elem_of_existingIds.
    split; [lia | by exists row].
  - apply bool_decide_eq_false. rewrite elem_of_existingIds.
    intros [_ [row Hr]]. congruence.
Qed.

Lemma elem_of_getMissingIds (start end_ i : Z) (db : DB) :
  i ∈ getMissingIds start end_ db <->
  (start <= i <= end_) /\ signals db !! i = None.
Proof.
  rewrite getMissingIds_filter, list_elem_of_In, filter_In, <- list_elem_of_In,
    elem_of_seqZ.
  unfold signalExists. destruct (signals db !! i); simpl; split.
  - intros [_ H]. discriminate H.
  - intros [_ H]. discriminate H.
  - intros [H _]. split; [lia | done].
  - intros [H _]. split; [lia | done].
Qed.

(** What [updateProgress] leaves alone. *)
Lemma updateProgress_signals now lastId a b (db : DB) :
  signals (updateProgress now lastId a b db) = signals db.
Proof. reflexivity. Qed.

Lemma upsertSignal_progress now signal (db : DB) :
  scrape_progress (upsertSignal now signal db) = scrape_progress db.
Proof. unfold upsertSignal. by destruct (signals db !! id signal). Qed.

Lemma upsertSignal_lookup_other now signal (db : DB) (j : Z) :
  j <> id signal ->
  signals (upsertSignal now signal db) !! j = signals db !! j.
Proof.
  intros Hj. unfold upsertSignal.
  destruct (signals db !! id signal); simpl; by rewrite lookup_insert_ne.
Qed.

Lemma upsertSignal_lookup_new now signal (db : DB) :
  signals db !! id signal = None ->
  signals (upsertSignal now signal db) !! id signal = Some (excluded now signal)
  /\ size (signals (upsertSignal now signal db)) = S (size (signals db)).
Proof.
  intros H. unfold upsertSignal. rewrite H. simpl.
  by rewrite lookup_insert_eq, map_size_insert_None.
Qed.

Lemma upsertSignal_lookup_existing now signal (db : DB) (old : SignalRow) :
  signals db !! id signal = Some old ->
  signals (upsertSignal now signal db) !! id signal
  = Some (do_update now old (excluded now signal))
  /\ size (signals (upsertSignal now signal db)) = size (signals db).
Proof.
  intros H. unfold upsertSignal. rewrite H. simpl.
  rewrite lookup_insert_eq. split; [done |].
  by eapply map_size_insert_Some.
Qed.

(** Reading the progress row after [updateProgress]. *)
Lemma getProgress_updateProgress now lastId a b (db : DB) :
  getProgress (updateProgress now lastId a b db)
  = {| lastScrapedId := Z.max (lastScrapedId (scrape_progress db)) lastId;
       totalScraped := totalScraped (scrape_progress db) + a;
       totalErrors := totalErrors (scrape_progress db) + b;
       startedAt := startedAt (scrape_progress db);
       lastUpdatedAt := now |}.
Proof. reflexivity. Qed.

(** C1, as the code has it: upserting a record whose id is stored
    rewrites that one row in place.  Every extracted column takes the
    value of the new record, also when that value is null; only
    [raw_html] keeps the stored value when the new record carries none;
    [created_at] is kept and [updated_at] is refreshed.  After a second
    upsert of the same id there is still exactly one row for it (the
    number of rows does not change and the other rows are untouched). *)
Theorem upsertSignal_overwrites_all_but_raw_html :
  forall (now1 now2 : jsstring) (first second : Signal) (db : DB),
    id second = id first ->
    let db1 := upsertSignal now1 first db in
    let db2 := upsertSignal now2 second db1 in
    exists stored1 stored2 : SignalRow,
      signals db1 !! id first = Some stored1
      /\ signals db2 !! id first = Some stored2
      /\ size (signals db2) = size (signals db1)
      /\ (forall j, j <> id first -> signals db2 !! j = signals db1 !! j)
      /\ registration_number stored2 = registrationNumber second
      /\ registration_date stored2 = registrationDate second
      /\ category_id stored2 = categoryId second
      /\ category_name stored2 = categoryName second
      /\ subcategory_id stored2 = subcategoryId second
      /\ subcategory_name stored2 = subcategoryName second
      /\ r_status stored2 = status second
      /\ status_date stored2 = statusDate second
      /\ r_district stored2 = district second
      /\ r_neighborhood stored2 = neighborhood second
      /\ r_address stored2 = address second
      /\ r_latitude stored2 = bind_real (latitude second)
      /\ r_longitude stored2 = bind_real (longitude second)
      /\ r_description stored2 = description second
      /\ problem_location stored2 = problemLocation second
      /\ has_documents stored2 = (if hasDocuments second then 1 else 0)
      /\ raw_html stored2
         = match rawHtml second with
           | Some html => Some html
           | None => raw_html stored1
           end
      /\ created_at stored2 = created_at stored1
      /\ updated_at stored2 = Some now2.
Proof.
  intros now1 now2 first second db Hid db1 db2.
  assert (H1 : exists stored1, signals db1 !! id first = Some stored1).
  { unfold db1. destruct (signals db !! id first) as [old|] eqn:Hold.
    - destruct (upsertSignal_lookup_existing now1 first db old Hold) as [-> _].
      by eexists.
    - destruct (upsertSignal_lookup_new now1 first db Hold) as [-> _].
      by eexists. }
  destruct H1 as [stored1 H1]. rewrite <- Hid in H1.
  destruct (upsertSignal_lookup_existing now2 second db1 stored1 H1)
    as [H2 Hsize].
  exists stored1, (do_update now2 stored1 (excluded now2 second)).
  rewrite Hid in H1, H2. fold db2 in H2, Hsize.
  split; [exact H1 |]. split; [exact H2 |]. split; [exact Hsize |].
  split.
  { intros j Hj. unfold db2. apply upsertSignal_lookup_other. by rewrite Hid. }
  simpl. repeat split; try reflexivity.
  by destruct (rawHtml second).
Qed.

Lemma upsertSignal_overwrites_witness :
  id Samples.second_write = id Samples.first_write
  /\ exists stored2 : SignalRow,
       signals (upsertSignal Samples.t2 Samples.second_write
                  (upsertSignal Samples.t1 Samples.first_write
                     (initSchema Samples.t0))) !! 1 = Some stored2
       /\ r_district stored2 = None
       /\ raw_html stored2 = Some (u "<html>1</html>").
Proof.
  split; [reflexivity |].
  destruct (upsertSignal_overwrites_all_but_raw_html Samples.t1 Samples.t2
              Samples.first_write Samples.second_write
              (initSchema Samples.t0) eq_refl)
    as (stored1 & stored2 & H1 & H2 & _ & _ & _ & _ & _ & _ & _ & _ & _ & _
        & Hd & _ & _ & _ & _ & _ & _ & _ & Hraw & _).
  exists stored2. split; [exact H2 |]. split; [exact Hd |].
  rewrite Hraw. simpl.
  destruct (upsertSignal_lookup_new Samples.t1 Samples.first_write
              (initSchema Samples.t0) (lookup_empty _)) as [H1' _].
  simpl in H1, H1'. rewrite H1' in H1. by injection H1 as <-.
Defined.

(** C1 as stated fails: a null district in the new record replaces the
    stored district. *)
Lemma upsertSignal_null_clobbers_district :
  let db1 := upsertSignal Samples.t1 Samples.first_write (initSchema Samples.t0) in
  let db2 := upsertSignal Samples.t2 Samples.second_write db1 in
  district Samples.second_write = None
  /\ r_district <$> signals db1 !! 1 = Some (Some Samples.mladost)
  /\ r_district <$> signals db2 !! 1 = Some None
  /\ ~ (forall (now : jsstring) (signal : Signal) (db : DB) (old new : SignalRow),
          signals db !! id signal = Some old ->
          signals (upsertSignal now signal db) !! id signal = Some new ->
          district signal = None ->
          r_district old <> None ->
          r_district new = r_district old).
Proof.
  intros db1 db2.
  destruct (upsertSignal_lookup_new Samples.t1 Samples.first_write
              (initSchema Samples.t0) (lookup_empty _)) as [H1 _].
  fold db1 in H1. change (id Samples.first_write) with 1 in H1.
  destruct (upsertSignal_lookup_existing Samples.t2 Samples.second_write
              db1 _ H1) as [H2 _].
  fold db2 in H2. change (id Samples.second_write) with 1 in H2.
  split; [reflexivity |]. split; [by rewrite H1 |]. split; [by rewrite H2 |].
  intros H.
  specialize (H Samples.t2 Samples.second_write db1 _ _ H1 H2 eq_refl).
  simpl in H. discriminate H. discriminate.
Qed.

End DatabaseFacts.


(** ** The scraper: planning the ids and processing one id *)

Section ScraperFacts.
Import JS Types Cheerio Database Client Scraper.

Lemma effectiveStart_ge (o : ScrapeOptions) (d : DB) :
  start o <= effectiveStart o d.
Proof.
  unfold effectiveStart. destruct (resume o); [| lia].
  destruct (0 <? lastScrapedId (getProgress d)); lia.
Qed.

Lemma elem_of_idsToScrape (o : ScrapeOptions) (d : DB) (i : Z) :
  i ∈ idsToScrape o d <->
  (effectiveStart o d <= i <= end_ o)
  /\ (skipExisting o = true -> signals d !! i = None).
Proof.
  unfold idsToScrape. destruct (skipExisting o).
  - rewrite elem_of_getMissingIds. split.
    + intros [H1 H2]. split; [lia | done].
    + intros [H1 H2]. split; [lia | by apply H2].
  - rewrite elem_of_seqZ. split.
    + intros H. split; [lia | done].
    + intros [H _]. lia.
Qed.



(** C6, as the code has it: under resume the effective start is the
    larger of the requested start and the id after the checkpoint once the
    checkpoint has moved off 0, and the requested start while it is still
    at 0; for a requested start of at least 1 that is
    [max start (lastScrapedId + 1)] whatever the checkpoint holds.  Every
    id planned under resume is planned by the run without resume over the
    same bounds and the same other options. *)
Theorem resume_ids_subset_fresh_ids :
  forall (start end_ concurrency delay : Z)
         (saveHtml skipExisting fetchExtras : bool) (batchSize : Z) (d : DB),
    let o := fun resume =>
      mkScrapeOptions start end_ concurrency delay resume saveHtml
        skipExisting fetchExtras batchSize in
    let checkpoint := lastScrapedId (getProgress d) in
    effectiveStart (o true) d
    = (if 0 <? checkpoint then Z.max start (checkpoint + 1) else start)
    /\ (1 <= start ->
        effectiveStart (o true) d = Z.max start (checkpoint + 1))
    /\ effectiveStart (o false) d = start
    /\ (forall i, i ∈ idsToScrape (o true) d -> i ∈ idsToScrape (o false) d).
Proof.
  intros start end_ concurrency delay saveHtml skipExisting fetchExtras
    batchSize d o checkpoint.
  split; [reflexivity |]. split; [| split].
  - intros Hstart. unfold effectiveStart. simpl. fold checkpoint.
    destruct (0 <? checkpoint) eqn:Hp; [done |].
    apply Z.ltb_ge in Hp. lia.
  - reflexivity.
  - intros i. rewrite !elem_of_idsToScrape.
    pose proof (effectiveStart_ge (o true) d) as Hge.
    change (Scraper.start (o true)) with start in Hge.
    change (effectiveStart (o false) d) with start.
    change (Scraper.end_ (o true)) with end_.
    change (Scraper.end_ (o false)) with end_.
    change (Scraper.skipExisting (o true)) with skipExisting.
    change (Scraper.skipExisting (o false)) with skipExisting.
    intros [H1 H2]. split; [lia | done].
Qed.

Lemma resume_ids_subset_witness :
  1 <= 1
  /\ effectiveStart (Samples.options_1_10 true false) Samples.db_resumed = 5
  /\ idsToScrape (Samples.options_1_10 true false) Samples.db_resumed
     = [5; 6; 7; 8; 9; 10]
  /\ idsToScrape (Samples.options_1_10 false false) Samples.db_resumed
     = [1; 2; 3; 4; 5; 6; 7; 8; 9; 10].
Proof.
  split; [lia |].
  split.
  - refine (eq_trans (proj1 (proj2 (resume_ids_subset_fresh_ids 1 10 5 200
                                      false false false 100
                                      Samples.db_resumed)) ltac:(lia)) _).
    reflexivity.
  - split; reflexivity.
Defined.

(** C6 as stated fails while the checkpoint is at 0: a resumed run
    requested from id 0 on a fresh database starts at 0, not at
    [max 0 (0 + 1)], and plans id 0. *)
Lemma resume_with_fresh_checkpoint_keeps_start :
  let d := initSchema Samples.t0 in
  resume Samples.options_0_3 = true
  /\ start Samples.options_0_3 = 0
  /\ lastScrapedId (getProgress d) = 0
  /\ effectiveStart Samples.options_0_3 d = 0
  /\ Z.max (start Samples.options_0_3) (lastScrapedId (getProgress d) + 1) = 1
  /\ idsToScrape Samples.options_0_3 d = [0; 1; 2; 3]
  /\ effectiveStart Samples.options_0_3 d
     <> Z.max (start Samples.options_0_3) (lastScrapedId (getProgress d) + 1).
Proof. vm_compute. repeat split; discriminate. Qed.

Lemma insertStatusHistory_progress entries (d : DB) :
  scrape_progress (insertStatusHistory entries d) = scrape_progress d.
Proof. by destruct entries. Qed.

Lemma insertClerkAnswers_progress answers (d : DB) :
  scrape_progress (insertClerkAnswers answers d) = scrape_progress d.
Proof. by destruct answers. Qed.

Lemma fetchExtras_progress statusHistoryOf clerkAnswersOf id (w : World) :
  scrape_progress (db (fetchExtras statusHistoryOf clerkAnswersOf id w))
  = scrape_progress (db w).
Proof.
  unfold fetchExtras. simpl.
  destruct (0 <? length (clerkAnswersOf id))%nat;
    destruct (0 <? length (statusHistoryOf id))%nat;
    by rewrite ?insertClerkAnswers_progress, ?insertStatusHistory_progress.
Qed.

(** C2, as the code has it: an id that is scraped, not found or in error
    updates the progress row exactly once, by [updateProgress(id, 1, 0)],
    [(id, 0, 0)] and [(id, 0, 1)] respectively, next to its own counter
    of the run; an id skipped because it is stored only adds one to the
    skipped counter of the run and leaves the database, the progress row
    included, as it was.  [updateProgress] stores the maximum of the old
    watermark and the id it is given, so it never lowers the watermark. *)
Theorem scrapeSignal_progress_by_outcome :
  forall load now server statusHistoryOf clerkAnswersOf options config
         (id : Z) (w : World),
    let w' := snd (scrapeSignal load now server statusHistoryOf
                     clerkAnswersOf options config id w) in
    let st := stats w in
    let p := getProgress (db w) in
    let p' := getProgress (db w') in
    let once a b :=
      {| lastScrapedId := Z.max (lastScrapedId p) id;
         totalScraped := totalScraped p + a;
         totalErrors := totalErrors p + b;
         startedAt := startedAt p;
         lastUpdatedAt := now |} in
    let stored := negb (skipExisting options) && signalExists id (db w) in
    ((stored = true
      /\ stats w' = mkStats (scraped st) (skipped st + 1) (errors st) (notFound st)
      /\ db w' = db w)
     \/ (stored = false
         /\ stats w' = mkStats (scraped st + 1) (skipped st) (errors st) (notFound st)
         /\ p' = once 1 0)
     \/ (stored = false
         /\ stats w' = mkStats (scraped st) (skipped st) (errors st) (notFound st + 1)
         /\ p' = once 0 0)
     \/ (stored = false
         /\ stats w' = mkStats (scraped st) (skipped st) (errors st + 1) (notFound st)
         /\ p' = once 0 1))
    /\ (forall (lastId a b : Z) (d : DB),
           let q := getProgress d in
           let q' := getProgress (updateProgress now lastId a b d) in
           lastScrapedId q' = Z.max (lastScrapedId q) lastId
           /\ lastScrapedId q <= lastScrapedId q'
           /\ (lastId < lastScrapedId q -> lastScrapedId q' = lastScrapedId q)
           /\ totalScraped q' = totalScraped q + a
           /\ totalErrors q' = totalErrors q + b).
Proof.
  intros load now server sh ca options config id w w' st p p' once stored.
  split.
  - unfold p', w', scrapeSignal. clear p' w'. fold stored. destruct stored.
    + left. by repeat split.
    + right.
      destruct (withRetry config (getSignalDetailsHtml server id)
                  (retryAttempts config) (net w)) as [[error | [html |]] net1].
      * right; right. split; [done |].
        unfold catchError. by destruct error.
      * destruct (includes html Parser.s_not_registered
                  || includes html Parser.s_invalid_number).
        { right; left. by repeat split. }
        destruct (Parser.parse load now now html id) as [signal |].
        -- destruct (lookupCategoryIds _ _ _) as [categoryId subcategoryId].
           left. split; [done |].
           destruct (fetchExtras_ options); cbn [snd stats db].
           ++ split; [done |]. rewrite getProgress_updateProgress.
              rewrite fetchExtras_progress. cbn [db].
              by rewrite upsertSignal_progress.
           ++ split; [done |]. rewrite getProgress_updateProgress.
              by rewrite upsertSignal_progress.
        -- right; left. by repeat split.
      * right; left. by repeat split.
  - intros lastId a b d q q'. unfold q', q.
    rewrite getProgress_updateProgress. simpl. unfold getProgress.
    repeat split; lia.
Qed.

(** A smaller id handed to [updateProgress] leaves the watermark at 4. *)
Lemma scrapeSignal_progress_witness :
  3 < lastScrapedId (getProgress Samples.db_resumed)
  /\ lastScrapedId
       (getProgress (updateProgress Samples.t2 3 0 0 Samples.db_resumed)) = 4.
Proof.
  split; [reflexivity |].
  refine (eq_trans
            (proj1 (proj2 (proj2
               (proj2 (scrapeSignal_progress_by_outcome Samples.load_nothing
                         Samples.t2 Samples.server_404 Samples.no_history
                         Samples.no_answers (Samples.options_1_10 false false)
                         DEFAULT_CONFIG 5 Samples.world_with_5)
                      3 0 0 Samples.db_resumed))) _) _);
    reflexivity.
Defined.

(** C2 as stated fails for the skipped outcome: with signal 5 stored and
    the checkpoint at 0, processing id 5 counts it as skipped and leaves
    the progress row as it was, watermark and time stamp included. *)
Lemma skipped_id_leaves_progress_untouched :
  let w' := snd (scrapeSignal Samples.load_nothing Samples.t1
                   Samples.server_404 Samples.no_history Samples.no_answers
                   (Samples.options_1_10 false false) DEFAULT_CONFIG 5
                   Samples.world_with_5) in
  stats w' = mkStats 0 1 0 0
  /\ getProgress (db Samples.world_with_5)
     = mkScrapeProgress 0 0 0 Samples.t0 Samples.t0
  /\ getProgress (db w') = mkScrapeProgress 0 0 0 Samples.t0 Samples.t0
  /\ lastScrapedId (getProgress (db w'))
     <> Z.max (lastScrapedId (getProgress (db Samples.world_with_5))) 5.
Proof. vm_compute. repeat split; discriminate. Qed.

(** C8: an id that has a row, processed without skip-existing, is counted
    as skipped and nothing else happens: no request is sent, no delay is
    waited, the scraped counter and the database stay as they were.  (The
    code has no flag that forces a re-fetch.) *)
Theorem stored_id_is_skipped_without_fetch :
  forall load now server statusHistoryOf clerkAnswersOf options config
         (id : Z) (w : World),
    signalExists id (db w) = true ->
    skipExisting options = false ->
    let r := scrapeSignal load now server statusHistoryOf clerkAnswersOf
               options config id w in
    let st := stats w in
    r = (Resolved,
         mkWorld (mkStats (scraped st) (skipped st + 1) (errors st) (notFound st))
                 (db w) (net w))
    /\ requests (net (snd r)) = requests (net w)
    /\ slept (net (snd r)) = slept (net w)
    /\ skipped (stats (snd r)) = skipped (stats w) + 1
    /\ scraped (stats (snd r)) = scraped (stats w).
Proof.
  intros load now server sh ca options config id w Hex Hskip r st.
  assert (Hr : r = (Resolved,
                    mkWorld (mkStats (scraped st) (skipped st + 1) (errors st)
                               (notFound st)) (db w) (net w))).
  { unfold r, scrapeSignal. by rewrite Hex, Hskip. }
  rewrite Hr. by repeat split.
Qed.

Lemma stored_id_is_skipped_witness :
  signalExists 5 (db Samples.world_with_5) = true
  /\ skipExisting (Samples.options_1_10 false false) = false
  /\ scrapeSignal Samples.load_nothing Samples.t1 Samples.server_404
       Samples.no_history Samples.no_answers
       (Samples.options_1_10 false false) DEFAULT_CONFIG 5
       Samples.world_with_5
     = (Resolved, mkWorld (mkStats 0 1 0 0) Samples.db_with_5 Samples.offline).
Proof.
  split; [reflexivity |]. split; [reflexivity |].
  exact (proj1 (stored_id_is_skipped_without_fetch Samples.load_nothing
                  Samples.t1 Samples.server_404 Samples.no_history
                  Samples.no_answers (Samples.options_1_10 false false)
                  DEFAULT_CONFIG 5 Samples.world_with_5 eq_refl eq_refl)).
Defined.

End ScraperFacts.


(** ** The parser *)

Section ParserFacts.
Import JS Regex Cheerio Types Parser.

(** Both coordinates are assigned together, at either of the two
    places that assign them. *)
Lemma parse_coordinates_paired (locationText : option jsstring)
  (scriptContent : jsstring) :
  fst (parse_coordinates locationText scriptContent) = None
  <-> snd (parse_coordinates locationText scriptContent) = None.
Proof.
  unfold parse_coordinates.
  destruct locationText as [txt|]; [destruct (truthy_str txt);
    [destruct (match_ txt coord_re) |] |];
    match goal with
    | |- context [if ?c then _ else _] => destruct c
    end;
    try destruct (match_ scriptContent map_re); simpl; split; congruence.
Qed.

Lemma parseDocument_Some (now now' : jsstring) (dom : document)
  (signalId : Z) (signal : Signal) :
  parseDocument now now' dom signalId = Some signal ->
  id signal = signalId
  /\ latitude signal
     = fst (parse_coordinates (locationText dom) (text (select dom sel_script)))
  /\ longitude signal
     = snd (parse_coordinates (locationText dom) (text (select dom sel_script))).
Proof.
  unfold parseDocument.
  destruct (includes _ s_not_registered || includes _ s_invalid_number);
    [discriminate |].
  destruct (parse_category dom) as [categoryName subcategoryName].
  destruct (parse_coordinates _ _) as [latitude longitude].
  by intros [= <-].
Qed.

Lemma parse_coordinates_pair_text (scriptContent : jsstring) :
  parse_coordinates (Some Samples.pair_text) scriptContent
  = (Some (Dec 42.123456), Some (Dec 23.654321)).
Proof. vm_compute. reflexivity. Qed.

Lemma parse_coordinates_single_text (scriptContent : jsstring) :
  match_ scriptContent map_re = None ->
  parse_coordinates (Some Samples.single_text) scriptContent = (None, None).
Proof.
  intros H. unfold parse_coordinates.
  replace (match_ Samples.single_text coord_re) with (@None result)
    by (vm_compute; reflexivity).
  cbn [truthy_str Samples.single_text truthy_num negb orb]. by rewrite H.
Qed.

(** The model on a page laid out as the site lays out a signal. *)
Example parseDocument_signal_page :
  parseDocument Samples.t0 Samples.t1 Samples.doc_signal 536
  = Some {| id := 536;
            registrationNumber := Some (u "СОА18-КЦ01-28730");
            registrationDate := Some (u "19.12.2025 10:11:12");
            categoryId := Some 30271;
            categoryName := Some (u "Пътна инфраструктура");
            subcategoryId := Some 30271;
            subcategoryName := Some (u "Велоалеи");
            status := Some (u "Приключен");
            statusDate := Some (u "19.12.2025 10:11:12");
            district := Some Samples.mladost;
            neighborhood := None; address := None;
            latitude := Some (Dec 42.123456);
            longitude := Some (Dec 23.654321);
            description := Some (u "Дупка на велоалеята");
            problemLocation := None; hasDocuments := true;
            createdAt := Samples.t0; updatedAt := Samples.t1;
            rawHtml := None |}.
Proof. vm_compute. reflexivity. Qed.

(** The registration number pattern backtracks over its optional digits. *)
Example parse_registrationNumber_backtracks :
  parse_registrationNumber (u "Сигнал №1/ СО14-КЦ-199/ x") = Some (u "СО14-КЦ-199")
  /\ parse_registrationNumber (u "СО14-КЦ19") = Some (u "СО14-КЦ19")
  /\ parse_registrationNumber (u "СО14-КЦ1") = Some (u "СО14-КЦ1")
  /\ parse_registrationNumber (u "СО14-КЦ") = None.
Proof. vm_compute. repeat split. Qed.

(** A token of dots parses to [NaN]; a zero is replaced from the scripts. *)
Example parse_coordinates_dots :
  parse_coordinates (Some (u "[., 23.5]")) [] = (Some NaN, Some (Dec 23.5))
  /\ parse_coordinates (Some (u "[0, 23.5]")) (u "map([42.7, 23.3])")
     = (Some (Dec 42.7), Some (Dec 23.3)).
Proof. vm_compute. repeat split. Qed.

(** C7 on the code: the two coordinates are assigned together, so one is
    null exactly when the other is, and the two examples of the location
    row come out as described: the pair gives 42.123456 and 23.654321, a
    single bracketed number gives nothing.  But a coordinate can be [NaN],
    which the code itself takes for missing: on the location row
    [Местоположение [., 23.5]] the record has the latitude [NaN] beside the
    longitude 23.5, the look into the scripts finds nothing to replace them
    with, and the row that is stored has no latitude and the longitude
    23.5. *)
Theorem parse_coordinates_partial_pair :
  (forall (now now' : jsstring) (dom : document) (signalId : Z)
          (signal : Signal),
      parseDocument now now' dom signalId = Some signal ->
      (latitude signal = None <-> longitude signal = None))
  /\ (exists signal,
        parseDocument Samples.t0 Samples.t1 Samples.doc_pair 7 = Some signal
        /\ latitude signal = Some (Dec 42.123456)
        /\ longitude signal = Some (Dec 23.654321))
  /\ (exists signal,
        parseDocument Samples.t0 Samples.t1 Samples.doc_single 7 = Some signal
        /\ latitude signal = None /\ longitude signal = None)
  /\ (exists signal,
        locationText Samples.doc_partial = Some Samples.partial_text
        /\ parseDocument Samples.t0 Samples.t1 Samples.doc_partial 7
           = Some signal
        /\ latitude signal = Some NaN
        /\ longitude signal = Some (Dec 23.5)
        /\ truthy_num (latitude signal) = false
        /\ truthy_num (longitude signal) = true
        /\ (let stored :=
              Database.getSignal 7
                (Database.upsertSignal Samples.t2 signal
                   (Database.initSchema Samples.t0)) in
            latitude <$> stored = Some None
            /\ longitude <$> stored = Some (Some (Dec 23.5)))).
Proof.
  split; [| split; [| split]].
  - intros now now' dom signalId signal H.
    destruct (parseDocument_Some now now' dom signalId signal H) as (_ & -> & ->).
    apply parse_coordinates_paired.
  - eexists. split; [vm_compute; reflexivity |]. by split.
  - eexists. split; [vm_compute; reflexivity |]. by split.
  - eexists. split; [vm_compute; reflexivity |].
    split; [vm_compute; reflexivity |]. vm_compute. by repeat split.
Qed.

(** C9, as the code has it: [parse] returns [null] exactly when the text
    of the body, the content of its scripts and styles included, contains
    one of the two marker phrases; for every other document it returns a
    record carrying the id it was given.  Nothing in between can fail: on
    a document without any element every extracted field is absent (the
    status is the empty string, the document flag is false), and a field
    that is present is extracted while the others stay absent. *)
Theorem parse_null_iff_marker_in_body :
  forall (load : jsstring -> document) (now now' html : jsstring)
         (signalId : Z),
    let bodyText := text (select (load html) sel_body) in
    let marked :=
      (exists a b, bodyText = a ++ s_not_registered ++ b)
      \/ (exists a b, bodyText = a ++ s_invalid_number ++ b) in
    let record := fun district =>
      {| id := signalId; registrationNumber := None;
         registrationDate := None; categoryId := None;
         categoryName := None; subcategoryId := None;
         subcategoryName := None; status := Some [];
         statusDate := None; district := district;
         neighborhood := None; address := None; latitude := None;
         longitude := None; description := None;
         problemLocation := None; hasDocuments := false;
         createdAt := now; updatedAt := now'; rawHtml := None |} in
    (parse load now now' html signalId = None <-> marked)
    /\ (~ marked ->
        exists signal, parse load now now' html signalId = Some signal
                       /\ id signal = signalId)
    /\ (load html = [] ->
        parse load now now' html signalId = Some (record None))
    /\ (load html = Samples.doc_district ->
        parse load now now' html signalId
        = Some (record (Some Samples.mladost)))
    /\ s_not_registered = u "Няма регистриран сигнал"
    /\ s_invalid_number = u "Невалиден номер".
Proof.
  intros load now now' html signalId bodyText marked record.
  assert (Hm : includes bodyText s_not_registered
               || includes bodyText s_invalid_number = true <-> marked).
  { unfold marked. by rewrite orb_true_iff, !includes_infix. }
  assert (Hparse : parse load now now' html signalId = None <-> marked).
  { rewrite <- Hm. unfold parse, parseDocument. fold bodyText.
    destruct (includes bodyText s_not_registered
              || includes bodyText s_invalid_number); [done |].
    destruct (parse_category (load html)).
    destruct (parse_coordinates _ _). split; discriminate. }
  split; [exact Hparse |]. split.
  { intros Hn.
    destruct (parse load now now' html signalId) as [signal|] eqn:H.
    - exists signal. split; [done |].
      by destruct (parseDocument_Some now now' (load html) signalId signal H).
    - destruct Hn. by apply Hparse. }
  split; [intros H; unfold parse; rewrite H; reflexivity |].
  split; [intros H; unfold parse; rewrite H; vm_compute; reflexivity |].
  split; reflexivity.
Qed.

Lemma parse_null_iff_marker_witness :
  parse (fun _ => Samples.doc_not_found) Samples.t0 Samples.t1 [] 536304 = None
  /\ exists signal,
       parse (fun _ => Samples.doc_district) Samples.t0 Samples.t1 [] 7
       = Some signal
       /\ id signal = 7.
Proof.
  split.
  - apply (proj1 (parse_null_iff_marker_in_body
                    (fun _ => Samples.doc_not_found) Samples.t0 Samples.t1 []
                    536304)).
    left. exists [], (u " с този номер"). vm_compute. reflexivity.
  - apply (proj1 (proj2 (parse_null_iff_marker_in_body
                           (fun _ => Samples.doc_district) Samples.t0
                           Samples.t1 [] 7))).
    intros [H | H];
      apply (proj2 (includes_infix _ _)) in H; vm_compute in H; discriminate H.
Defined.

(** C9 as stated fails for a marker that is not shown: on a page whose
    only marker phrase sits in a script of the body, [parse] returns
    [null], while the text that is shown, the text of the body without its
    [script], [style] and [noscript] elements, holds neither phrase. *)
Lemma parse_null_on_marker_in_script :
  let dom := Samples.doc_marker_in_script in
  let shown := text (select (List.flat_map remove_scripts dom) sel_body) in
  parse (fun _ => dom) Samples.t0 Samples.t1 [] 7 = None
  /\ includes shown s_not_registered = false
  /\ includes shown s_invalid_number = false
  /\ includes (fst (extractRawContent dom)) s_not_registered = false
  /\ includes (fst (extractRawContent dom)) s_invalid_number = false
  /\ includes (text (select dom sel_script)) s_not_registered = true
  /\ ~ (parse (fun _ => dom) Samples.t0 Samples.t1 [] 7 = None
        <-> includes shown s_not_registered
            || includes shown s_invalid_number = true).
Proof.
  vm_compute. repeat split; try reflexivity. intros [H _].
  specialize (H eq_refl). discriminate H.
Qed.

(** C3 on the code: the label with its value column is found when the
    label text also occurs in a script, but the search is not anchored on
    label elements and has no cap at 1000 characters.  A document without
    any label element yields the value column of a row whose script
    mentions the label text, and a value of 1200 characters is returned
    as it is. *)
Theorem extractRowValue_row_fallback_is_unanchored :
  extractRowValue Samples.doc_district s_district = Some Samples.mladost
  /\ select Samples.doc_script_only (sel_label s_district) = []
  /\ extractRowValue Samples.doc_script_only s_district
     = Some (u "Начало Сигнали Карта Вход")
  /\ (1000 < length Samples.long_value)%nat
  /\ extractRowValue Samples.doc_long_value s_district
     = Some Samples.long_value.
Proof. vm_compute. repeat split; lia. Qed.

End ParserFacts.


(** * Further statements *)

(** ** The database *)

Section DatabaseMore.
Import JS Types Database.

Lemma str_eqb_eq (a b : jsstring) : str_eqb a b = true <-> a = b.
Proof.
  revert b. induction a as [|x a IH]; intros [|y b]; simpl; try done.
  unfold unit_eqb. rewrite andb_true_iff, N.eqb_eq, IH. split.
  - by intros [-> ->].
  - by intros [= -> ->].
Qed.

(** One call of [updateProgress] with the arguments [(lastId, scraped,
    errors)]. *)
Lemma updateProgress_comm now (u1 u2 : Z * Z * Z) (d : DB) :
  updateProgress now u2.1.1 u2.1.2 u2.2 (updateProgress now u1.1.1 u1.1.2 u1.2 d)
  = updateProgress now u1.1.1 u1.1.2 u1.2 (updateProgress now u2.1.1 u2.1.2 u2.2 d).
Proof.
  unfold updateProgress, set_progress. simpl. f_equal. f_equal; lia.
Qed.

Lemma foldr_max_init (a x : Z) (l : list Z) :
  foldr Z.max (Z.max a x) l = Z.max x (foldr Z.max a l).
Proof. induction l as [|y l IH]; simpl; lia. Qed.

Lemma foldr_max_ge (a : Z) (l : list Z) :
  a <= foldr Z.max a l /\ Forall (fun x => x <= foldr Z.max a l) l.
Proof.
  induction l as [|y l [IH1 IH2]]; simpl.
  - split; [lia | constructor].
  - split; [lia |]. constructor; [lia |].
    eapply Forall_impl; [exact IH2 |]. simpl. intros; lia.
Qed.

Lemma updateProgress_foldl now (updates : list (Z * Z * Z)) (d : DB) :
  getProgress
    (foldl (fun d u => updateProgress now u.1.1 u.1.2 u.2 d) d updates)
  = {| lastScrapedId :=
         foldr Z.max (lastScrapedId (getProgress d)) ((fun u => u.1.1) <$> updates);
       totalScraped :=
         totalScraped (getProgress d) + foldr Z.add 0 ((fun u => u.1.2) <$> updates);
       totalErrors :=
         totalErrors (getProgress d) + foldr Z.add 0 ((fun u => u.2) <$> updates);
       startedAt := startedAt (getProgress d);
       lastUpdatedAt :=
         match updates with [] => lastUpdatedAt (getProgress d) | _ => now end |}.
Proof.
  revert d. induction updates as [|u updates IH]; intros d.
  - simpl. unfold getProgress. destruct (scrape_progress d). simpl.
    f_equal; lia.
  - cbn [foldl]. rewrite IH. rewrite getProgress_updateProgress.
    unfold getProgress. simpl. f_equal.
    + apply foldr_max_init.
    + unfold fmap. simpl. lia.
    + unfold fmap. simpl. lia.
    + by destruct updates.
Qed.

(** X1: a batch of progress updates leaves the same progress row in
    whatever order its items complete: the watermark is the largest of the
    stored watermark and the ids, the two totals grow by the sums of the
    increments. *)
Theorem updateProgress_order_independent :
  forall (now : jsstring) (updates updates' : list (Z * Z * Z)) (d : DB),
    let step := fun d u => updateProgress now u.1.1 u.1.2 u.2 d in
    let p := getProgress (foldl step d updates) in
    lastScrapedId p
    = foldr Z.max (lastScrapedId (getProgress d)) ((fun u => u.1.1) <$> updates)
    /\ Forall (fun u => u.1.1 <= lastScrapedId p) updates
    /\ lastScrapedId (getProgress d) <= lastScrapedId p
    /\ totalScraped p
       = totalScraped (getProgress d) + foldr Z.add 0 ((fun u => u.1.2) <$> updates)
    /\ totalErrors p
       = totalErrors (getProgress d) + foldr Z.add 0 ((fun u => u.2) <$> updates)
    /\ (updates ≡ₚ updates' -> foldl step d updates = foldl step d updates').
Proof.
  intros now updates updates' d step p.
  assert (Hp : p = getProgress (foldl step d updates)) by done.
  unfold step in Hp. rewrite updateProgress_foldl in Hp. rewrite Hp. simpl.
  split; [done |]. split.
  { apply (Forall_fmap (fun u : Z * Z * Z => u.1.1)
             (fun x => x <= foldr Z.max (lastScrapedId (getProgress d))
                              ((fun u : Z * Z * Z => u.1.1) <$> updates))).
    apply foldr_max_ge. }
  split; [apply foldr_max_ge |].
  split; [done |]. split; [done |].
  intros Hperm. clear Hp p. revert d.
  induction Hperm as [|u l l' _ IH|u v l|l l' l'' _ IH1 _ IH2]; intros d.
  - done.
  - simpl. apply IH.
  - simpl. unfold step at 2 3 5 6. by rewrite updateProgress_comm.
  - by rewrite IH1.
Qed.

Lemma updateProgress_order_witness :
  [(7, 1, 0); (5, 0, 1)] ≡ₚ [(5, 0, 1); (7, 1, 0)]
  /\ updateProgress Samples.t1 5 0 1
       (updateProgress Samples.t1 7 1 0 (initSchema Samples.t0))
     = updateProgress Samples.t1 7 1 0
         (updateProgress Samples.t1 5 0 1 (initSchema Samples.t0)).
Proof.
  split; [apply Permutation_swap |].
  apply (proj2 (proj2 (proj2 (proj2 (proj2
           (updateProgress_order_independent Samples.t1
              [(7, 1, 0); (5, 0, 1)] [(5, 0, 1); (7, 1, 0)]
              (initSchema Samples.t0))))))).
  apply Permutation_swap.
Defined.

Lemma signalExists_upsertSignal now signal (db : DB) (i : Z) :
  signalExists i (upsertSignal now signal db)
  = (i =? id signal) || signalExists i db.
Proof.
  unfold signalExists. destruct (Z.eqb_spec i (id signal)) as [-> | Hne].
  - simpl. unfold upsertSignal.
    destruct (signals db !! id signal); simpl; by rewrite lookup_insert_eq.
  - simpl. by rewrite upsertSignal_lookup_other.
Qed.

(** X2: what [upsertSignal] stores is what [getSignal] reads back: every
    extracted field of the record, with a [NaN] coordinate read back as
    null; [createdAt] is the time of the first write, [updatedAt] the time of
    this one, and the raw page is the new one or, when the record carries
    none, the stored one.  Other ids read back as before. *)
Theorem getSignal_upsertSignal_round_trip :
  forall (now : jsstring) (signal : Signal) (db : DB),
    let old := signals db !! id signal in
    getSignal (id signal) (upsertSignal now signal db)
    = Some {| id := id signal;
              registrationNumber := registrationNumber signal;
              registrationDate := registrationDate signal;
              categoryId := categoryId signal;
              categoryName := categoryName signal;
              subcategoryId := subcategoryId signal;
              subcategoryName := subcategoryName signal;
              status := status signal;
              statusDate := statusDate signal;
              district := district signal;
              neighborhood := neighborhood signal;
              address := address signal;
              latitude := bind_real (latitude signal);
              longitude := bind_real (longitude signal);
              description := description signal;
              problemLocation := problemLocation signal;
              hasDocuments := hasDocuments signal;
              createdAt :=
                match old with
                | Some row => default [] (created_at row)
                | None => now
                end;
              updatedAt := now;
              rawHtml :=
                match rawHtml signal with
                | Some html => Some html
                | None => old ≫= raw_html
                end |}
    /\ (forall j, j <> id signal ->
          getSignal j (upsertSignal now signal db) = getSignal j db)
    /\ (forall j, getSignal j db = None <-> signalExists j db = false).
Proof.
  intros now signal db old. subst old. split; [| split].
  - unfold getSignal. destruct (signals db !! id signal) as [row|] eqn:Hrow.
    + destruct (upsertSignal_lookup_existing now signal db row Hrow) as [-> _].
      simpl. unfold rowToSignal. simpl.
      destruct (hasDocuments signal), (rawHtml signal); reflexivity.
    + destruct (upsertSignal_lookup_new now signal db Hrow) as [-> _].
      simpl. unfold rowToSignal. simpl.
      destruct (hasDocuments signal), (rawHtml signal); reflexivity.
  - intros j Hj. unfold getSignal. by rewrite upsertSignal_lookup_other.
  - intros j. unfold getSignal, signalExists.
    destruct (signals db !! j); simpl; split; done.
Qed.

(** X3: once a signal is stored its id is no longer missing, and the other
    missing ids are the same as before, in the same order. *)
Theorem getMissingIds_after_upsertSignal :
  forall (now : jsstring) (signal : Signal) (start end_ : Z) (db : DB),
    getMissingIds start end_ (upsertSignal now signal db)
    = List.filter (fun i => negb (i =? id signal)) (getMissingIds start end_ db)
    /\ id signal ∉ getMissingIds start end_ (upsertSignal now signal db).
Proof.
  intros now signal start end_ db.
  assert (H : getMissingIds start end_ (upsertSignal now signal db)
              = List.filter (fun i => negb (i =? id signal))
                  (getMissingIds start end_ db)).
  { rewrite !getMissingIds_filter. induction (seqZ start (end_ - start + 1))
      as [|i l IH]; [done |].
    cbn [List.filter]. rewrite signalExists_upsertSignal.
    destruct (i =? id signal) eqn:Hi; destruct (signalExists i db) eqn:He;
      simpl; rewrite ?Hi; simpl; by rewrite IH. }
  split; [exact H |].
  rewrite H. intros Hin. apply list_elem_of_In, filter_In in Hin.
  destruct Hin as [_ Hin]. by rewrite Z.eqb_refl in Hin.
Qed.

Lemma filter_none {A} (f : A -> bool) (l : list A) :
  Forall (fun x => f x = false) l -> List.filter f l = [].
Proof.
  induction 1 as [|x l Hx _ IH]; [done |]. simpl. by rewrite Hx.
Qed.

Lemma filter_all {A} (f : A -> bool) (l : list A) :
  Forall (fun x => f x = true) l -> List.filter f l = l.
Proof.
  induction 1 as [|x l Hx _ IH]; [done |]. simpl. by rewrite Hx, IH.
Qed.

Lemma filter_idem {A} (f : A -> bool) (l : list A) :
  List.filter f (List.filter f l) = List.filter f l.
Proof.
  apply filter_all, Forall_forall. intros x Hx.
  by apply list_elem_of_In, filter_In in Hx as [_ Hx].
Qed.

Lemma filter_negb_none {A} (f : A -> bool) (l : list A) :
  List.filter f (List.filter (fun x => negb (f x)) l) = [].
Proof.
  apply filter_none, Forall_forall. intros x Hx.
  apply list_elem_of_In, filter_In in Hx as [_ Hx]. by destruct (f x).
Qed.

(** X4: [insertStatusHistory] with the entries of one signal that is
    stored, as the foreign key of the table asks, replaces the history of
    that signal: afterwards its rows are exactly the entries, the rows of
    every other signal are as before, and inserting the same entries again
    changes nothing.  Without entries nothing happens, so a stored history
    is never emptied. *)
Theorem insertStatusHistory_replaces_history :
  forall (entries : list StatusHistoryEntry) (signalId : Z) (db : DB),
    entries <> [] ->
    Forall (fun e => sh_signalId e = signalId) entries ->
    signalExists signalId db = true ->
    let db' := insertStatusHistory entries db in
    List.filter (fun e => sh_signalId e =? signalId) (status_history db')
    = entries
    /\ List.filter (fun e => negb (sh_signalId e =? signalId))
         (status_history db')
       = List.filter (fun e => negb (sh_signalId e =? signalId))
           (status_history db)
    /\ insertStatusHistory entries db' = db'
    /\ insertStatusHistory [] db = db
    /\ signals db' = signals db
    /\ clerk_answers db' = clerk_answers db
    /\ scrape_progress db' = scrape_progress db.
Proof.
  intros entries signalId db Hne Hall _ db'.
  destruct entries as [|e0 entries]; [done |].
  assert (H0 : sh_signalId e0 = signalId)
    by (by apply Forall_cons in Hall as [? _]).
  assert (Hyes : Forall (fun e => (sh_signalId e =? signalId) = true)
                   (e0 :: entries)).
  { eapply Forall_impl; [exact Hall |]. simpl. intros e ->. apply Z.eqb_refl. }
  assert (Hno : Forall (fun e => negb (sh_signalId e =? signalId) = false)
                  (e0 :: entries)).
  { eapply Forall_impl; [exact Hyes |]. simpl. by intros e ->. }
  unfold db', insertStatusHistory. simpl. rewrite H0.
  rewrite !List.filter_app.
  rewrite (filter_all _ _ Hyes), (filter_none _ _ Hno).
  rewrite filter_negb_none, filter_idem, !app_nil_r.
  repeat split; try done.
Qed.

Lemma insertStatusHistory_witness :
  let db := upsertSignal Samples.t0 (Samples.blank 7 Samples.t0)
              (initSchema Samples.t0) in
  Samples.history_7 <> []
  /\ Forall (fun e => sh_signalId e = 7) Samples.history_7
  /\ signalExists 7 db = true
  /\ status_history
       (insertStatusHistory Samples.history_7
          (insertStatusHistory Samples.history_7 db))
     = Samples.history_7.
Proof.
  intros db.
  split; [discriminate |]. split; [by repeat constructor |].
  split; [reflexivity |].
  rewrite (proj1 (proj2 (proj2 (insertStatusHistory_replaces_history
                                  Samples.history_7 7 db
                                  ltac:(discriminate)
                                  ltac:(by repeat constructor)
                                  eq_refl)))).
  reflexivity.
Defined.

(** X5: [insertClerkAnswers] replaces the answers of one stored signal in
    the same way: its rows become the answers handed in, the rows of other
    signals stay, a second call with the same answers changes nothing, and
    an empty list leaves the stored answers alone. *)
Theorem insertClerkAnswers_replaces_answers :
  forall (answers : list ClerkAnswer) (signalId : Z) (db : DB),
    answers <> [] ->
    Forall (fun a => ca_signalId a = signalId) answers ->
    signalExists signalId db = true ->
    let db' := insertClerkAnswers answers db in
    List.filter (fun a => ca_signalId a =? signalId) (clerk_answers db')
    = answers
    /\ List.filter (fun a => negb (ca_signalId a =? signalId))
         (clerk_answers db')
       = List.filter (fun a => negb (ca_signalId a =? signalId))
           (clerk_answers db)
    /\ insertClerkAnswers answers db' = db'
    /\ insertClerkAnswers [] db = db
    /\ signals db' = signals db
    /\ status_history db' = status_history db
    /\ scrape_progress db' = scrape_progress db.
Proof.
  intros answers signalId db Hne Hall _ db'.
  destruct answers as [|a0 answers]; [done |].
  assert (H0 : ca_signalId a0 = signalId)
    by (by apply Forall_cons in Hall as [? _]).
  assert (Hyes : Forall (fun a => (ca_signalId a =? signalId) = true)
                   (a0 :: answers)).
  { eapply Forall_impl; [exact Hall |]. simpl. intros a ->. apply Z.eqb_refl. }
  assert (Hno : Forall (fun a => negb (ca_signalId a =? signalId) = false)
                  (a0 :: answers)).
  { eapply Forall_impl; [exact Hyes |]. simpl. by intros a ->. }
  unfold db', insertClerkAnswers. simpl. rewrite H0.
  rewrite !List.filter_app.
  rewrite (filter_all _ _ Hyes), (filter_none _ _ Hno).
  rewrite filter_negb_none, filter_idem, !app_nil_r.
  repeat split; try done.
Qed.

Lemma insertClerkAnswers_witness :
  let db := upsertSignal Samples.t0 (Samples.blank 7 Samples.t0)
              (initSchema Samples.t0) in
  Samples.answers_7 <> []
  /\ Forall (fun a => ca_signalId a = 7) Samples.answers_7
  /\ signalExists 7 db = true
  /\ clerk_answers
       (insertClerkAnswers Samples.answers_7
          (insertClerkAnswers Samples.answers_7 db))
     = Samples.answers_7.
Proof.
  intros db.
  split; [discriminate |]. split; [by repeat constructor |].
  split; [reflexivity |].
  rewrite (proj1 (proj2 (proj2 (insertClerkAnswers_replaces_answers
                                  Samples.answers_7 7 db
                                  ltac:(discriminate)
                                  ltac:(by repeat constructor)
                                  eq_refl)))).
  reflexivity.
Defined.

Lemma foldr_min_spec (i : Z) (l : list Z) :
  foldr Z.min i l ∈ i :: l /\ Forall (fun j => foldr Z.min i l <= j) (i :: l).
Proof.
  induction l as [|x l [IH1 IH2]]; simpl.
  - split; [by left | by repeat constructor].
  - apply Forall_cons in IH2 as [IHi IHl]. split.
    + destruct (Z.min_spec x (foldr Z.min i l)) as [[_ ->] | [_ ->]].
      * right; by left.
      * apply elem_of_cons in IH1 as [-> | IH1]; [by left |].
        right; by right.
    + constructor; [lia |]. constructor; [lia |].
      eapply Forall_impl; [exact IHl |]. simpl. intros; lia.
Qed.

(** The id found by name in a table keyed by id. *)
Lemma id_by_name_spec {R} (tbl : gmap Z R) (nm : R -> jsstring)
  (name : jsstring) (c : Z) :
  id_or_null
    (first_id (fst <$> List.filter (fun kv => str_eqb (nm (snd kv)) name)
                         (map_to_list tbl))) = Some c
  <-> c <> 0
      /\ (exists row, tbl !! c = Some row /\ nm row = name)
      /\ (forall j row, tbl !! j = Some row -> nm row = name -> c <= j).
Proof.
  set (ids := fst <$> List.filter (fun kv => str_eqb (nm (snd kv)) name)
                        (map_to_list tbl)).
  assert (Hids : forall j, j ∈ ids <-> exists row, tbl !! j = Some row /\ nm row = name).
  { intros j. unfold ids. rewrite list_elem_of_fmap. split.
    - intros ([k row] & -> & Hin). apply list_elem_of_In, filter_In in Hin.
      destruct Hin as [Hin Hb]. apply list_elem_of_In, elem_of_map_to_list in Hin.
      simpl in *. apply str_eqb_eq in Hb. by exists row.
    - intros (row & Hrow & Hname). exists (j, row). split; [done |].
      apply list_elem_of_In, filter_In. split.
      + by apply list_elem_of_In, elem_of_map_to_list.
      + simpl. by apply str_eqb_eq. }
  destruct ids as [|i rest] eqn:Hl; simpl.
  - split; [done |]. intros (_ & Hrow & _). apply Hids in Hrow.
    by apply elem_of_nil in Hrow.
  - destruct (foldr_min_spec i rest) as [Hin Hle].
    set (m := foldr Z.min i rest) in *.
    destruct (Z.eqb_spec m 0) as [Hz | Hnz].
    + split; [done |]. intros (Hc & Hrow & Hleast).
      apply Hids in Hrow. apply Hids in Hin as (row & Hr & Hn).
      specialize (Hleast m row Hr Hn).
      rewrite Forall_forall in Hle. specialize (Hle c Hrow). lia.
    + split.
      * intros [= <-]. split; [done |]. split; [by apply Hids |].
        intros j row Hr Hn. rewrite Forall_forall in Hle. apply Hle.
        apply Hids. by exists row.
      * intros (Hc & Hrow & Hleast). f_equal.
        apply Hids in Hrow. apply Hids in Hin as (row & Hr & Hn).
        specialize (Hleast m row Hr Hn).
        rewrite Forall_forall in Hle. specialize (Hle c Hrow). lia.
Qed.

(** X6: looking an id up by name returns the smallest id among the rows
    with exactly that name, for categories and for subcategories alike; a
    name that no row carries gives null, and so does a name whose smallest
    id is 0. *)
Theorem id_by_name_is_least_nonzero_id :
  forall (name : jsstring) (db : DB) (c : Z),
    (getCategoryIdByName name db = Some c
     <-> c <> 0
         /\ (exists row, categories db !! c = Some row /\ c_name row = name)
         /\ (forall j row, categories db !! j = Some row ->
                           c_name row = name -> c <= j))
    /\ (getSubcategoryIdByName name db = Some c
        <-> c <> 0
            /\ (exists row, subcategories db !! c = Some row /\ s_name row = name)
            /\ (forall j row, subcategories db !! j = Some row ->
                              s_name row = name -> c <= j))
    /\ ((forall j row, categories db !! j = Some row -> c_name row <> name) ->
        getCategoryIdByName name db = None)
    /\ ((forall j row, subcategories db !! j = Some row -> s_name row <> name) ->
        getSubcategoryIdByName name db = None).
Proof.
  intros name db c.
  split; [apply (id_by_name_spec (categories db) c_name) |].
  split; [apply (id_by_name_spec (subcategories db) s_name) |].
  split.
  - intros Hnone. destruct (getCategoryIdByName name db) as [i|] eqn:H; [| done].
    apply (id_by_name_spec (categories db) c_name) in H
      as (_ & (row & Hr & Hn) & _).
    by destruct (Hnone i row Hr).
  - intros Hnone. destruct (getSubcategoryIdByName name db) as [i|] eqn:H; [| done].
    apply (id_by_name_spec (subcategories db) s_name) in H
      as (_ & (row & Hr & Hn) & _).
    by destruct (Hnone i row Hr).
Qed.

Lemma truthy_name_Some (o : option jsstring) (name : jsstring) :
  truthy_name o = Some name <-> o = Some name /\ name <> [].
Proof.
  unfold truthy_name. destruct o as [[|x s]|]; simpl.
  - split; [done | intros [[= <-] H]; done].
  - split; [intros [= <-]; done | intros [H _]; done].
  - split; [done | intros [H _]; done].
Qed.

(** X7: the ids [lookupCategoryIds] returns are ids of rows of the synced
    tables and never 0.  A subcategory id belongs to a row carrying the
    subcategory name; a category id belongs to a row carrying the category
    name or, when the category name resolves to nothing, is the parent
    stored with the subcategory that was found.  A category name that
    resolves always wins over the parent of the subcategory, and names that
    are null or empty resolve to null. *)
Theorem lookupCategoryIds_sound :
  forall (categoryName subcategoryName : option jsstring) (db : DB),
    let categoryId := fst (lookupCategoryIds categoryName subcategoryName db) in
    let subcategoryId := snd (lookupCategoryIds categoryName subcategoryName db) in
    (forall s, subcategoryId = Some s ->
       s <> 0
       /\ exists name row,
            subcategoryName = Some name /\ name <> []
            /\ subcategories db !! s = Some row /\ s_name row = name)
    /\ (forall c, categoryId = Some c ->
          c <> 0
          /\ ((exists name row,
                 categoryName = Some name /\ name <> []
                 /\ categories db !! c = Some row /\ c_name row = name)
              \/ (exists s row,
                    subcategoryId = Some s
                    /\ subcategories db !! s = Some row
                    /\ s_parent_category_id row = c)))
    /\ (forall name c, categoryName = Some name -> name <> [] ->
          getCategoryIdByName name db = Some c -> categoryId = Some c)
    /\ (truthy_name subcategoryName = None -> subcategoryId = None)
    /\ (truthy_name categoryName = None -> truthy_name subcategoryName = None ->
        categoryId = None).
Proof.
  intros cn sn db categoryId subcategoryId.
  unfold categoryId, subcategoryId, lookupCategoryIds. clear categoryId subcategoryId.
  split; [| split; [| split; [| split]]].
  - intros s Hs. destruct (truthy_name sn) as [name|] eqn:Hsn; [| done].
    apply truthy_name_Some in Hsn as [-> Hne].
    assert (Hsub : getSubcategoryIdByName name db = Some s).
    { destruct (getSubcategoryIdByName name db) as [sid|];
        destruct (match truthy_name cn with
                  | Some n => getCategoryIdByName n db | None => None end);
        simpl in Hs; congruence. }
    apply (id_by_name_spec (subcategories db) s_name) in Hsub as (Hnz & (row & Hr & Hn) & _).
    split; [done |]. by exists name, row.
  - intros c Hc.
    destruct (truthy_name cn) as [cname|] eqn:Hcn.
    + apply truthy_name_Some in Hcn as [-> Hne].
      destruct (getCategoryIdByName cname db) as [cid|] eqn:Hcat.
      * assert (cid = c) as ->.
        { destruct (truthy_name sn); [destruct (getSubcategoryIdByName _ db) |];
            simpl in Hc; congruence. }
        apply (id_by_name_spec (categories db) c_name) in Hcat as (Hnz & (row & Hr & Hn) & _).
        split; [done |]. left. by exists cname, row.
      * destruct (truthy_name sn) as [sname|]; [| done].
        destruct (getSubcategoryIdByName sname db) as [sid|]; [| done].
        simpl in Hc. simpl.
        destruct (subcategories db !! sid) as [row|] eqn:Hrow; [| done].
        simpl in Hc. destruct (s_parent_category_id row =? 0) eqn:Hz; [done |].
        injection Hc as <-. apply Z.eqb_neq in Hz. split; [done |].
        right. by exists sid, row.
    + destruct (truthy_name sn) as [sname|]; [| done].
      destruct (getSubcategoryIdByName sname db) as [sid|]; [| done].
      simpl in Hc. simpl.
      destruct (subcategories db !! sid) as [row|] eqn:Hrow; [| done].
      simpl in Hc. destruct (s_parent_category_id row =? 0) eqn:Hz; [done |].
      injection Hc as <-. apply Z.eqb_neq in Hz. split; [done |].
      right. by exists sid, row.
  - intros name c -> Hne Hcat.
    assert (Hcn : truthy_name (Some name) = Some name)
      by (by apply truthy_name_Some).
    rewrite Hcn, Hcat.
    destruct (truthy_name sn); [destruct (getSubcategoryIdByName _ db) |]; done.
  - intros ->. done.
  - intros -> ->. done.
Qed.

Lemma lookupCategoryIds_witness :
  lookupCategoryIds (Some (u "Пътна инфраструктура"))
    (Some (u "Проблеми с велосипедната инфраструктура")) Samples.db_synced
  = (Some 3, Some 30271)
  /\ lookupCategoryIds None
       (Some (u "Проблеми с велосипедната инфраструктура")) Samples.db_synced
     = (Some 30, Some 30271).
Proof.
  split; [| vm_compute; reflexivity].
  assert (H : fst (lookupCategoryIds (Some (u "Пътна инфраструктура"))
                     (Some (u "Проблеми с велосипедната инфраструктура"))
                     Samples.db_synced) = Some 3).
  { apply (proj1 (proj2 (proj2 (lookupCategoryIds_sound _ _ _)))
             (u "Пътна инфраструктура") 3);
      [reflexivity | discriminate | vm_compute; reflexivity]. }
  rewrite (surjective_pairing (lookupCategoryIds _ _ _)), H.
  reflexivity.
Defined.

Lemma foldl_insert_lookup {R} (key : R -> Z) (l : list R) (tbl : gmap Z R)
  (i : Z) :
  foldl (fun t r => <[key r := r]> t) tbl l !! i
  = match List.find (fun r => key r =? i) (rev l) with
    | Some r => Some r
    | None => tbl !! i
    end.
Proof.
  induction l as [|x l IH] using rev_ind; [done |].
  rewrite foldl_app, rev_app_distr. simpl.
  destruct (Z.eqb_spec (key x) i) as [<- | Hne].
  - by rewrite lookup_insert_eq.
  - by rewrite lookup_insert_ne.
Qed.

(** X8: [upsertCategories] and [upsertSubcategories] keep one row per id,
    and the last item of the list with a given id is the one stored; ids
    that are not in the list keep their row.  Neither touches the signals
    or the progress row. *)
Theorem upsertCategories_last_write_wins :
  forall (cats : list CategoryRow) (subs : list SubcategoryRow) (db : DB)
         (i : Z),
    categories (upsertCategories cats db) !! i
    = match List.find (fun cat => c_id cat =? i) (rev cats) with
      | Some cat => Some cat
      | None => categories db !! i
      end
    /\ subcategories (upsertSubcategories subs db) !! i
       = match List.find (fun sub => s_id sub =? i) (rev subs) with
         | Some sub => Some sub
         | None => subcategories db !! i
         end
    /\ signals (upsertSubcategories subs (upsertCategories cats db)) = signals db
    /\ scrape_progress (upsertSubcategories subs (upsertCategories cats db))
       = scrape_progress db.
Proof.
  intros cats subs db i. unfold upsertCategories, upsertSubcategories. simpl.
  repeat split; apply foldl_insert_lookup.
Qed.

End DatabaseMore.


(** ** The client *)

Section ClientMore.
Import JS Types Database Client.

Lemma extractParentCategoryId_pos (subcategoryId : Z) :
  0 < subcategoryId ->
  exists parentId,
    extractParentCategoryId subcategoryId = Some parentId
    /\ parentId ∈ knownParentIds
    /\ toString parentId `prefix_of` toString subcategoryId.
Proof.
  intros H. destruct subcategoryId as [|p|p]; try lia.
  destruct (toString_pos_head p) as (c & rest & Hs & Hc).
  destruct (digit_is_known_parent c Hc) as (d & Hd & Hds).
  unfold extractParentCategoryId.
  destruct (firstKnownParent (toString (Z.pos p)) knownParentIds)
    as [parentId|] eqn:Hf.
  - exists parentId. split; [done |].
    apply firstKnownParent_Some in Hf as (before & after & Hl & Hp & _).
    split; [| done]. rewrite Hl. apply elem_of_app. right. by left.
  - apply firstKnownParent_None in Hf. rewrite Forall_forall in Hf.
    destruct (Hf d Hd). rewrite Hds, Hs. by exists rest.
Qed.

Lemma extractParentCategoryId_neg (subcategoryId : Z) :
  subcategoryId < 0 ->
  exists parentId,
    extractParentCategoryId subcategoryId = Some parentId
    /\ -9 <= parentId <= -1.
Proof.
  intros H. destruct subcategoryId as [|p|p]; try lia.
  destruct (toString_pos_head p) as (c & rest & Hs & Hc).
  unfold extractParentCategoryId.
  assert (Hstr : toString (Z.neg p) = 45%N :: c :: rest)
    by (simpl in *; by rewrite Hs).
  rewrite Hstr.
  assert (Hc' : (c = 49 \/ c = 50 \/ c = 51 \/ c = 52 \/ c = 53 \/ c = 54
                 \/ c = 55 \/ c = 56 \/ c = 57)%N) by lia.
  destruct Hc' as [-> | [-> | [-> | [-> | [-> | [-> | [-> | [-> | ->]]]]]]]];
    eexists; (split; [vm_compute; reflexivity | clear; lia]).
Qed.

Lemma extractParentCategoryId_not_NaN (subcategoryId : Z) :
  extractParentCategoryId subcategoryId <> None.
Proof.
  destruct (Z.lt_trichotomy subcategoryId 0) as [H | [-> | H]].
  - destruct (extractParentCategoryId_neg _ H) as (p & -> & _). done.
  - done.
  - destruct (extractParentCategoryId_pos _ H) as (p & -> & _). done.
Qed.

(** X9: [extractParentCategoryId] never yields [NaN].  For a positive id
    the loop always finds a known parent whose digits start the id, so the
    fallback after the loop is never reached; the id 0 gives 0 and a
    negative id gives the negated first digit. *)
Theorem extractParentCategoryId_total :
  forall subcategoryId : Z,
    Z.abs subcategoryId < 10 ^ 21 ->
    (0 < subcategoryId ->
     exists parentId,
       extractParentCategoryId subcategoryId = Some parentId
       /\ parentId ∈ knownParentIds
       /\ toString parentId `prefix_of` toString subcategoryId)
    /\ (subcategoryId = 0 -> extractParentCategoryId subcategoryId = Some 0)
    /\ (subcategoryId < 0 ->
        exists parentId,
          extractParentCategoryId subcategoryId = Some parentId
          /\ -9 <= parentId <= -1)
    /\ extractParentCategoryId subcategoryId <> None.
Proof.
  intros subcategoryId _.
  split; [apply extractParentCategoryId_pos |]. split; [by intros -> |].
  split; [apply extractParentCategoryId_neg |].
  apply extractParentCategoryId_not_NaN.
Qed.

Lemma extractParentCategoryId_total_witness :
  Z.abs 270034 < 10 ^ 21 /\ 0 < 270034
  /\ exists parentId,
       extractParentCategoryId 270034 = Some parentId
       /\ parentId ∈ knownParentIds.
Proof.
  split; [lia |]. split; [lia |].
  destruct (proj1 (extractParentCategoryId_total 270034 ltac:(lia)) ltac:(lia))
    as (parentId & H1 & H2 & _).
  by exists parentId.
Defined.

Section RetryMore.
Context {E T : Type}.
Variable config : ScraperConfig.

Lemma withRetry_loop_never_undefined (n : nat) :
  forall (fn : action E T) (attempts i : Z) (e : E) (net : Net),
    fst (withRetry_loop config n fn attempts i (Some e) net) <> inl None.
Proof.
  induction n as [|n IH]; intros fn attempts i e net; [done |].
  rewrite withRetry_loop_S. destruct (fn net) as [[e' | v] net']; [| done].
  apply IH.
Qed.

(** The requests and the delays of the loop around an action that sends
    one request per call. *)
Lemma withRetry_loop_trace (script : nat -> E + T) (r : Request) (n : nat) :
  forall (i : nat) (attempts : Z) (lastError : option E) (net : Net),
    attempts = Z.of_nat (i + n) ->
    exists k : nat,
      (k <= n)%nat /\ ((1 <= n)%nat -> (1 <= k)%nat)
      /\ requests (snd (withRetry_loop config n (scripted script r) attempts
                          (Z.of_nat i) lastError net))
         = requests net ++ replicate k r
      /\ slept (snd (withRetry_loop config n (scripted script r) attempts
                       (Z.of_nat i) lastError net))
         = slept net
           ++ ((fun j => retryDelayMs config * Z.of_nat j) <$> seq (S i) (k - 1)).
Proof.
  induction n as [|n IH]; intros i attempts lastError net Ha.
  - exists 0%nat. simpl. rewrite !app_nil_r. repeat split; (lia || done).
  - rewrite withRetry_loop_S.
    change (scripted script r net)
      with (script (length (requests net)), send r net).
    destruct (script (length (requests net))) as [e | v].
    + replace (Z.of_nat i + 1) with (Z.of_nat (S i)) by lia.
      destruct n as [|n].
      * assert (Hlt : (Z.of_nat i <? attempts - 1) = false)
          by (apply Z.ltb_ge; lia).
        rewrite Hlt. exists 1%nat. simpl. rewrite ?app_nil_r.
        repeat split; (lia || done).
      * assert (Hlt : (Z.of_nat i <? attempts - 1) = true)
          by (apply Z.ltb_lt; lia).
        rewrite Hlt.
        destruct (IH (S i) attempts (Some e)
                    (sleep (retryDelayMs config * Z.of_nat (S i))
                       (send r net)) ltac:(lia))
          as (k & Hk & Hk1 & Hreq & Hsl).
        specialize (Hk1 ltac:(lia)).
        exists (S k). split; [lia |]. split; [lia |].
        rewrite Hreq, Hsl. simpl. rewrite <- !app_assoc. simpl.
        split; [done |]. f_equal.
        destruct k as [|k]; [lia |]. simpl. by rewrite Nat.sub_0_r.
    + exists 1%nat. simpl. rewrite ?app_nil_r. repeat split; (lia || done).
Qed.

(** The error thrown after the last iteration is the one the last call
    failed with, and nothing happens after that call. *)
Lemma withRetry_loop_last (n : nat) :
  forall (fn : action E T) (attempts i : Z) (lastError oe : option E)
         (net : Net),
    attempts = i + Z.of_nat (S n) ->
    fst (withRetry_loop config (S n) fn attempts i lastError net) = inl oe ->
    exists e net0,
      oe = Some e
      /\ fn net0
         = (inl e, snd (withRetry_loop config (S n) fn attempts i lastError net)).
Proof.
  induction n as [|n IH]; intros fn attempts i lastError oe net Ha.
  - cbn [withRetry_loop]. destruct (fn net) as [[e | v] net'] eqn:Hfn; [| done].
    destruct (Z.ltb_spec i (attempts - 1)); [lia |].
    simpl. intros [= <-]. by exists e, net.
  - rewrite withRetry_loop_S.
    destruct (fn net) as [[e | v] net'] eqn:Hfn; [| done].
    apply IH. lia.
Qed.

(** The calls of a scripted action: they all fail, or one of them is the
    first to succeed. *)
Lemma scripted_outcome (script : nat -> E + T) (L n : nat) :
  (forall j, (j < n)%nat -> exists e, script (L + j)%nat = inl e)
  \/ (exists k v, (k < n)%nat
                  /\ (forall j, (j < k)%nat ->
                                exists e, script (L + j)%nat = inl e)
                  /\ script (L + k)%nat = inr v).
Proof.
  induction n as [|n [IH | IH]].
  - left. intros j Hj. lia.
  - destruct (script (L + n)%nat) as [e | v] eqn:Hn.
    + left. intros j Hj. destruct (Nat.eq_dec j n) as [-> | Hne]; [eauto |].
      apply IH. lia.
    + right. exists n, v. split; [lia |]. split; [exact IH | exact Hn].
  - right. destruct IH as (k & v & Hk & Hf & Hv). exists k, v.
    split; [lia | by split].
Qed.

End RetryMore.

(** X10: without a positive number of attempts [withRetry] does not call
    the action at all and throws [undefined]; with at least one attempt it
    never throws [undefined].  What it throws then is the error of the
    call it made last: the state it ends in is the state right after that
    call.  For an action whose outcomes are scripted it throws exactly when
    every one of its [attempts] calls fails, and the error is the one of
    the last of them. *)
Theorem withRetry_throws_undefined_only_without_attempts :
  forall (E T : Type) (config : ScraperConfig) (fn : action E T)
         (attempts : Z) (net : Net),
    (attempts <= 0 -> withRetry config fn attempts net = (inl None, net))
    /\ (1 <= attempts -> fst (withRetry config fn attempts net) <> inl None)
    /\ (1 <= attempts ->
        forall oe, fst (withRetry config fn attempts net) = inl oe ->
          exists e net0,
            oe = Some e
            /\ fn net0 = (inl e, snd (withRetry config fn attempts net)))
    /\ (forall (script : nat -> E + T) (r : Request) (e : E),
          1 <= attempts ->
          let L := length (requests net) in
          let n := Z.to_nat attempts in
          fst (withRetry config (scripted script r) attempts net)
          = inl (Some e)
          <-> (forall j, (j < n)%nat ->
                         exists e', script (L + j)%nat = inl e')
              /\ script (L + (n - 1))%nat = inl e).
Proof.
  intros E T config fn attempts net. split; [| split; [| split]].
  - intros H. unfold withRetry.
    replace (Z.to_nat attempts) with 0%nat by lia. reflexivity.
  - intros H. unfold withRetry.
    destruct (Z.to_nat attempts) as [|n] eqn:Hn; [lia |].
    rewrite withRetry_loop_S. destruct (fn net) as [[e | v] net']; [| done].
    apply withRetry_loop_never_undefined.
  - intros H oe. unfold withRetry.
    destruct (Z.to_nat attempts) as [|n] eqn:Hn; [lia |].
    apply withRetry_loop_last. lia.
  - intros script r e H L n. unfold withRetry. fold n.
    destruct n as [|m] eqn:Hn; [lia |].
    replace (S m - 1)%nat with m by lia.
    change (withRetry_loop config (S m) (scripted script r) attempts 0 None net)
      with (withRetry_loop config (S m) (scripted script r) attempts
              (Z.of_nat 0) None net).
    destruct (scripted_outcome script L (S m)) as [Hall | (k & v & Hk & Hf & Hv)].
    + destruct (Hall m ltac:(lia)) as [e0 He0].
      rewrite (withRetry_loop_exhausted config script r m 0 attempts None net e0)
        by (lia || done || (intros j Hj; apply Hall; lia)).
      cbn [fst]. split.
      * intros [= <-]. by split.
      * intros [_ He]. fold L in He0. congruence.
    + rewrite (withRetry_loop_success config script r k (S m) 0 attempts None
                 net v) by (lia || done).
      cbn [fst]. split; [done |]. intros [Hall _].
      destruct (Hall k Hk) as [e' He']. fold L in Hv. congruence.
Qed.

Lemma withRetry_throws_undefined_witness :
  0 <= 0
  /\ withRetry DEFAULT_CONFIG (getSignalDetailsHtml Samples.server_404 7) 0
       Samples.offline
     = (inl None, Samples.offline).
Proof.
  split; [lia |].
  apply (proj1 (withRetry_throws_undefined_only_without_attempts
                  Error (option jsstring) DEFAULT_CONFIG
                  (getSignalDetailsHtml Samples.server_404 7) 0
                  Samples.offline)).
  lia.
Defined.

(** Three attempts against a site that refuses every request: the third
    refusal is thrown. *)
Example withRetry_throws_the_last_error :
  fst (withRetry DEFAULT_CONFIG
         (scripted (fun j => inl (Z.of_nat j) : Z + unit) (Details 7)) 3
         Samples.offline)
  = inl (Some 2).
Proof. reflexivity. Qed.

(** X11: fetching the page of a signal under [withRetry] sends between one
    and [attempts] requests, all for that signal, whatever the site answers,
    and waits [d * 1, ..., d * (k - 1)] when it has sent [k] of them: never
    after the last request. *)
Theorem withRetry_details_request_bound :
  forall (config : ScraperConfig) (server : Server) (id attempts : Z)
         (net : Net),
    let net' := snd (withRetry config (getSignalDetailsHtml server id)
                       attempts net) in
    exists k : nat,
      (k <= Z.to_nat attempts)%nat
      /\ (1 <= attempts -> (1 <= k)%nat)
      /\ requests net' = requests net ++ replicate k (Details id)
      /\ slept net' = slept net ++ delays (retryDelayMs config) (k - 1).
Proof.
  intros config server id attempts net net'. unfold net', withRetry.
  destruct (Z.le_gt_cases attempts 0) as [Hle | Hgt].
  - replace (Z.to_nat attempts) with 0%nat by lia. exists 0%nat. simpl.
    rewrite !app_nil_r. repeat split; (lia || done).
  - destruct (withRetry_loop_trace config (server id) (Details id)
                (Z.to_nat attempts) 0 attempts None net ltac:(lia))
      as (k & Hk & Hk1 & Hreq & Hsl).
    exists k. split; [done |]. split; [intros _; apply Hk1; lia |].
    split; [exact Hreq | exact Hsl].
Qed.

Lemma withRetry_details_request_witness :
  1 <= 3
  /\ withRetry DEFAULT_CONFIG
       (getSignalDetailsHtml (fun _ _ => inl (mkError [])) 7) 3 Samples.offline
     = (inl (Some (mkError [])),
        mkNet [Details 7; Details 7; Details 7] [1000; 2000]).
Proof.
  split; [lia |].
  destruct (withRetry_details_request_bound DEFAULT_CONFIG
              (fun _ _ => inl (mkError [])) 7 3 Samples.offline)
    as (k & _ & Hk & _ & _).
  specialize (Hk ltac:(lia)). reflexivity.
Defined.

Lemma split_nonempty (sep : N) (s : jsstring) : split sep s <> [].
Proof.
  destruct s as [|c s]; simpl; [done |].
  destruct (unit_eqb c sep); [done |]. by destruct (split sep s).
Qed.

Lemma split_no_sep (sep : N) (s : jsstring) :
  sep ∉ s -> split sep s = [s].
Proof.
  induction s as [|c s IH]; intros Hs; simpl; [done |].
  apply not_elem_of_cons in Hs as [Hc Hs]. unfold unit_eqb.
  destruct (N.eqb_spec c sep) as [-> | _]; [done |]. by rewrite IH.
Qed.

Lemma split_app_sep (sep : N) (p r : jsstring) :
  sep ∉ p -> split sep (p ++ sep :: r) = p :: split sep r.
Proof.
  induction p as [|c p IH]; intros Hp; simpl.
  - unfold unit_eqb. by rewrite N.eqb_refl.
  - apply not_elem_of_cons in Hp as [Hc Hp]. unfold unit_eqb.
    destruct (N.eqb_spec c sep) as [-> | _]; [done |]. by rewrite IH.
Qed.

Lemma join_split (sep : N) (s : jsstring) : join [sep] (split sep s) = s.
Proof.
  induction s as [|c s IH]; [done |]. simpl. unfold unit_eqb.
  destruct (N.eqb_spec c sep) as [-> | _].
  - pose proof (split_nonempty sep s) as Hne.
    destruct (split sep s) as [|p ps] eqn:Hsp; [done |].
    cbn [join]. cbn [join] in IH. by rewrite IH.
  - pose proof (split_nonempty sep s) as Hne.
    destruct (split sep s) as [|p ps] eqn:Hsp; [done |].
    cbn [join]. cbn [join] in IH. destruct ps; simpl in *; by rewrite IH.
Qed.

(** The part of a dashed name after its first dash. *)
Lemma name_after_first_dash (value : jsstring) :
  (forall parent rest, value = parent ++ 45%N :: rest -> 45%N ∉ parent ->
     join [45%N] (List.tl (split 45 value)) = rest)
  /\ (45%N ∉ value -> join [45%N] (List.tl (split 45 value)) = []).
Proof.
  split.
  - intros parent rest -> Hp. rewrite split_app_sep by done. simpl.
    apply join_split.
  - intros Hv. by rewrite split_no_sep.
Qed.

(** X12: [getSubcategories] returns one subcategory per item of the list,
    in order, with the id and the full name of the item and a parent id
    that is never [NaN]; its name is the trimmed text after the first dash of
    the full name, further dashes included, and empty when the full name has
    no dash.  A failed request gives the empty list. *)
Theorem getSubcategories_splits_at_first_dash :
  forall (data : list ApiItem) (e : Error),
    Forall2
      (fun item sub =>
         sub_id sub = ID item
         /\ sub_fullName sub = Value item
         /\ sub_parentCategoryId sub = extractParentCategoryId (ID item)
         /\ (Z.abs (ID item) < 10 ^ 21 -> sub_parentCategoryId sub <> None)
         /\ (forall parent rest,
               Value item = parent ++ 45%N :: rest -> 45%N ∉ parent ->
               sub_name sub = trim rest)
         /\ (45%N ∉ Value item -> sub_name sub = []))
      data (getSubcategories (inr data))
    /\ getSubcategories (inl e) = []
    /\ getCategories (inl e) = []
    /\ testConnection (inl e) = false.
Proof.
  intros data e. split; [| done].
  induction data as [|item data IH]; simpl; constructor; [| exact IH].
  destruct (name_after_first_dash (Value item)) as [H1 H2]. simpl.
  repeat split.
  - intros _. apply extractParentCategoryId_not_NaN.
  - intros parent rest Hv Hp. by rewrite (H1 parent rest Hv Hp).
  - intros Hv. by rewrite (H2 Hv).
Qed.

(** The sample list of the site, mapped. *)
Example getSubcategories_sample :
  getSubcategories (inr Samples.api_subcategories)
  = [ mkSubcategory 30271 (u "Проблеми с велосипедната инфраструктура")
        (u "Пътна инфраструктура-Проблеми с велосипедната инфраструктура")
        (Some 30) ].
Proof. vm_compute. reflexivity. Qed.

Lemma omap_length {A B} (f : A -> option B) (l : list A) :
  (length (omap f l) <= length l)%nat.
Proof.
  induction l as [|x l IH]; [simpl; lia |].
  change (omap f (x :: l))
    with (match f x with Some y => y :: omap f l | None => omap f l end).
  destruct (f x); simpl; lia.
Qed.

(** X13: every entry [getStatusHistory] and [getClerkAnswers] build carries
    the id of the signal they were asked for, and there is at most one entry
    per row of the answer; a failed request and an answer without rows give
    the empty list.  So storing what was fetched for one stored signal never
    alters the stored history or answers of another signal. *)
Theorem fetched_extras_belong_to_the_signal :
  forall (response : Response JqGridData) (signalId : Z) (db : DB),
    let history := getStatusHistory response signalId in
    let answers := getClerkAnswers response signalId in
    Forall (fun e => sh_signalId e = signalId) history
    /\ Forall (fun a => ca_signalId a = signalId) answers
    /\ (length history
        <= match response with inr (Some rows) => length rows | _ => 0 end)%nat
    /\ (length answers
        <= match response with inr (Some rows) => length rows | _ => 0 end)%nat
    /\ (signalExists signalId db = true ->
        List.filter (fun e => negb (sh_signalId e =? signalId))
          (status_history (insertStatusHistory history db))
        = List.filter (fun e => negb (sh_signalId e =? signalId))
            (status_history db)
        /\ List.filter (fun a => negb (ca_signalId a =? signalId))
             (clerk_answers (insertClerkAnswers answers db))
           = List.filter (fun a => negb (ca_signalId a =? signalId))
               (clerk_answers db)).
Proof.
  intros response signalId db history answers.
  assert (Hh : Forall (fun e => sh_signalId e = signalId) history).
  { unfold history, getStatusHistory. destruct response as [|[rows|]];
      try constructor. apply Forall_fmap, Forall_forall. done. }
  assert (Ha : Forall (fun a => ca_signalId a = signalId) answers).
  { unfold answers, getClerkAnswers. destruct response as [|[rows|]];
      try constructor. apply Forall_fmap, Forall_forall. done. }
  split; [exact Hh |]. split; [exact Ha |]. split.
  { unfold history, getStatusHistory. destruct response as [|[rows|]];
      simpl; try lia. rewrite length_fmap. apply omap_length. }
  split.
  { unfold answers, getClerkAnswers. destruct response as [|[rows|]];
      simpl; try lia. rewrite length_fmap. apply omap_length. }
  intros _. split.
  - destruct history as [|e0 l] eqn:Hl; [done |].
    assert (H0 : sh_signalId e0 = signalId)
      by (by apply Forall_cons in Hh as [? _]).
    unfold insertStatusHistory. simpl. rewrite H0, List.filter_app, filter_idem.
    rewrite (filter_none (fun e => negb (sh_signalId e =? signalId)) (e0 :: l)).
    + by rewrite app_nil_r.
    + eapply Forall_impl; [exact Hh |]. simpl. intros e ->.
      by rewrite Z.eqb_refl.
  - destruct answers as [|a0 l] eqn:Hl; [done |].
    assert (H0 : ca_signalId a0 = signalId)
      by (by apply Forall_cons in Ha as [? _]).
    unfold insertClerkAnswers. simpl. rewrite H0, List.filter_app, filter_idem.
    rewrite (filter_none (fun a => negb (ca_signalId a =? signalId)) (a0 :: l)).
    + by rewrite app_nil_r.
    + eapply Forall_impl; [exact Ha |]. simpl. intros a ->.
      by rewrite Z.eqb_refl.
Qed.

End ClientMore.


(** ** The scraper, further *)

Section ScraperMore.
Import JS Types Cheerio Database Client Scraper.

Lemma withRetry_undefined_inv {E T : Type} (config : ScraperConfig)
  (fn : action E T) (attempts : Z) (net : Net) :
  fst (withRetry config fn attempts net) = inl None -> attempts <= 0.
Proof.
  unfold withRetry. destruct (Z.to_nat attempts) as [|n] eqn:Hn; [lia |].
  cbn [withRetry_loop]. destruct (fn net) as [[e | v] net']; [| done].
  intros H. by apply withRetry_loop_never_undefined in H.
Qed.

Lemma fetchExtras_frame statusHistoryOf clerkAnswersOf (id : Z) (w : World) :
  let w' := fetchExtras statusHistoryOf clerkAnswersOf id w in
  signals (db w') = signals (db w)
  /\ categories (db w') = categories (db w)
  /\ subcategories (db w') = subcategories (db w)
  /\ scrape_progress (db w') = scrape_progress (db w)
  /\ scrape_errors (db w') = scrape_errors (db w)
  /\ stats w' = stats w.
Proof.
  unfold fetchExtras. simpl.
  by destruct (statusHistoryOf id), (clerkAnswersOf id).
Qed.

Lemma upsertSignal_frame now signal (d : DB) :
  categories (upsertSignal now signal d) = categories d
  /\ subcategories (upsertSignal now signal d) = subcategories d
  /\ scrape_progress (upsertSignal now signal d) = scrape_progress d
  /\ scrape_errors (upsertSignal now signal d) = scrape_errors d.
Proof. unfold upsertSignal. by destruct (signals d !! id signal). Qed.

Variable load : jsstring -> document.
Variable now : jsstring.
Variable server : Server.
Variable statusHistoryOf : Z -> list StatusHistoryEntry.
Variable clerkAnswersOf : Z -> list ClerkAnswer.
Variable options : ScrapeOptions.
Variable config : ScraperConfig.

Local Abbreviation scrapeSignal_ :=
  (scrapeSignal load now server statusHistoryOf clerkAnswersOf options config).
Local Abbreviation processIds_ :=
  (processIds load now server statusHistoryOf clerkAnswersOf options config).
Local Abbreviation run_ :=
  (run load now server statusHistoryOf clerkAnswersOf options config).
Local Abbreviation batches_ :=
  (batches load now server statusHistoryOf clerkAnswersOf options config).

(** The five ways [scrapeSignal] ends. *)
Lemma scrapeSignal_cases (id : Z) (w : World) :
  let r := scrapeSignal_ id w in
  let st := stats w in
  let d := db w in
  let d' := db (snd r) in
  (categories d' = categories d /\ subcategories d' = subcategories d)
  /\ ((skipExisting options = false /\ signalExists id d = true
       /\ r = (Resolved,
               mkWorld (mkStats (scraped st) (skipped st + 1) (errors st)
                          (notFound st)) d (net w)))
      \/ (fst r = Resolved
          /\ stats (snd r)
             = mkStats (scraped st) (skipped st) (errors st) (notFound st + 1)
          /\ d' = updateProgress now id 0 0 d)
      \/ (fst r = Resolved
          /\ stats (snd r)
             = mkStats (scraped st + 1) (skipped st) (errors st) (notFound st)
          /\ exists signal,
               Types.id signal = id
               /\ signals d' = signals (upsertSignal now signal d)
               /\ scrape_progress d'
                  = scrape_progress (updateProgress now id 1 0 d)
               /\ scrape_errors d' = scrape_errors d)
      \/ (fst r = Resolved
          /\ stats (snd r)
             = mkStats (scraped st) (skipped st) (errors st + 1) (notFound st)
          /\ exists msg,
               d' = logError now id msg s_scrape (updateProgress now id 0 1 d))
      \/ (fst r = Rejected /\ retryAttempts config <= 0
          /\ stats (snd r)
             = mkStats (scraped st) (skipped st) (errors st + 1) (notFound st)
          /\ d' = updateProgress now id 0 1 d)).
Proof.
  unfold scrapeSignal.
  destruct (negb (skipExisting options) && signalExists id (db w)) eqn:Hskip.
  { apply andb_true_iff in Hskip as [Hs He]. apply negb_true_iff in Hs.
    simpl. split; [done |]. by left. }
  destruct (withRetry config (getSignalDetailsHtml server id)
              (retryAttempts config) (net w)) as [[error | [html |]] net1] eqn:Hr.
  - unfold catchError. destruct error as [err |]; simpl.
    + split; [done |]. right; right; right; left.
      split; [done |]. split; [done |]. by exists (message err).
    + split; [done |]. right; right; right; right.
      split; [done |]. split; [| done].
      apply (withRetry_undefined_inv config (getSignalDetailsHtml server id)
               _ (net w)). by rewrite Hr.
  - destruct (includes html Parser.s_not_registered
              || includes html Parser.s_invalid_number).
    { simpl. split; [done |]. right; left. done. }
    destruct (Parser.parse load now now html id) as [signal |] eqn:Hp.
    2: { simpl. split; [done |]. right; left. done. }
    apply parseDocument_Some in Hp as [Hid _].
    cbn [db stats net].
    destruct (lookupCategoryIds _ _ _) as [categoryId subcategoryId].
    match goal with
    | |- context [upsertSignal now ?s (db w)] => set (signal' := s)
    end.
    set (w2 := mkWorld (stats w) (upsertSignal now signal' (db w)) net1).
    destruct (upsertSignal_frame now signal' (db w)) as (Hc & Hsc & Hpr & Her).
    destruct (fetchExtras_frame statusHistoryOf clerkAnswersOf id w2)
      as (F1 & F2 & F3 & F4 & F5 & F6).
    destruct (fetchExtras_ options); cbn [fst snd db stats net].
    + split.
      { unfold updateProgress, set_progress. cbn [categories subcategories].
        rewrite F2, F3. done. }
      right; right; left. split; [done |]. split; [by rewrite F6 |].
      exists signal'. split; [done |].
      unfold updateProgress, set_progress.
      cbn [signals scrape_progress scrape_errors].
      rewrite F1, F4, F5. cbn [w2 db]. by rewrite Hpr, Her.
    + split.
      { unfold updateProgress, set_progress. by cbn [categories subcategories w2 db]. }
      right; right; left. split; [done |]. split; [done |].
      exists signal'. split; [done |].
      unfold updateProgress, set_progress.
      cbn [signals scrape_progress scrape_errors w2 db]. by rewrite Hpr, Her.
  - simpl. split; [done |]. right; left. done.
Qed.

Lemma scrapeSignal_counts (id : Z) (w : World) :
  let r := scrapeSignal_ id w in
  totalProcessed (stats (snd r)) = totalProcessed (stats w) + 1
  /\ scraped (stats w) <= scraped (stats (snd r))
  /\ skipped (stats w) <= skipped (stats (snd r))
  /\ errors (stats w) <= errors (stats (snd r))
  /\ notFound (stats w) <= notFound (stats (snd r))
  /\ totalScraped (getProgress (db (snd r))) - totalScraped (getProgress (db w))
     = scraped (stats (snd r)) - scraped (stats w)
  /\ totalErrors (getProgress (db (snd r))) - totalErrors (getProgress (db w))
     = errors (stats (snd r)) - errors (stats w)
  /\ (fst r = Resolved ->
      Z.of_nat (length (scrape_errors (db (snd r))))
      = Z.of_nat (length (scrape_errors (db w)))
        + (errors (stats (snd r)) - errors (stats w))).
Proof.
  destruct (scrapeSignal_cases id w) as [_ H]. cbv zeta in *.
  unfold totalProcessed, getProgress.
  destruct H as [(_ & _ & ->) | [(_ & -> & ->) | [(_ & -> & s & _ & _ & -> & ->)
    | [(_ & -> & msg & ->) | (Hrej & _ & -> & ->)]]]]; simpl.
  - repeat split; lia.
  - repeat split; lia.
  - repeat split; lia.
  - rewrite length_app. simpl. repeat split; lia.
  - rewrite Hrej. repeat split; (lia || done).
Qed.

Lemma scrapeSignal_frame (id : Z) (w : World) :
  let r := scrapeSignal_ id w in
  (forall j, j <> id -> signals (db (snd r)) !! j = signals (db w) !! j)
  /\ (forall j, is_Some (signals (db w) !! j) ->
                is_Some (signals (db (snd r)) !! j))
  /\ categories (db (snd r)) = categories (db w)
  /\ subcategories (db (snd r)) = subcategories (db w)
  /\ lastScrapedId (getProgress (db w))
     <= lastScrapedId (getProgress (db (snd r)))
  /\ (fst r = Resolved ->
      signalExists id (db (snd r)) = true
      \/ id <= lastScrapedId (getProgress (db (snd r)))).
Proof.
  destruct (scrapeSignal_cases id w) as [[Hc Hs] H]. cbv zeta in *.
  unfold getProgress.
  destruct H as [(_ & He & ->) | [(_ & _ & ->) | [(_ & _ & s & Hid & Hsig & -> & _)
    | [(_ & _ & msg & ->) | (_ & _ & _ & ->)]]]]; simpl.
  - repeat split; (done || lia || (intros; by left)).
  - repeat split; (done || lia || (intros; right; lia)).
  - split; [| split; [| split; [done | split; [done | split; [lia |]]]]].
    + intros j Hj. rewrite Hsig. apply upsertSignal_lookup_other. by rewrite Hid.
    + intros j Hj. rewrite Hsig.
      pose proof (signalExists_upsertSignal now s (db w) j) as E.
      unfold signalExists in E.
      destruct (signals (upsertSignal now s (db w)) !! j); [done |].
      destruct Hj as [x Hx]. rewrite Hx in E.
      by rewrite orb_true_r in E.
    + intros _. right. lia.
  - repeat split; (done || lia || (intros; right; lia)).
  - repeat split; (done || lia || (intros; right; lia)).
Qed.


Lemma processIds_cons (id : Z) (ids : list Z) (w : World) :
  processIds_ (id :: ids) w
  = match scrapeSignal_ id w with
    | (Resolved, w1) =>
        processIds_ ids
          (mkWorld (stats w1) (db w1) (sleep (delay options) (net w1)))
    | (Rejected, w1) => (Rejected, w1)
    | (Pending, w1) => (Pending, w1)
    end.
Proof. reflexivity. Qed.

Lemma processIds_counts (ids : list Z) :
  forall w : World,
    let r := processIds_ ids w in
    (fst r = Resolved ->
     totalProcessed (stats (snd r))
     = totalProcessed (stats w) + Z.of_nat (length ids))
    /\ scraped (stats w) <= scraped (stats (snd r))
    /\ skipped (stats w) <= skipped (stats (snd r))
    /\ errors (stats w) <= errors (stats (snd r))
    /\ notFound (stats w) <= notFound (stats (snd r))
    /\ totalScraped (getProgress (db (snd r))) - totalScraped (getProgress (db w))
       = scraped (stats (snd r)) - scraped (stats w)
    /\ totalErrors (getProgress (db (snd r))) - totalErrors (getProgress (db w))
       = errors (stats (snd r)) - errors (stats w)
    /\ (fst r = Resolved ->
        Z.of_nat (length (scrape_errors (db (snd r))))
        = Z.of_nat (length (scrape_errors (db w)))
          + (errors (stats (snd r)) - errors (stats w))).
Proof.
  induction ids as [|id ids IH]; intros w; cbv zeta.
  - simpl. repeat split; lia.
  - rewrite processIds_cons.
    pose proof (scrapeSignal_counts id w) as H. cbv zeta in H.
    destruct (scrapeSignal_ id w) as [[] w1]; simpl in H.
    + specialize (IH (mkWorld (stats w1) (db w1) (sleep (delay options) (net w1)))).
      cbv zeta in IH. simpl in IH.
      destruct H as (H1 & H2 & H3 & H4 & H5 & H6 & H7 & H8).
      destruct IH as (I1 & I2 & I3 & I4 & I5 & I6 & I7 & I8).
      specialize (H8 eq_refl).
      repeat split; try lia.
      * intros Hr. specialize (I1 Hr). simpl length. lia.
      * intros Hr. specialize (I8 Hr). lia.
    + simpl. destruct H as (H1 & H2 & H3 & H4 & H5 & H6 & H7 & H8).
      repeat split; (done || lia).
    + simpl. destruct H as (H1 & H2 & H3 & H4 & H5 & H6 & H7 & H8).
      repeat split; (done || lia).
Qed.

Lemma processIds_frame (ids : list Z) :
  forall w : World,
    let r := processIds_ ids w in
    (forall j, j ∉ ids -> signals (db (snd r)) !! j = signals (db w) !! j)
    /\ (forall j, is_Some (signals (db w) !! j) ->
                  is_Some (signals (db (snd r)) !! j))
    /\ categories (db (snd r)) = categories (db w)
    /\ subcategories (db (snd r)) = subcategories (db w)
    /\ lastScrapedId (getProgress (db w))
       <= lastScrapedId (getProgress (db (snd r)))
    /\ (fst r = Resolved ->
        forall i, i ∈ ids ->
          signalExists i (db (snd r)) = true
          \/ i <= lastScrapedId (getProgress (db (snd r)))).
Proof.
  induction ids as [|id ids IH]; intros w; cbv zeta.
  - simpl. repeat split; (done || lia || idtac).
    intros _ i Hi. by apply elem_of_nil in Hi.
  - rewrite processIds_cons.
    pose proof (scrapeSignal_frame id w) as H. cbv zeta in H.
    destruct (scrapeSignal_ id w) as [[] w1]; simpl in H.
    + specialize (IH (mkWorld (stats w1) (db w1) (sleep (delay options) (net w1)))).
      cbv zeta in IH. simpl in IH.
      destruct H as (H1 & H2 & H3 & H4 & H5 & H6).
      destruct IH as (I1 & I2 & I3 & I4 & I5 & I6).
      specialize (H6 eq_refl).
      split; [| split; [| split; [congruence | split; [congruence | split; [lia |]]]]].
      * intros j Hj. apply not_elem_of_cons in Hj as [Hj1 Hj2].
        rewrite I1 by done. by apply H1.
      * intros j Hj. by apply I2, H2.
      * intros Hr i Hi. apply elem_of_cons in Hi as [-> | Hi].
        -- destruct H6 as [He | Hle]; [left | right; lia].
           unfold signalExists in *.
           destruct (signals (db w1) !! id) eqn:E; [| done].
           destruct (I2 id ltac:(by rewrite E)) as [x ->]. done.
        -- by apply I6.
    + simpl. destruct H as (H1 & H2 & H3 & H4 & H5 & H6).
      split; [| split; [| split; [done | split; [done | split; [lia | done]]]]].
      * intros j Hj. apply not_elem_of_cons in Hj as [Hj1 Hj2]. by apply H1.
      * done.
    + simpl. destruct H as (H1 & H2 & H3 & H4 & H5 & H6).
      split; [| split; [| split; [done | split; [done | split; [lia | done]]]]].
      * intros j Hj. apply not_elem_of_cons in Hj as [Hj1 Hj2]. by apply H1.
      * done.
Qed.















End ScraperMore.

(** X14: a run that completes has counted every planned id exactly once:
    the four counters of the run add up to the number of ids handed to the
    batches, and none of them ever goes down.  [run] prints this sum as the
    number of ids processed. *)
Theorem processIds_accounts_for_every_id :
  forall load now server statusHistoryOf clerkAnswersOf options config
         (ids : list Z) (w : Scraper.World),
    let r := Scraper.processIds load now server statusHistoryOf clerkAnswersOf
               options config ids w in
    fst r = Scraper.Resolved ->
    Scraper.totalProcessed (Scraper.stats (snd r))
    = Scraper.totalProcessed (Scraper.stats w) + Z.of_nat (length ids)
    /\ Scraper.scraped (Scraper.stats w) <= Scraper.scraped (Scraper.stats (snd r))
    /\ Scraper.skipped (Scraper.stats w) <= Scraper.skipped (Scraper.stats (snd r))
    /\ Scraper.errors (Scraper.stats w) <= Scraper.errors (Scraper.stats (snd r))
    /\ Scraper.notFound (Scraper.stats w) <= Scraper.notFound (Scraper.stats (snd r)).
Proof.
  intros load now server statusHistoryOf clerkAnswersOf options config ids w r Hr.
  destruct (processIds_counts load now server statusHistoryOf clerkAnswersOf
              options config ids w) as (H1 & H2 & H3 & H4 & H5 & _).
  split; [by apply H1 |]. done.
Qed.

Lemma processIds_accounts_witness :
  let r := Scraper.processIds Samples.load_nothing Samples.t1 Samples.server_404
             Samples.no_history Samples.no_answers
             (Samples.options_1_10 false false) Client.DEFAULT_CONFIG
             [4; 5; 6] Samples.world_with_5 in
  fst r = Scraper.Resolved
  /\ Scraper.totalProcessed (Scraper.stats (snd r)) = 3.
Proof.
  split; [vm_compute; reflexivity |].
  exact (proj1 (processIds_accounts_for_every_id Samples.load_nothing Samples.t1
                  Samples.server_404 Samples.no_history Samples.no_answers
                  (Samples.options_1_10 false false) Client.DEFAULT_CONFIG
                  [4; 5; 6] Samples.world_with_5 eq_refl)).
Defined.
(** X15: the counters kept in the progress row follow the counters of the
    run: over any list of ids, [totalScraped] grows by what the run counted
    as scraped and [totalErrors] by what it counted as errors, and when the
    run completes the error log has grown by one row per counted error.
    Ids that are skipped or not found change none of the three. *)
Theorem persisted_counters_follow_the_run :
  forall load now server statusHistoryOf clerkAnswersOf options config
         (ids : list Z) (w : Scraper.World),
    let r := Scraper.processIds load now server statusHistoryOf clerkAnswersOf
               options config ids w in
    let p := Database.getProgress (Scraper.db w) in
    let p' := Database.getProgress (Scraper.db (snd r)) in
    let st := Scraper.stats w in
    let st' := Scraper.stats (snd r) in
    Types.totalScraped p' - Types.totalScraped p
    = Scraper.scraped st' - Scraper.scraped st
    /\ Types.totalErrors p' - Types.totalErrors p
       = Scraper.errors st' - Scraper.errors st
    /\ (fst r = Scraper.Resolved ->
        Z.of_nat (length (Database.scrape_errors (Scraper.db (snd r))))
        = Z.of_nat (length (Database.scrape_errors (Scraper.db w)))
          + (Scraper.errors st' - Scraper.errors st)).
Proof.
  intros load now server statusHistoryOf clerkAnswersOf options config ids w.
  destruct (processIds_counts load now server statusHistoryOf clerkAnswersOf
              options config ids w) as (_ & _ & _ & _ & _ & H6 & H7 & H8).
  done.
Qed.

(** Two ids against a site that refuses every request: two errors, two
    rows in the log. *)
Lemma persisted_counters_witness :
  let r := Scraper.processIds Samples.load_nothing Samples.t1 Samples.server_down
             Samples.no_history Samples.no_answers
             (Samples.options_1_10 false false) Client.DEFAULT_CONFIG
             [1; 2] Samples.world_with_5 in
  fst r = Scraper.Resolved
  /\ Scraper.errors (Scraper.stats (snd r)) = 2
  /\ Z.of_nat (length (Database.scrape_errors (Scraper.db (snd r)))) = 0 + (2 - 0).
Proof.
  split; [vm_compute; reflexivity |]. split; [vm_compute; reflexivity |].
  exact (proj2 (proj2 (persisted_counters_follow_the_run Samples.load_nothing
                         Samples.t1 Samples.server_down Samples.no_history
                         Samples.no_answers (Samples.options_1_10 false false)
                         Client.DEFAULT_CONFIG [1; 2] Samples.world_with_5))
           eq_refl).
Defined.

(** X16: processing a list of ids changes the stored signals only at these
    ids: every other row is left as it was, no row is ever deleted, and the
    category and subcategory tables are not written, whether the run
    completes or not. *)
Theorem processIds_touches_only_its_ids :
  forall load now server statusHistoryOf clerkAnswersOf options config
         (ids : list Z) (w : Scraper.World),
    let d := Scraper.db w in
    let d' := Scraper.db (snd (Scraper.processIds load now server
                                 statusHistoryOf clerkAnswersOf options config
                                 ids w)) in
    (forall j, j ∉ ids -> Database.signals d' !! j = Database.signals d !! j)
    /\ (forall j, is_Some (Database.signals d !! j) ->
                  is_Some (Database.signals d' !! j))
    /\ Database.categories d' = Database.categories d
    /\ Database.subcategories d' = Database.subcategories d.
Proof.
  intros load now server statusHistoryOf clerkAnswersOf options config ids w.
  destruct (processIds_frame load now server statusHistoryOf clerkAnswersOf
              options config ids w) as (H1 & H2 & H3 & H4 & _).
  done.
Qed.

Lemma processIds_touches_witness :
  (5 ∉ [4; 6])
  /\ (Database.signals
        (Scraper.db (snd (Scraper.processIds Samples.load_nothing Samples.t1
                            Samples.server_404 Samples.no_history
                            Samples.no_answers (Samples.options_1_10 false false)
                            Client.DEFAULT_CONFIG [4; 6] Samples.world_with_5))))
      !! 5
      = (Database.signals Samples.db_with_5) !! 5.
Proof.
  assert (H : 5 ∉ [4; 6]).
  { intros H. apply list_elem_of_In in H. simpl in H. lia. }
  split; [exact H |].
  exact (proj1 (processIds_touches_only_its_ids Samples.load_nothing Samples.t1
                  Samples.server_404 Samples.no_history Samples.no_answers
                  (Samples.options_1_10 false false) Client.DEFAULT_CONFIG
                  [4; 6] Samples.world_with_5) 5 H).
Defined.
Section SyncMore.
Import JS Types Cheerio Database Client Scraper.

Lemma mapM_subcategoryRow (data : list ApiItem) :
  mapM subcategoryRow (getSubcategories (inr data))
  = Some ((fun item =>
             mkSubcategoryRow (ID item)
               (trim (join [45%N] (List.tl (split 45 (Value item)))))
               (Value item)
               (default 0 (extractParentCategoryId (ID item)))) <$> data).
Proof.
  induction data as [|item data IH]; [done |].
  cbn [getSubcategories fmap list_fmap] in *.
  cbn [mapM]. rewrite IH. unfold subcategoryRow at 1. cbn [sub_parentCategoryId].
  pose proof (extractParentCategoryId_not_NaN (ID item)) as Hp.
  destruct (extractParentCategoryId (ID item)) as [p|]; [| done].
  reflexivity.
Qed.

Lemma syncCategories_resolves (categoriesResponse subcategoriesResponse :
                                 Response (list ApiItem)) (d : DB) :
  fst (syncCategories categoriesResponse subcategoriesResponse d) = Resolved.
Proof.
  unfold syncCategories.
  destruct (0 <? length (getSubcategories subcategoriesResponse))%nat eqn:E;
    [| done].
  destruct subcategoriesResponse as [e | data]; [done |].
  by rewrite mapM_subcategoryRow.
Qed.

Lemma find_rev_unique {R} (key : R -> Z) (l : list R) (x : R) :
  List.NoDup (key <$> l) -> x ∈ l ->
  List.find (fun r => key r =? key x) (rev l) = Some x.
Proof.
  induction l as [|y l IH] using rev_ind; intros Hnd Hx.
  - by apply elem_of_nil in Hx.
  - rewrite rev_app_distr. simpl. rewrite fmap_app in Hnd. simpl in Hnd.
    apply List.NoDup_remove in Hnd as [Hnd Hy]. rewrite app_nil_r in Hnd, Hy.
    apply elem_of_app in Hx as [Hx | Hx].
    + destruct (Z.eqb_spec (key y) (key x)) as [E | _]; [| by apply IH].
      exfalso. apply Hy. rewrite E. apply list_elem_of_In.
      by apply list_elem_of_fmap_2.
    + apply list_elem_of_singleton in Hx as ->. by rewrite Z.eqb_refl.
Qed.

Lemma foldl_insert_unique {R} (key : R -> Z) (l : list R) (tbl : gmap Z R)
  (x : R) :
  NoDup (key <$> l) -> x ∈ l ->
  foldl (fun t r => <[key r := r]> t) tbl l !! key x = Some x.
Proof.
  intros Hnd Hx. rewrite foldl_insert_lookup.
  by rewrite find_rev_unique by (by apply NoDup_ListNoDup || done).
Qed.

Lemma foldl_insert_other {R} (key : R -> Z) (l : list R) (tbl : gmap Z R)
  (i : Z) :
  i ∉ key <$> l ->
  foldl (fun t r => <[key r := r]> t) tbl l !! i = tbl !! i.
Proof.
  intros Hi. rewrite foldl_insert_lookup.
  destruct (List.find (fun r => key r =? i) (rev l)) as [r |] eqn:E; [| done].
  apply List.find_some in E as [Hin Hk]. exfalso. apply Hi.
  apply Z.eqb_eq in Hk as <-. apply list_elem_of_fmap_2.
  apply list_elem_of_In. by apply List.in_rev.
Qed.

End SyncMore.



(** A batch size of 0 and a concurrency of 0 on the ids 1 to 10. *)
Example run_batchSize_0 :
  fst (Scraper.run Samples.load_nothing Samples.t1 Samples.server_404
         Samples.no_history Samples.no_answers
         (Scraper.mkScrapeOptions 1 10 5 200 false false false false 0)
         Client.DEFAULT_CONFIG Samples.world_with_5)
  = Scraper.Pending
  /\ fst (Scraper.run Samples.load_nothing Samples.t1 Samples.server_404
            Samples.no_history Samples.no_answers
            (Scraper.mkScrapeOptions 1 10 0 200 false false false false 100)
            Client.DEFAULT_CONFIG Samples.world_with_5)
     = Scraper.Rejected.
Proof. vm_compute. by split. Qed.


(** X19: the category sync stores the lists of the site as they are.  When
    the ids of a list are distinct, every category is stored under its id
    with its name and no parent, and every subcategory under its id with
    its full name and the parent [extractParentCategoryId] derives from the
    digits of the id; rows at other ids, the signals and the progress row
    are left alone.  Two failed requests change nothing, and the sync
    completes in every case. *)
Theorem syncCategories_stores_the_lists :
  forall (cats subs : list Types.ApiItem) (d : Database.DB),
    (forall item, item ∈ subs -> Z.abs (Types.ID item) < 10 ^ 21) ->
    let r := Scraper.syncCategories (inr cats) (inr subs) d in
    fst r = Scraper.Resolved
    /\ (NoDup (Types.ID <$> cats) ->
        forall item, item ∈ cats ->
          Database.categories (snd r) !! Types.ID item
          = Some (Database.mkCategoryRow (Types.ID item) (Types.Value item) None))
    /\ (NoDup (Types.ID <$> subs) ->
        forall item, item ∈ subs ->
          exists row,
            Database.subcategories (snd r) !! Types.ID item = Some row
            /\ Database.s_id row = Types.ID item
            /\ Database.s_full_name row = Types.Value item
            /\ Some (Database.s_parent_category_id row)
               = Client.extractParentCategoryId (Types.ID item))
    /\ (forall i, i ∉ Types.ID <$> cats ->
          Database.categories (snd r) !! i = Database.categories d !! i)
    /\ (forall i, i ∉ Types.ID <$> subs ->
          Database.subcategories (snd r) !! i = Database.subcategories d !! i)
    /\ Database.signals (snd r) = Database.signals d
    /\ Database.scrape_progress (snd r) = Database.scrape_progress d
    /\ (forall e1 e2,
          Scraper.syncCategories (inl e1) (inl e2) d = (Scraper.Resolved, d)).
Proof.
  intros cats subs d _ r.
  split; [apply syncCategories_resolves |].
  assert (Hr : r = (Scraper.Resolved,
                    Database.upsertSubcategories
                      ((fun item =>
                          Database.mkSubcategoryRow (Types.ID item)
                            (JS.trim (JS.join [45%N]
                                        (List.tl (JS.split 45 (Types.Value item)))))
                            (Types.Value item)
                            (default 0 (Client.extractParentCategoryId
                                          (Types.ID item)))) <$> subs)
                      (Database.upsertCategories
                         ((fun item =>
                             Database.mkCategoryRow (Types.ID item)
                               (Types.Value item) None) <$> cats) d))).
  { unfold r, Scraper.syncCategories. rewrite mapM_subcategoryRow.
    assert (Hc : (if (0 <? length (Client.getCategories (inr cats)))%nat
                  then Database.upsertCategories
                         (Scraper.categoryRow <$> Client.getCategories (inr cats)) d
                  else d)
                 = Database.upsertCategories
                     ((fun item =>
                         Database.mkCategoryRow (Types.ID item)
                           (Types.Value item) None) <$> cats) d).
    { destruct cats as [|c cats]; [by destruct d |].
      cbn [Client.getCategories]. rewrite <- list_fmap_compose. done. }
    rewrite Hc. destruct subs as [|s subs]; [| done].
    simpl. unfold Database.upsertSubcategories. simpl.
    by destruct (Database.upsertCategories _ d). }
  rewrite Hr. cbn [snd].
  unfold Database.upsertSubcategories, Database.upsertCategories.
  cbn [Database.categories Database.subcategories Database.signals
       Database.scrape_progress].
  split; [| split; [| split; [| split; [| split; [done | split; [done |]]]]]].
  - intros Hnd item Hin.
    set (f := fun item : Types.ApiItem =>
                Database.mkCategoryRow (Types.ID item) (Types.Value item) None).
    apply (foldl_insert_unique Database.c_id (f <$> cats) _ (f item)).
    + by rewrite <- list_fmap_compose.
    + by apply list_elem_of_fmap_2.
  - intros Hnd item Hin.
    set (f := fun item : Types.ApiItem =>
                Database.mkSubcategoryRow (Types.ID item)
                  (JS.trim (JS.join [45%N]
                              (List.tl (JS.split 45 (Types.Value item)))))
                  (Types.Value item)
                  (default 0 (Client.extractParentCategoryId (Types.ID item)))).
    exists (f item). split; [| split; [done | split; [done |]]].
    + apply (foldl_insert_unique Database.s_id (f <$> subs) _ (f item)).
      * by rewrite <- list_fmap_compose.
      * by apply list_elem_of_fmap_2.
    + simpl. pose proof (extractParentCategoryId_not_NaN (Types.ID item)) as Hp.
      by destruct (Client.extractParentCategoryId (Types.ID item)).
  - intros i Hi. apply (foldl_insert_other Database.c_id).
    by rewrite <- list_fmap_compose.
  - intros i Hi. apply (foldl_insert_other Database.s_id).
    by rewrite <- list_fmap_compose.
  - intros e1 e2. done.
Qed.

Lemma syncCategories_stores_witness :
  (forall item, item ∈ Samples.api_subcategories ->
                Z.abs (Types.ID item) < 10 ^ 21)
  /\ fst (Scraper.syncCategories (inr Samples.api_categories)
            (inr Samples.api_subcategories) (Database.initSchema Samples.t0))
     = Scraper.Resolved.
Proof.
  assert (H : forall item, item ∈ Samples.api_subcategories ->
                           Z.abs (Types.ID item) < 10 ^ 21).
  { intros item Hin. apply list_elem_of_In in Hin. simpl in Hin.
    destruct Hin as [<- | []]. simpl. lia. }
  split; [exact H |].
  exact (proj1 (syncCategories_stores_the_lists Samples.api_categories
                  Samples.api_subcategories (Database.initSchema Samples.t0) H)).
Defined.


(** ** The parser, further *)

Section ParserMore.
Import JS Regex Cheerio Types Parser.

Lemma trimStart_suffix (s : jsstring) :
  exists ws, s = ws ++ trimStart s.
Proof.
  induction s as [|c s [ws IH]]; [by exists [] |]. simpl.
  destruct (isWhiteSpace c); [| by exists []].
  exists (c :: ws). simpl. by rewrite <- IH.
Qed.

Lemma trimStart_head (s : jsstring) (c : N) (r : jsstring) :
  trimStart s = c :: r -> isWhiteSpace c = false.
Proof.
  induction s as [|x s IH]; [done |]. simpl.
  destruct (isWhiteSpace x) eqn:E; [exact IH |]. by intros [= <- _].
Qed.

Lemma trimStart_fixed (s : jsstring) :
  (forall c r, s = c :: r -> isWhiteSpace c = false) -> trimStart s = s.
Proof.
  destruct s as [|c r]; [done |]. intros H. simpl. by rewrite (H c r eq_refl).
Qed.


Lemma trim_idem (s : jsstring) : trim (trim s) = trim s.
Proof.
  unfold trim, trimEnd.
  set (a := trimStart s). set (b := trimStart (rev a)).
  assert (H1 : trimStart (rev b) = rev b).
  { apply trimStart_fixed. intros c r Hc.
    destruct (trimStart_suffix (rev a)) as [ws Hws]. fold b in Hws.
    assert (Ha : a = rev b ++ rev ws)
      by (rewrite <- rev_app_distr, <- Hws; by rewrite rev_involutive).
    rewrite Hc in Ha. simpl in Ha. by apply (trimStart_head s c (r ++ rev ws)). }
  rewrite H1, rev_involutive.
  assert (H2 : trimStart b = b).
  { apply trimStart_fixed. intros c r Hc. by apply (trimStart_head (rev a) c r). }
  by rewrite H2.
Qed.

Lemma or_null_trim (s t : jsstring) :
  or_null (trim s) = Some t -> t <> [] /\ trim t = t.
Proof.
  unfold or_null. destruct (trim s) as [|c r] eqn:E; [done |].
  simpl. intros [= <-]. split; [done |]. rewrite <- E. apply trim_idem.
Qed.

Lemma or_opt_Some (a b : option jsstring) (t : jsstring) :
  or_opt a b = Some t -> (a = Some t /\ t <> []) \/ b = Some t.
Proof.
  unfold or_opt. destruct a as [[|c r]|]; simpl; intros H; try by right.
  left. by inversion H.
Qed.

Lemma extractRowValue_labels_Some (labels : list place) (t : jsstring) :
  extractRowValue_labels labels = Some t -> t <> [] /\ trim t = t.
Proof.
  induction labels as [|labelEl labels IH]; [done |]. simpl.
  destruct (List.head (siblings labelEl col_md_10)) as [v |].
  - destruct (trim (textContent v)) as [|c r] eqn:E; simpl.
    + destruct (next labelEl) as [n |]; [| exact IH].
      destruct (trim (textContent n)) as [|c' r'] eqn:E'; simpl; [exact IH |].
      destruct (_ <? 500)%nat; [| exact IH].
      intros [= <-]. split; [done |]. rewrite <- E'. apply trim_idem.
    + intros [= <-]. split; [done |]. rewrite <- E. apply trim_idem.
  - destruct (next labelEl) as [n |]; [| exact IH].
    destruct (trim (textContent n)) as [|c' r'] eqn:E'; simpl; [exact IH |].
    destruct (_ <? 500)%nat; [| exact IH].
    intros [= <-]. split; [done |]. rewrite <- E'. apply trim_idem.
Qed.

Lemma extractRowValue_rows_Some (label : jsstring) (rows : list place)
  (t : jsstring) :
  extractRowValue_rows label rows = Some t -> t <> [] /\ trim t = t.
Proof.
  induction rows as [|row rows IH]; [done |]. simpl.
  destruct (includes (textContent (self row)) label); [| exact IH].
  destruct (Cheerio.first (find row col_md_10)) as [|v l]; [exact IH |].
  destruct (trim (textContent (self v))) as [|c r] eqn:E; simpl; [exact IH |].
  intros [= <-]. split; [done |]. rewrite <- E. apply trim_idem.
Qed.

Lemma extractRowValue_Some (dom : document) (label t : jsstring) :
  extractRowValue dom label = Some t -> t <> [] /\ trim t = t.
Proof.
  unfold extractRowValue.
  destruct (extractRowValue_labels _) as [x |] eqn:E.
  - intros [= <-]. by apply extractRowValue_labels_Some in E.
  - apply extractRowValue_rows_Some.
Qed.

Lemma extractDescription_selectors_Some (dom : document)
  (sels : list (list selector)) (t : jsstring) :
  extractDescription_selectors dom sels = Some t ->
  (10 < length t)%nat /\ trim t = t.
Proof.
  induction sels as [|sel sels IH]; [done |]. simpl.
  destruct (Cheerio.first (select dom sel)) as [|element l]; [exact IH |].
  destruct (truthy_str (trim (textContent (self element)))); simpl; [| exact IH].
  destruct (Nat.ltb_spec 10 (length (trim (textContent (self element)))));
    [| exact IH].
  intros [= <-]. split; [done | apply trim_idem].
Qed.

Lemma extractDescription_Some (dom : document) (t : jsstring) :
  extractDescription dom = Some t -> (10 < length t)%nat /\ trim t = t.
Proof.
  unfold extractDescription.
  destruct (extractDescription_selectors _ _) as [x |] eqn:E.
  - intros [= <-]. by apply extractDescription_selectors_Some in E.
  - destruct (includes _ s_description); [| done].
    destruct (match_ _ description_re) as [m |]; [| done].
    destruct (group 1 m) as [g |]; [| done].
    destruct (truthy_str g); [| done].
    destruct (Nat.ltb_spec 10 (length (trim g))); [| done].
    destruct (length (trim g) <? 5000)%nat; [| done]. simpl.
    intros [= <-]. split; [done | apply trim_idem].
Qed.












(** The location of the problem comes before the location on the map: a
    search for the shorter label finds the longer one first. *)
Example extractRowValue_label_is_contained :
  extractRowValue
    (Samples.fields_page
       [ (s_problem_location, u " на тротоара ");
         (s_location, Samples.pair_text) ]) s_location
  = Some (u "на тротоара").
Proof. vm_compute. reflexivity. Qed.

Lemma parse_status_trimmed (dom : document) :
  trim (parse_status dom) = parse_status dom.
Proof.
  unfold parse_status, or_str.
  repeat match goal with
         | |- context [if truthy_str ?x then _ else _] => destruct (truthy_str x)
         end; apply trim_idem.
Qed.

Lemma parse_category_clean (dom : document) :
  let clean := fun o : option jsstring =>
    forall t, o = Some t -> t <> [] /\ trim t = t in
  clean (fst (parse_category dom)) /\ clean (snd (parse_category dom)).
Proof.
  intros clean. unfold parse_category.
  destruct (Cheerio.first (select dom sel_categoryH4)) as [|categoryH4 l];
    [by split |].
  set (h4Text := trim (textContent (self categoryH4))).
  set (subcatItalic := trim (text (Cheerio.last (find categoryH4 [t "i"])))).
  assert (Hsub : clean (if truthy_str subcatItalic then Some subcatItalic
                        else None)).
  { intros x. destruct subcatItalic as [|c r] eqn:E; [done |].
    cbn [truthy_str]. intros [= <-]. split; [done |].
    rewrite <- E. apply trim_idem. }
  assert (Hcat : clean
            match trim <$> split 47 h4Text with
            | p0 :: rest_ =>
                match or_null (trim (remove_match p0 blank_re)), rest_ with
                | None, p1 :: _ =>
                    or_null (trim (removeFirst p1
                                     (default []
                                        (if truthy_str subcatItalic
                                         then Some subcatItalic else None))))
                | _, _ => or_null (trim (remove_match p0 blank_re))
                end
            | [] => None
            end).
  { intros x. destruct (trim <$> split 47 h4Text) as [|p0 rest_]; [done |].
    destruct (or_null (trim (remove_match p0 blank_re))) as [y |] eqn:E.
    - intros [= <-]. by apply or_null_trim in E.
    - destruct rest_ as [|p1 rest_]; [done |]. apply or_null_trim. }
  destruct (includes h4Text [47%N]); [| by split].
  destruct (split 47 h4Text) as [|sp0 [|sp1 rest]]; [by split | by split |].
  cbn [fst snd]. split.
  - intros x. apply or_null_trim.
  - intros x. unfold or_str.
    destruct subcatItalic as [|c r] eqn:E; cbn [truthy_str].
    + apply or_null_trim.
    + unfold or_null. cbn [truthy_str]. intros [= <-]. split; [done |].
      rewrite <- E. apply trim_idem.
Qed.

(** X22: the record [parse] builds.  It carries the id it was asked for,
    the registration date a second time as the status date, the first
    reading of the clock as the time of creation and the second as the
    time of the update, and no raw page; its status is a trimmed
    string, possibly empty; each of district, neighbourhood, address,
    problem location, category name and subcategory name is either null or
    a trimmed string that is not empty, and the description is never the
    empty string. *)
Theorem parse_record_invariants :
  forall (load : jsstring -> document) (now now' html : jsstring)
         (signalId : Z) (signal : Signal),
    parse load now now' html signalId = Some signal ->
    let clean := fun o : option jsstring =>
      forall t, o = Some t -> t <> [] /\ trim t = t in
    id signal = signalId
    /\ statusDate signal = registrationDate signal
    /\ createdAt signal = now /\ updatedAt signal = now'
    /\ rawHtml signal = None
    /\ (exists st, status signal = Some st /\ trim st = st)
    /\ clean (district signal) /\ clean (neighborhood signal)
    /\ clean (address signal) /\ clean (problemLocation signal)
    /\ clean (categoryName signal) /\ clean (subcategoryName signal)
    /\ description signal <> Some [].
Proof.
  intros load now now' html signalId signal H clean.
  unfold parse, parseDocument in H.
  destruct (includes _ s_not_registered || includes _ s_invalid_number);
    [discriminate |].
  pose proof (parse_category_clean (load html)) as [Hc Hs].
  destruct (parse_category (load html)) as [cn sn].
  destruct (parse_coordinates _ _) as [lat lng].
  injection H as <-. cbn [fst snd] in Hc, Hs.
  assert (Hrow : forall label, clean (extractRowValue (load html) label))
    by (intros label t; apply extractRowValue_Some).
  assert (Hor : forall a b, clean a -> clean b -> clean (or_opt a b)).
  { intros a b Ha Hb t Ht. apply or_opt_Some in Ht as [[Ht _] | Ht]; eauto. }
  cbn [id statusDate registrationDate createdAt updatedAt rawHtml status
       district neighborhood address problemLocation categoryName
       subcategoryName description].
  do 5 (split; [reflexivity |]).
  split; [exists (parse_status (load html)); split;
          [done | apply parse_status_trimmed] |].
  split; [apply Hrow |].
  split; [apply Hor; [apply Hrow | apply Hor; apply Hrow] |].
  split; [apply Hor; [apply Hrow | apply Hor; apply Hrow] |].
  split; [apply Hor; apply Hrow |].
  split; [exact Hc |]. split; [exact Hs |].
  destruct (or_opt (attr _ _) None) as [d |] eqn:E.
  - apply or_opt_Some in E as [[_ Hd] | E]; [| done]. by intros [= ->].
  - intros Hd. apply extractDescription_Some in Hd as [Hd _]. simpl in Hd. lia.
Qed.

Lemma parse_record_witness :
  exists signal,
    parse (fun _ => Samples.doc_signal) Samples.t0 Samples.t1 [] 536
    = Some signal
    /\ id signal = 536
    /\ createdAt signal = Samples.t0 /\ updatedAt signal = Samples.t1.
Proof.
  destruct (parse (fun _ => Samples.doc_signal) Samples.t0 Samples.t1 [] 536)
    as [signal |] eqn:H; [| by vm_compute in H].
  exists signal. split; [done |].
  pose proof (parse_record_invariants _ _ _ _ _ _ H) as (H1 & _ & H3 & H4 & _).
  exact (conj H1 (conj H3 H4)).
Defined.

(** X23: [parseSubcategoryFromFullName] splits a full name at its first
    dash: the category is the trimmed text before it and the subcategory
    the trimmed text after it, further dashes included; a name without a
    dash is a category with an empty subcategory.  The subcategory is the
    name [getSubcategories] stores for the same full name. *)
Theorem parseSubcategoryFromFullName_splits_at_first_dash :
  forall fullName : jsstring,
    (forall category rest,
       fullName = category ++ 45%N :: rest -> 45%N ∉ category ->
       parseSubcategoryFromFullName fullName = (trim category, trim rest))
    /\ (45%N ∉ fullName ->
        parseSubcategoryFromFullName fullName = (trim fullName, []))
    /\ (forall i : Z,
          Forall (fun sub => sub_name sub
                             = snd (parseSubcategoryFromFullName fullName))
            (Client.getSubcategories (inr [mkApiItem i fullName]))).
Proof.
  intros fullName. unfold parseSubcategoryFromFullName.
  assert (Hor : forall x, or_str x [] = x) by (by intros [|c r]).
  split; [| split].
  - intros category rest -> Hc. rewrite split_app_sep by done.
    cbn [List.tl]. by rewrite Hor, join_split.
  - intros Hn. rewrite split_no_sep by done. cbn [List.tl join]. by rewrite Hor.
  - intros i. by repeat constructor.
Qed.

Lemma parseSubcategoryFromFullName_witness :
  (45%N ∉ Samples.full_name_category)
  /\ parseSubcategoryFromFullName Samples.full_name
     = (trim Samples.full_name_category, trim Samples.full_name_rest)
  /\ trim Samples.full_name_rest = u "Дупки - улица".
Proof.
  assert (H : 45%N ∉ Samples.full_name_category).
  { intros H. apply list_elem_of_In in H. vm_compute in H.
    repeat (destruct H as [H | H]; [discriminate |]). exact H. }
  split; [exact H |]. split; [| vm_compute; reflexivity].
  exact (proj1 (parseSubcategoryFromFullName_splits_at_first_dash
                  Samples.full_name)
           Samples.full_name_category Samples.full_name_rest eq_refl H).
Defined.





















(** A page whose text is spread over lines, beside a style sheet. *)
Example extractRawContent_words :
  fst (extractRawContent
         (Samples.page
            [ Samples.el "style" "" [Text (u "p { color: red }")];
              Samples.el "p" "" [Text (u "  one
 two ")];
              Samples.el "p" "" [Text (u "three")] ]))
  = u "one two three".
Proof. vm_compute. reflexivity. Qed.

(** The page of a signal: its script is gone and its text is one line. *)
Example extractRawContent_signal_page :
  includes (text (select Samples.doc_signal sel_body)) (u "var signal") = true
  /\ includes (fst (extractRawContent Samples.doc_signal)) (u "var signal")
     = false
  /\ includes (fst (extractRawContent Samples.doc_signal))
       (u "Пътна инфраструктура / Велоалеи Приключен Район") = true.
Proof. vm_compute. done. Qed.

End ParserMore.


(** ** The exporter *)

Section ExporterMore.
Import JS Types DataExporter.

Lemma includes_unit (s : jsstring) (x : N) :
  includes s [x] = true <-> x ∈ s.
Proof.
  rewrite includes_infix. split.
  - intros (a & b & ->). apply elem_of_app. right. by left.
  - intros H. apply list_elem_of_split in H as (a & b & ->). by exists a, b.
Qed.

Lemma includes_unit_false (s : jsstring) (x : N) :
  includes s [x] = false <-> x ∉ s.
Proof.
  rewrite <- includes_unit. by destruct (includes s [x]).
Qed.

Lemma doubleQuotes_inj (a b : jsstring) :
  doubleQuotes a = doubleQuotes b -> a = b.
Proof.
  revert b. induction a as [|x a IH]; intros [|y b]; unfold doubleQuotes;
    cbn [flat_map]; try done.
  - by destruct (y =? 34)%N.
  - by destruct (x =? 34)%N.
  - fold (doubleQuotes a). fold (doubleQuotes b).
    destruct (N.eqb_spec x 34) as [-> | Hx], (N.eqb_spec y 34) as [-> | Hy];
      cbn [app]; intros H.
    + injection H as H. f_equal. by apply IH.
    + injection H as H _. congruence.
    + injection H as H _. congruence.
    + injection H as -> H. f_equal. by apply IH.
Qed.

Lemma quotes_doubleQuotes (s : jsstring) :
  length (List.filter (fun x => (x =? 34)%N) (doubleQuotes s))
  = (2 * length (List.filter (fun x => (x =? 34)%N) s))%nat.
Proof.
  induction s as [|x s IH]; [done |]. unfold doubleQuotes. cbn [flat_map].
  fold (doubleQuotes s). rewrite List.filter_app, length_app, IH.
  cbn [List.filter]. destruct (N.eqb_spec x 34) as [-> | Hx].
  - simpl. lia.
  - cbn [List.filter]. apply N.eqb_neq in Hx. rewrite Hx. simpl. lia.
Qed.

Lemma no_quote_filter (s : jsstring) :
  34%N ∉ s -> List.filter (fun x => (x =? 34)%N) s = [].
Proof.
  induction s as [|x s IH]; [done |]. intros H.
  apply not_elem_of_cons in H as [Hx Hs]. cbn [List.filter].
  destruct (N.eqb_spec x 34) as [-> | _]; [done | by apply IH].
Qed.

(** X25: [escapeCsv] keeps fields apart.  Two different strings never
    give the same field, every field holds an even number of double quotes,
    so that the commas and line feeds after it are read as separators, and
    a string without comma, double quote and line feed is written as it
    is.  A null value and the empty string both give the empty field. *)
Theorem escapeCsv_keeps_fields_apart :
  forall a b : jsstring,
    (a <> b -> escapeCsv (Some a) <> escapeCsv (Some b))
    /\ (exists k : nat,
          length (List.filter (fun x => (x =? 34)%N) (escapeCsv (Some a)))
          = (2 * k)%nat)
    /\ ((44%N ∉ a) -> (34%N ∉ a) -> (10%N ∉ a) -> escapeCsv (Some a) = a)
    /\ (((44%N ∈ a) \/ (34%N ∈ a) \/ (10%N ∈ a)) ->
        escapeCsv (Some a) = [34%N] ++ doubleQuotes a ++ [34%N])
    /\ escapeCsv None = [] /\ escapeCsv (Some []) = [].
Proof.
  intros a b.
  assert (Hplain : forall s,
             includes s [44%N] || includes s [34%N] || includes s [10%N] = false ->
             (44%N ∉ s) /\ (34%N ∉ s) /\ (10%N ∉ s)).
  { intros s H. apply orb_false_iff in H as [H H3].
    apply orb_false_iff in H as [H1 H2].
    by rewrite <- !includes_unit_false. }
  split; [| split; [| split; [| split; [| done]]]].
  - intros Hne Heq. apply Hne. revert Heq. unfold escapeCsv.
    destruct (includes a [44%N] || includes a [34%N] || includes a [10%N]) eqn:Ea;
      destruct (includes b [44%N] || includes b [34%N] || includes b [10%N]) eqn:Eb.
    + intros H. injection H as H. apply app_inv_tail in H.
      by apply doubleQuotes_inj.
    + intros H. apply Hplain in Eb as (_ & Hq & _). exfalso. apply Hq.
      rewrite <- H. by left.
    + intros H. apply Hplain in Ea as (_ & Hq & _). exfalso. apply Hq.
      rewrite H. by left.
    + done.
  - unfold escapeCsv.
    destruct (includes a [44%N] || includes a [34%N] || includes a [10%N]) eqn:Ea.
    + exists (S (length (List.filter (fun x => (x =? 34)%N) a))).
      cbn [app List.filter]. change (34 =? 34)%N with true. cbn [length].
      rewrite List.filter_app, length_app, quotes_doubleQuotes. simpl. lia.
    + apply Hplain in Ea as (_ & Hq & _). exists 0%nat.
      by rewrite no_quote_filter.
  - intros H1 H2 H3. unfold escapeCsv.
    apply includes_unit_false in H1, H2, H3. by rewrite H1, H2, H3.
  - intros H. unfold escapeCsv.
    destruct (includes a [44%N] || includes a [34%N] || includes a [10%N]) eqn:Ea;
      [done |].
    apply Hplain in Ea as (H1 & H2 & H3). by destruct H as [H | [H | H]].
Qed.

Lemma escapeCsv_witness :
  u "a,b" <> u "a" /\ escapeCsv (Some (u "a,b")) <> escapeCsv (Some (u "a")).
Proof.
  assert (H : u "a,b" <> u "a") by (vm_compute; discriminate).
  exact (conj H (proj1 (escapeCsv_keeps_fields_apart (u "a,b") (u "a")) H)).
Defined.

Lemma digitsVal_acc (ds : jsstring) :
  forall acc : Z,
    fold_left (fun acc c => acc * 10 + digitVal c) ds acc
    = acc * 10 ^ Z.of_nat (length ds) + digitsVal ds.
Proof.
  unfold digitsVal. induction ds as [|c ds IH]; intros acc.
  - simpl. lia.
  - cbn [fold_left length]. rewrite (IH (acc * 10 + digitVal c)).
    rewrite (IH (0 * 10 + digitVal c)).
    rewrite Nat2Z.inj_succ, Z.pow_succ_r by lia. ring.
Qed.

Lemma digitsVal_app (a b : jsstring) :
  digitsVal (a ++ b) = digitsVal a * 10 ^ Z.of_nat (length b) + digitsVal b.
Proof.
  unfold digitsVal at 1. rewrite fold_left_app. fold (digitsVal a).
  apply digitsVal_acc.
Qed.

Lemma digitsVal_cons (c0 : N) (ds : jsstring) :
  digitsVal (c0 :: ds) = digitVal c0 * 10 ^ Z.of_nat (length ds) + digitsVal ds.
Proof.
  change (c0 :: ds) with ([c0] ++ ds). rewrite digitsVal_app.
  unfold digitsVal at 1. simpl. lia.
Qed.

Lemma digitsVal_bound (ds : jsstring) :
  forallb isDigit ds = true ->
  0 <= digitsVal ds < 10 ^ Z.of_nat (length ds).
Proof.
  induction ds as [|c0 ds IH]; [by (intros _; vm_compute) |].
  cbn [forallb]. intros H. apply andb_true_iff in H as [Hc Hds].
  specialize (IH Hds). rewrite digitsVal_cons. cbn [length].
  rewrite Nat2Z.inj_succ, Z.pow_succ_r by lia.
  unfold isDigit in Hc. apply andb_true_iff in Hc as [H1 H2].
  apply N.leb_le in H1, H2. unfold digitVal.
  assert (0 <= Z.of_N c0 - 48 <= 9) by lia.
  assert (0 < 10 ^ Z.of_nat (length ds)) by (apply Z.pow_pos_nonneg; lia).
  nia.
Qed.

Lemma lt_str_digits (a : jsstring) :
  forall b : jsstring,
    length a = length b ->
    forallb isDigit a = true -> forallb isDigit b = true ->
    lt_str a b = (digitsVal a <? digitsVal b)
    /\ str_eqb a b = (digitsVal a =? digitsVal b).
Proof.
  induction a as [|x a IH]; intros [|y b] Hlen Ha Hb; try done.
  cbn [forallb] in Ha, Hb. apply andb_true_iff in Ha as [Hx Ha].
  apply andb_true_iff in Hb as [Hy Hb]. injection Hlen as Hlen.
  destruct (IH b Hlen Ha Hb) as [IH1 IH2].
  cbn [lt_str str_eqb]. rewrite IH1, IH2, !digitsVal_cons, <- Hlen.
  pose proof (digitsVal_bound a Ha) as Ba.
  pose proof (digitsVal_bound b Hb) as Bb. rewrite <- Hlen in Bb.
  set (P := 10 ^ Z.of_nat (length a)) in *.
  assert (Hvx : digitVal x < digitVal y <-> (x < y)%N) by (unfold digitVal; lia).
  assert (Hex : digitVal x = digitVal y <-> x = y) by (unfold digitVal; lia).
  unfold unit_eqb.
  destruct (N.ltb_spec x y) as [Hlt | Hge], (N.eqb_spec x y) as [Heq | Hne];
    destruct (Z.ltb_spec (digitsVal a) (digitsVal b));
    destruct (Z.eqb_spec (digitsVal a) (digitsVal b));
    destruct (Z.ltb_spec (digitVal x * P + digitsVal a)
                (digitVal y * P + digitsVal b));
    destruct (Z.eqb_spec (digitVal x * P + digitsVal a)
                (digitVal y * P + digitsVal b));
    cbn [orb andb]; split; try reflexivity; exfalso;
    try (subst y); try (apply Hvx in Hlt);
    try (assert (digitVal y <= digitVal x) by (unfold digitVal; lia));
    try (assert (digitVal x <> digitVal y) by (intros ?%Hex; done));
    nia.
Qed.

Lemma lt_str_app (a : jsstring) :
  forall b x y : jsstring,
    length a = length b ->
    lt_str (a ++ x) (b ++ y) = lt_str a b || (str_eqb a b && lt_str x y).
Proof.
  induction a as [|a0 a IH]; intros [|b0 b] x y Hlen; try discriminate Hlen.
  - reflexivity.
  - injection Hlen as Hlen. cbn [app lt_str str_eqb]. rewrite (IH b x y Hlen).
    unfold unit_eqb.
    destruct (a0 <? b0)%N, (a0 =? b0)%N, (lt_str a b), (str_eqb a b),
      (lt_str x y); reflexivity.
Qed.

Lemma digits_without (x : N) (ds : jsstring) :
  isDigit x = false -> forallb isDigit ds = true -> x ∉ ds.
Proof.
  intros Hx Hds Hin. apply forallb_forall with (x := x) in Hds.
  - congruence.
  - by apply list_elem_of_In.
Qed.

(** The key of a date written with two digits for the day and the month
    and four for the year. *)
Lemma signalDate_padded (d m y rest : jsstring) :
  forallb isDigit d = true -> forallb isDigit m = true ->
  forallb isDigit y = true ->
  rest = [] \/ (exists t, rest = 32%N :: t) ->
  signalDate (d ++ 46%N :: m ++ 46%N :: y ++ rest)
  = Some (y ++ [45%N] ++ m ++ [45%N] ++ d).
Proof.
  intros Hd Hm Hy Hrest. unfold signalDate.
  assert (Hdots : split 46 (d ++ 46%N :: m ++ 46%N :: y) = [d; m; y]).
  { rewrite split_app_sep by (by apply digits_without).
    rewrite split_app_sep by (by apply digits_without).
    by rewrite split_no_sep by (by apply digits_without). }
  assert (Hsp : (32%N ∉ d ++ 46%N :: m ++ 46%N :: y)).
  { intros H. apply elem_of_app in H as [H | H];
      [by apply (digits_without 32 d) in H |].
    apply elem_of_cons in H as [H | H]; [done |].
    apply elem_of_app in H as [H | H];
      [by apply (digits_without 32 m) in H |].
    apply elem_of_cons in H as [H | H]; [done |].
    by apply (digits_without 32 y) in H. }
  destruct Hrest as [-> | [t ->]].
  - rewrite app_nil_r, split_no_sep by done. by rewrite Hdots.
  - replace (d ++ 46%N :: m ++ 46%N :: y ++ 32%N :: t)
      with ((d ++ 46%N :: m ++ 46%N :: y) ++ 32%N :: t)
      by (by rewrite <- !app_assoc, <- !app_comm_cons, <- !app_assoc).
    rewrite split_app_sep by done. by rewrite Hdots.
Qed.

(** Keys of the same shape compare as the numbers [YYYYMMDD]. *)
Lemma key_lt (y m d y' m' d' : jsstring) :
  length y = 4%nat -> length m = 2%nat -> length d = 2%nat ->
  length y' = 4%nat -> length m' = 2%nat -> length d' = 2%nat ->
  forallb isDigit y = true -> forallb isDigit m = true ->
  forallb isDigit d = true -> forallb isDigit y' = true ->
  forallb isDigit m' = true -> forallb isDigit d' = true ->
  lt_str (y ++ [45%N] ++ m ++ [45%N] ++ d) (y' ++ 45%N :: m' ++ 45%N :: d')
  = (digitsVal (y ++ m ++ d) <? digitsVal (y' ++ m' ++ d')).
Proof.
  intros Ly Lm Ld Ly' Lm' Ld' Hy Hm Hd Hy' Hm' Hd'.
  rewrite lt_str_app by congruence. cbn [app lt_str].
  change (45 <? 45)%N with false. change (45 =? 45)%N with true.
  cbn [orb andb]. rewrite lt_str_app by congruence. cbn [lt_str].
  change (45 <? 45)%N with false. change (45 =? 45)%N with true.
  cbn [orb andb].
  destruct (lt_str_digits y y' ltac:(congruence) Hy Hy') as [-> ->].
  destruct (lt_str_digits m m' ltac:(congruence) Hm Hm') as [-> ->].
  destruct (lt_str_digits d d' ltac:(congruence) Hd Hd') as [-> _].
  rewrite !digitsVal_app, !length_app, Lm, Ld, Lm', Ld'.
  pose proof (digitsVal_bound m Hm) as Bm. rewrite Lm in Bm.
  pose proof (digitsVal_bound d Hd) as Bd. rewrite Ld in Bd.
  pose proof (digitsVal_bound m' Hm') as Bm'. rewrite Lm' in Bm'.
  pose proof (digitsVal_bound d' Hd') as Bd'. rewrite Ld' in Bd'.
  change (10 ^ Z.of_nat (2 + 2)) with 10000.
  change (10 ^ Z.of_nat 2) with 100 in *.
  destruct (Z.ltb_spec (digitsVal y) (digitsVal y'));
    destruct (Z.eqb_spec (digitsVal y) (digitsVal y'));
    destruct (Z.ltb_spec (digitsVal m) (digitsVal m'));
    destruct (Z.eqb_spec (digitsVal m) (digitsVal m'));
    destruct (Z.ltb_spec (digitsVal d) (digitsVal d'));
    cbn [orb andb]; symmetry;
    (apply Z.ltb_lt || apply Z.ltb_ge); lia.
Qed.

(** X26: for dates written as the site writes them, [DD.MM.YYYY] with an
    optional time after a space, and bounds written [YYYY-MM-DD], the date
    filter is chronological: a signal passes exactly when its day, read as
    the number [YYYYMMDD], lies between the two bounds, both included; with
    one bound given only that bound is checked.  A signal without a
    registration date never passes a filter that has a bound. *)
Theorem date_filter_is_chronological :
  forall (s : Signal) (d m y rest : jsstring) (category subcategory : option Z)
         (status district : option jsstring) (history answers : bool)
         (sd sm sy ed em ey : jsstring),
    let digits := fun (n : nat) (x : jsstring) =>
      length x = n /\ forallb isDigit x = true in
    let options := fun startDate endDate =>
      mkExportOptions category subcategory startDate endDate status district
        history answers in
    let day := digitsVal (y ++ m ++ d) in
    let startDate := sy ++ 45%N :: sm ++ 45%N :: sd in
    let endDate := ey ++ 45%N :: em ++ 45%N :: ed in
    digits 2%nat d -> digits 2%nat m -> digits 4%nat y ->
    digits 2%nat sd -> digits 2%nat sm -> digits 4%nat sy ->
    digits 2%nat ed -> digits 2%nat em -> digits 4%nat ey ->
    rest = [] \/ (exists t, rest = 32%N :: t) ->
    registrationDate s = Some (d ++ 46%N :: m ++ 46%N :: y ++ rest) ->
    (inDateRange (options (Some startDate) (Some endDate)) s = true
     <-> digitsVal (sy ++ sm ++ sd) <= day <= digitsVal (ey ++ em ++ ed))
    /\ (inDateRange (options (Some startDate) None) s = true
        <-> digitsVal (sy ++ sm ++ sd) <= day)
    /\ (inDateRange (options None (Some endDate)) s = true
        <-> day <= digitsVal (ey ++ em ++ ed))
    /\ (forall s0 o, registrationDate s0 = None -> inDateRange o s0 = false).
Proof.
  intros s d m y rest category subcategory status district history answers
    sd sm sy ed em ey digits options day startDate endDate
    [Ld Hd] [Lm Hm] [Ly Hy] [Lsd Hsd] [Lsm Hsm] [Lsy Hsy]
    [Led Hed] [Lem Hem] [Ley Hey] Hrest Hdate.
  assert (Hgiven : given (registrationDate s)
                   = Some (d ++ 46%N :: m ++ 46%N :: y ++ rest)).
  { rewrite Hdate. destruct d; [done | done]. }
  assert (Hs : given (Some startDate) = Some startDate)
    by (unfold startDate; by destruct sy).
  assert (He : given (Some endDate) = Some endDate)
    by (unfold endDate; by destruct ey).
  assert (Hlo : lt_str (y ++ [45%N] ++ m ++ [45%N] ++ d) startDate
                = (day <? digitsVal (sy ++ sm ++ sd)))
    by (by apply key_lt).
  assert (Hhi : lt_str endDate (y ++ [45%N] ++ m ++ [45%N] ++ d)
                = (digitsVal (ey ++ em ++ ed) <? day)).
  { unfold endDate.
    change (ey ++ 45%N :: em ++ 45%N :: ed)
      with (ey ++ [45%N] ++ em ++ [45%N] ++ ed).
    change (y ++ [45%N] ++ m ++ [45%N] ++ d)
      with (y ++ 45%N :: m ++ 45%N :: d).
    by apply key_lt. }
  unfold inDateRange. cbn [eo_startDate eo_endDate options].
  rewrite Hgiven, (signalDate_padded d m y rest Hd Hm Hy Hrest), Hs, He, Hlo, Hhi.
  cbn [given].
  split; [| split; [| split]].
  - destruct (Z.ltb_spec day (digitsVal (sy ++ sm ++ sd)));
      destruct (Z.ltb_spec (digitsVal (ey ++ em ++ ed)) day);
      split; (done || lia).
  - destruct (Z.ltb_spec day (digitsVal (sy ++ sm ++ sd))); split; (done || lia).
  - destruct (Z.ltb_spec (digitsVal (ey ++ em ++ ed)) day); split; (done || lia).
  - intros s0 o H0. unfold inDateRange. by rewrite H0.
Qed.

Lemma date_filter_witness :
  digitsVal (u "20251201") <= digitsVal (u "20251219")
  <= digitsVal (u "20251231")
  /\ inDateRange Samples.december_2025 Samples.registered_19_12 = true.
Proof.
  assert (H : digitsVal (u "20251201") <= digitsVal (u "20251219")
              <= digitsVal (u "20251231")) by (vm_compute; split; discriminate).
  split; [exact H |].
  apply (proj1 (date_filter_is_chronological Samples.registered_19_12
                  (u "19") (u "12") (u "2025") (u " 10:11:12") None None None
                  None false false (u "01") (u "12") (u "2025") (u "31")
                  (u "12") (u "2025")
                  ltac:(vm_compute; done) ltac:(vm_compute; done)
                  ltac:(vm_compute; done) ltac:(vm_compute; done)
                  ltac:(vm_compute; done) ltac:(vm_compute; done)
                  ltac:(vm_compute; done) ltac:(vm_compute; done)
                  ltac:(vm_compute; done)
                  ltac:(right; eexists; vm_compute; reflexivity)
                  ltac:(vm_compute; reflexivity))).
  exact H.
Defined.

Lemma filter_filter {A} (f g : A -> bool) (l : list A) :
  List.filter f (List.filter g l) = List.filter (fun x => g x && f x) l.
Proof.
  induction l as [|x l IH]; [done |]. cbn [List.filter].
  destruct (g x); cbn [andb List.filter]; [| exact IH].
  destruct (f x); by rewrite IH.
Qed.

Lemma filter_sublist {A} (f : A -> bool) (l : list A) :
  List.filter f l `sublist_of` l.
Proof.
  induction l as [|x l IH]; [constructor |]. cbn [List.filter].
  destruct (f x); by constructor.
Qed.

(** X27: the filters of [getFilteredSignals] act as one filter: a signal
    is kept exactly when it passes every criterion that is given, where a
    criterion that is missing or the empty string counts as not given, a
    district or status criterion asks for equality with a value that is
    not null, and either date bound switches the date filter on.  The
    signals kept stay in the order of the query, and filtering the result
    again changes nothing. *)
Theorem getFilteredSignals_filters_as_one_filter :
  forall (options : ExportOptions) (signals : list Signal),
    let keep := fun s : Signal =>
      match given (eo_district options) with
      | Some d => same (district s) d
      | None => true
      end
      && match given (eo_status options) with
         | Some st => same (status s) st
         | None => true
         end
      && match given (eo_startDate options), given (eo_endDate options) with
         | None, None => true
         | _, _ => inDateRange options s
         end in
    let r := getFilteredSignals_filters options signals in
    r = List.filter keep signals
    /\ r `sublist_of` signals
    /\ getFilteredSignals_filters options r = r
    /\ (forall s d, s ∈ r -> given (eo_district options) = Some d ->
                    district s = Some d)
    /\ (forall s st, s ∈ r -> given (eo_status options) = Some st ->
                     status s = Some st).
Proof.
  intros options signals keep r.
  assert (Hall : forall l, getFilteredSignals_filters options l
                           = List.filter keep l).
  { intros l. unfold getFilteredSignals_filters, keep.
    assert (Htrue : forall (A : Type) (k : list A),
               List.filter (fun _ => true) k = k)
      by (intros A k; apply filter_all, Forall_forall; done).
    destruct (given (eo_district options)) as [d |],
             (given (eo_status options)) as [st |],
             (given (eo_startDate options)) as [sd |],
             (given (eo_endDate options)) as [ed |];
      rewrite ?filter_filter; cbn [andb]; try reflexivity;
      try (by rewrite Htrue);
      apply List.filter_ext; intros s;
      repeat match goal with
             | |- context [same ?a ?b] => destruct (same a b)
             end;
      try destruct (inDateRange options s); reflexivity. }
  assert (Hkeep : forall s, s ∈ r -> keep s = true).
  { intros s Hs. unfold r in Hs. rewrite Hall in Hs.
    by apply list_elem_of_In, filter_In in Hs as [_ Hs]. }
  split; [apply Hall |]. split; [| split; [| split]].
  - unfold r. rewrite Hall. apply filter_sublist.
  - rewrite Hall. unfold r. rewrite Hall. apply filter_idem.
  - intros s d Hs Hd. apply Hkeep in Hs. unfold keep in Hs. rewrite Hd in Hs.
    apply andb_true_iff in Hs as [Hs _]. apply andb_true_iff in Hs as [Hs _].
    unfold same in Hs. destruct (district s) as [x |]; [| done].
    by apply str_eqb_eq in Hs as ->.
  - intros s st Hs Hst. apply Hkeep in Hs. unfold keep in Hs. rewrite Hst in Hs.
    apply andb_true_iff in Hs as [Hs _]. apply andb_true_iff in Hs as [_ Hs].
    unfold same in Hs. destruct (status s) as [x |]; [| done].
    by apply str_eqb_eq in Hs as ->.
Qed.

(** The export of one district: the signal without a district is
    dropped. *)
Lemma getFilteredSignals_filters_witness :
  let options :=
    mkExportOptions None None None None None (Some Samples.mladost) false false in
  let r := getFilteredSignals_filters options
             [Samples.blank 2 Samples.t0; Samples.first_write] in
  r = [Samples.first_write]
  /\ given (eo_district options) = Some Samples.mladost
  /\ district Samples.first_write = Some Samples.mladost.
Proof.
  intros options r.
  assert (H : r = [Samples.first_write]) by (vm_compute; reflexivity).
  assert (Hin : Samples.first_write ∈ r) by (rewrite H; by left).
  assert (Hd : given (eo_district options) = Some Samples.mladost)
    by reflexivity.
  split; [exact H |]. split; [exact Hd |].
  exact (proj1 (proj2 (proj2 (proj2
           (getFilteredSignals_filters_as_one_filter options
              [Samples.blank 2 Samples.t0; Samples.first_write]))))
           Samples.first_write Samples.mladost Hin Hd).
Defined.

End ExporterMore.


(** The subcategory of a full name with two dashes. *)
Lemma getSubcategories_witness :
  (45%N ∉ Samples.full_name_category)
  /\ Forall (fun sub => Types.sub_name sub = JS.trim Samples.full_name_rest)
       (Client.getSubcategories
          (inr [Types.mkApiItem 30271 Samples.full_name])).
Proof.
  assert (H : 45%N ∉ Samples.full_name_category).
  { intros H. apply list_elem_of_In in H. vm_compute in H.
    repeat (destruct H as [H | H]; [discriminate |]). exact H. }
  split; [exact H |].
  pose proof (proj1 (getSubcategories_splits_at_first_dash
                       [Types.mkApiItem 30271 Samples.full_name]
                       (Client.mkError []))) as HF.
  cbn [Client.getSubcategories fmap list_fmap] in HF.
  apply Forall2_cons_1 in HF as [(_ & _ & _ & _ & Hname & _) _].
  constructor; [| constructor].
  exact (Hname Samples.full_name_category Samples.full_name_rest eq_refl H).
Defined.


(** ** The run as a whole *)

Section RunMore.
Import JS Types Cheerio Database Client Scraper.

Variable load : jsstring -> document.
Variable now : jsstring.
Variable server : Server.
Variable statusHistoryOf : Z -> list StatusHistoryEntry.
Variable clerkAnswersOf : Z -> list ClerkAnswer.
Variable options : ScrapeOptions.
Variable config : ScraperConfig.

Local Abbreviation scrapeSignal_ :=
  (scrapeSignal load now server statusHistoryOf clerkAnswersOf options config).
Local Abbreviation processIds_ :=
  (processIds load now server statusHistoryOf clerkAnswersOf options config).



(** The requests one id costs. *)
Lemma scrapeSignal_requests (id : Z) (w : World) :
  exists (k : nat) (extras : list Request),
    requests (net (snd (scrapeSignal_ id w)))
    = requests (net w) ++ replicate k (Details id) ++ extras
    /\ (k <= Z.to_nat (retryAttempts config))%nat
    /\ (extras = [] \/ (fetchExtras_ options = true
                        /\ extras = [StatusHistory id; ClerkAnswers id])).
Proof.
  unfold scrapeSignal.
  destruct (negb (skipExisting options) && signalExists id (db w)).
  { exists 0%nat, []. simpl. rewrite app_nil_r. split; [done |].
    split; [lia | by left]. }
  assert (Htrace : exists k : nat,
             (k <= Z.to_nat (retryAttempts config))%nat
             /\ requests (snd (withRetry config (getSignalDetailsHtml server id)
                                 (retryAttempts config) (net w)))
                = requests (net w) ++ replicate k (Details id)).
  { unfold withRetry.
    destruct (Z_le_gt_dec 0 (retryAttempts config)) as [Hge | Hlt].
    - destruct (withRetry_loop_trace config (server id) (Details id)
                  (Z.to_nat (retryAttempts config)) 0%nat
                  (retryAttempts config) None (net w) ltac:(lia))
        as (k & Hk & _ & Hreq & _).
      exists k. split; [done |]. exact Hreq.
    - replace (Z.to_nat (retryAttempts config)) with 0%nat by lia.
      exists 0%nat. simpl. by rewrite app_nil_r. }
  destruct Htrace as (k & Hk & Hreq).
  destruct (withRetry config (getSignalDetailsHtml server id)
              (retryAttempts config) (net w)) as [[error | [html |]] net1];
    simpl in Hreq.
  - exists k, []. rewrite app_nil_r. split; [| split; [done | by left]].
    unfold catchError. by destruct error.
  - destruct (includes html Parser.s_not_registered
              || includes html Parser.s_invalid_number).
    { exists k, []. rewrite app_nil_r. simpl. split; [done |].
      split; [done | by left]. }
    destruct (Parser.parse load now now html id) as [signal |].
    2: { exists k, []. rewrite app_nil_r. simpl. split; [done |].
         split; [done | by left]. }
    destruct (lookupCategoryIds _ _ _) as [categoryId subcategoryId].
    destruct (fetchExtras_ options) eqn:Hf.
    + exists k, [StatusHistory id; ClerkAnswers id]. simpl.
      rewrite Hreq, <- !app_assoc. simpl. split; [done |].
      split; [done | by right].
    + exists k, []. rewrite app_nil_r. simpl. split; [done |].
      split; [done | by left].
  - exists k, []. rewrite app_nil_r. simpl. split; [done |].
    split; [done | by left].
Qed.

Lemma processIds_requests (ids : list Z) :
  forall w : World,
    exists sent : list Request,
      requests (net (snd (processIds_ ids w))) = requests (net w) ++ sent
      /\ Forall (fun q => match q with
                          | Details i | StatusHistory i | ClerkAnswers i =>
                              i ∈ ids
                          end) sent
      /\ (length sent
          <= length ids * (Z.to_nat (retryAttempts config) + 2))%nat
      /\ (fetchExtras_ options = false ->
          (length sent <= length ids * Z.to_nat (retryAttempts config))%nat
          /\ Forall (fun q => match q with
                              | Details _ => True
                              | _ => False
                              end) sent).
Proof.
  induction ids as [|id ids IH]; intros w.
  - exists []. simpl. rewrite app_nil_r. repeat split; (done || lia || constructor).
  - rewrite processIds_cons.
    destruct (scrapeSignal_requests id w) as (k & extras & Hreq & Hk & Hex).
    assert (Hone : Forall (fun q => match q with
                                    | Details i | StatusHistory i
                                    | ClerkAnswers i => i ∈ id :: ids
                                    end)
                     (replicate k (Details id) ++ extras)).
    { apply Forall_app. split.
      - apply Forall_replicate. by left.
      - destruct Hex as [-> | [_ ->]]; repeat constructor. }
    assert (Hlen : (length (replicate k (Details id) ++ extras)
                    <= Z.to_nat (retryAttempts config) + 2)%nat).
    { rewrite length_app, length_replicate.
      destruct Hex as [-> | [_ ->]]; simpl; lia. }
    assert (Hplain : fetchExtras_ options = false ->
              (length (replicate k (Details id) ++ extras)
               <= Z.to_nat (retryAttempts config))%nat
              /\ Forall (fun q => match q with
                                  | Details _ => True
                                  | _ => False
                                  end)
                   (replicate k (Details id) ++ extras)).
    { intros Hf. destruct Hex as [-> | [Hf' _]]; [| congruence].
      rewrite app_nil_r, length_replicate. split; [done |].
      by apply Forall_replicate. }
    set (one := replicate k (Details id) ++ extras) in *.
    destruct (scrapeSignal_ id w) as [[] w1]; simpl in Hreq.
    + destruct (IH (mkWorld (stats w1) (db w1)
                      (sleep (delay options) (net w1))))
        as (sent & Hsent & Hall & Hbound & Hno).
      simpl in Hsent.
      exists (one ++ sent).
      rewrite Hsent, Hreq, <- app_assoc.
      split; [done |]. split; [| split].
      * apply Forall_app. split; [done |].
        eapply Forall_impl; [exact Hall |]. intros [i | i | i] Hi; by right.
      * rewrite length_app. simpl length. lia.
      * intros Hf. destruct (Hplain Hf) as [H1 H2].
        destruct (Hno Hf) as [H3 H4]. split.
        -- rewrite length_app. simpl length. lia.
        -- by apply Forall_app.
    + exists one. simpl.
      rewrite Hreq. split; [done |]. split; [done |]. split; [simpl length; lia |].
      intros Hf. destruct (Hplain Hf) as [H1 H2]. split; [simpl length; lia | done].
    + exists one. simpl.
      rewrite Hreq. split; [done |]. split; [done |]. split; [simpl length; lia |].
      intros Hf. destruct (Hplain Hf) as [H1 H2]. split; [simpl length; lia | done].
Qed.

End RunMore.


(** X29: the requests of a run.  The batches send, after the requests
    already sent, only requests for the ids they were given: at most
    [retryAttempts] detail requests per id and, when extras are fetched,
    one request for the status history and one for the clerk answers;
    without extras nothing but detail requests is sent. *)
Theorem processIds_requests_only_its_ids :
  forall load now server statusHistoryOf clerkAnswersOf options config
         (ids : list Z) (w : Scraper.World),
    exists sent : list Client.Request,
      Client.requests
        (Scraper.net (snd (Scraper.processIds load now server statusHistoryOf
                             clerkAnswersOf options config ids w)))
      = Client.requests (Scraper.net w) ++ sent
      /\ Forall (fun q => match q with
                          | Client.Details i | Client.StatusHistory i
                          | Client.ClerkAnswers i => i ∈ ids
                          end) sent
      /\ (length sent
          <= length ids * (Z.to_nat (Client.retryAttempts config) + 2))%nat
      /\ (Scraper.fetchExtras_ options = false ->
          (length sent
           <= length ids * Z.to_nat (Client.retryAttempts config))%nat
          /\ Forall (fun q => match q with
                              | Client.Details _ => True
                              | _ => False
                              end) sent).
Proof.
  intros load now server statusHistoryOf clerkAnswersOf options config ids w.
  apply processIds_requests.
Qed.

